(** * EtsyScraper: the metrics harvester (etsy_ads_metrics_harvest.py)

    A shallow embedding of the reconciliation core of the harvester: the
    JSON tree walker, the range-total classifier, the date normaliser, the
    numeric coercion, the per-record accumulation loop, the reduction
    policies and the derived ratios, followed by the properties the
    specification states about them.

    Modelling conventions.
    - Python [float] is IEEE binary64, given by the Standard Library's
      executable specification [SpecFloat] at precision 53 and maximal
      exponent 1024 (NaN, infinities and signed zeros included).
    - Python [int] is [Z]; [str] is [string], read as a sequence of ASCII
      code points (text outside ASCII is not represented).
    - A Python [dict] that is iterated is an association list in insertion
      order; the two-level accumulator [values_by_date] is a [gmap].
    - Exceptions are values of the error monad [res].
    - The interpreter is CPython 3.11: [sum] is a plain left fold, and the
      JSON scanner counts its nesting against the same recursion limit as
      the frames of the tree walker. *)

From Stdlib Require Import ZArith Bool List Lia Ascii String.
From Stdlib Require Import Floats.SpecFloat.
From Stdlib Require OrderedTypeEx.
From stdpp Require Import base option list gmap strings sorting.

Import ListNotations.
Set Warnings "-register-all".
Local Open Scope Z_scope.

(** ** Exceptions *)

Inductive exn : Type :=
  | ValueError
  | OverflowError
  | ZeroDivisionError
  | RecursionError.

Inductive res (A : Type) : Type :=
  | Ok (a : A)
  | Raise (e : exn).
Arguments Ok {A} a.
Arguments Raise {A} e.

Definition rbind {A B : Type} (c : res A) (k : A -> res B) : res B :=
  match c with
  | Ok a => k a
  | Raise e => Raise e
  end.

Notation "'let*' x ':=' c 'in' k" := (rbind c (fun x => k))
  (at level 10, x name, c at level 100, k at level 200).

(** ** Python floats: IEEE binary64 *)

Module PyFloat.

Definition prec : Z := 53.
Definition emax : Z := 1024.

Abbreviation float := spec_float.

Definition fzero : float := S754_zero false.

(** Round-to-nearest-even conversion of an integer; an integer beyond the
    binary64 range comes out as an infinity. *)
Definition of_Z (z : Z) : float := binary_normalize prec emax z 0 false.

(** [float(n)] for a Python int [n]: OverflowError when [n] is too large. *)
Definition float_of_int (z : Z) : res float :=
  match of_Z z with
  | S754_infinity _ => Raise OverflowError
  | f => Ok f
  end.

Definition fadd : float -> float -> float := SFadd prec emax.
Definition fdiv : float -> float -> float := SFdiv prec emax.
Definition flt : float -> float -> bool := SFltb.
Definition feq : float -> float -> bool := SFeqb.

(** Truth value of a float: [bool(x)] is [x != 0.0]; NaN is truthy. *)
Definition truthy (x : float) : bool := negb (feq x fzero).

(** [x / y] on floats: ZeroDivisionError when [y == 0.0], IEEE division
    otherwise (overflow gives an infinity, not an exception). *)
Definition truediv (x y : float) : res float :=
  if feq y fzero then Raise ZeroDivisionError else Ok (fdiv x y).

(** [int(x)] for a float: truncation toward zero; ValueError on NaN,
    OverflowError on an infinity. *)
Definition int_of_float (x : float) : res Z :=
  match x with
  | S754_zero _ => Ok 0
  | S754_nan => Raise ValueError
  | S754_infinity _ => Raise OverflowError
  | S754_finite s m e =>
      let a := if 0 <=? e then Zpos m * 2 ^ e else Zpos m / 2 ^ (- e) in
      Ok (if s then - a else a)
  end.

(** Nearest integer to [a / b] for [b > 0], ties to even. *)
Definition div_half_even (a b : Z) : Z :=
  let q := a / b in
  match (2 * (a mod b)) ?= b with
  | Lt => q
  | Gt => q + 1
  | Eq => if Z.even q then q else q + 1
  end.

(** [round(x, nd)] for [0 <= nd]: the exact binary value of [x] is rounded
    half-even to [nd] decimal places and the decimal result is converted
    back to the nearest float.  NaN, infinities and zeros round to
    themselves; a value that rounds to nothing keeps its sign. *)
Definition round_ndigits (x : float) (nd : Z) : float :=
  match x with
  | S754_finite s m e =>
      let p := 10 ^ nd in
      let n := if 0 <=? e then Zpos m * 2 ^ e * p
               else div_half_even (Zpos m * p) (2 ^ (- e)) in
      match n with
      | Zpos np => fdiv (S754_finite s np 0) (S754_finite false (Z.to_pos p) 0)
      | _ => S754_zero s
      end
  | _ => x
  end.

End PyFloat.

Import PyFloat.

(** ** Python strings (ASCII) *)

Module PyStr.

Definition code (c : ascii) : N := N_of_ascii c.

Definition in_range (lo hi c : ascii) : bool :=
  ((code lo <=? code c) && (code c <=? code hi))%N.

Definition is_digit (c : ascii) : bool := in_range "0" "9" c.

(** [str.isspace] on ASCII: TAB..CR, FS..US and the space. *)
Definition is_space (c : ascii) : bool :=
  ((9 <=? code c) && (code c <=? 13) || (28 <=? code c) && (code c <=? 32))%N.

Definition lower_char (c : ascii) : ascii :=
  if in_range "A" "Z" c then ascii_of_N (code c + 32) else c.

Fixpoint lower (s : string) : string :=
  match s with
  | EmptyString => EmptyString
  | String c r => String (lower_char c) (lower r)
  end.

Fixpoint lstrip (s : string) : string :=
  match s with
  | String c r => if is_space c then lstrip r else s
  | EmptyString => EmptyString
  end.

Fixpoint rstrip (s : string) : string :=
  match s with
  | EmptyString => EmptyString
  | String c r =>
      match rstrip r with
      | EmptyString => if is_space c then EmptyString else String c EmptyString
      | r' => String c r'
      end
  end.

Definition strip (s : string) : string := rstrip (lstrip s).

Definition endswith (s p : string) : bool :=
  let n := String.length s in
  let k := String.length p in
  (k <=? n)%nat && String.eqb (String.substring (n - k) k s) p.

(** [s[:-k]] *)
Definition drop_last (k : nat) (s : string) : string :=
  String.substring 0 (String.length s - k) s.

(** [s.replace(c, "")] for a one-character [c]. *)
Fixpoint remove_char (c : ascii) (s : string) : string :=
  match s with
  | EmptyString => EmptyString
  | String a r => if Ascii.eqb a c then remove_char c r else String a (remove_char c r)
  end.

Definition digit_val (c : ascii) : Z := Z.of_N (code c) - 48.

(** [int(s)] for a string of ASCII digits. *)
Definition int_of_digits (s : string) : Z :=
  fold_left (fun acc c => 10 * acc + digit_val c) (list_ascii_of_string s) 0.

Definition digit_char (d : Z) : ascii := ascii_of_N (Z.to_N (48 + d mod 10)).

(** ["%02d"] and ["%04d"] for a non-negative number that fits. *)
Definition fmt2 (n : Z) : string :=
  String (digit_char (n / 10)) (String (digit_char n) EmptyString).

Definition fmt4 (n : Z) : string := fmt2 (n / 100) +:+ fmt2 (n mod 100).

End PyStr.

(** ** Backtracking regular expressions

    The fragment of Python's [re] that [datetime.strptime] and the
    harvester use.  [rmatch r s] lists, in the order a backtracking matcher
    tries them, the ways [r] matches a prefix of [s]: each is the groups
    captured so far and the text that remains. *)

Module Re.

Inductive re : Type :=
  | Chr (p : ascii -> bool)
  | Eps
  | Seq (a b : re)
  | Alt (a b : re)
  | Opt (a : re)                       (* greedy [a?] *)
  | Many1 (p : ascii -> bool)          (* greedy [p+] *)
  | UpTo (n : nat) (p : ascii -> bool) (* greedy [p{1,n}] *)
  | Group (name : ascii) (a : re).     (* [(?P<name>a)] *)

Definition env : Type := list (ascii * string).

(** Prefixes of the run of [p]-characters at the head of [s], of length
    at most [n] and at least 1, longest first, as remaining texts. *)
Fixpoint run (n : nat) (p : ascii -> bool) (s : string) : list string :=
  match n, s with
  | S n', String c r => if p c then run n' p r ++ [r] else []
  | _, _ => []
  end.

Fixpoint rmatch (r : re) (g : env) (s : string) : list (env * string) :=
  match r with
  | Chr p =>
      match s with
      | String c t => if p c then [(g, t)] else []
      | EmptyString => []
      end
  | Eps => [(g, s)]
  | Seq a b => flat_map (fun '(g', t) => rmatch b g' t) (rmatch a g s)
  | Alt a b => rmatch a g s ++ rmatch b g s
  | Opt a => rmatch a g s ++ [(g, s)]
  | Many1 p => map (fun t => (g, t)) (run (String.length s) p s)
  | UpTo n p => map (fun t => (g, t)) (run n p s)
  | Group name a =>
      map (fun '(g', t) =>
             ((name, String.substring 0 (String.length s - String.length t) s) :: g', t))
          (rmatch a g s)
  end.

(** [re.match]: the first way to match at the start of [s]. *)
Definition match_start (r : re) (s : string) : option (env * string) :=
  head (rmatch r [] s).

(** [re.search]: the first position where [r] matches. *)
Fixpoint search (r : re) (s : string) : option env :=
  match match_start r s with
  | Some (g, _) => Some g
  | None =>
      match s with
      | String _ t => search r t
      | EmptyString => None
      end
  end.

Definition group (g : env) (name : ascii) : option string :=
  snd <$> List.find (fun '(n, _) => Ascii.eqb n name) g.

Definition lit (c : ascii) : re := Chr (Ascii.eqb c).
(** A literal under [re.IGNORECASE]. *)
Definition lit_i (c : ascii) : re :=
  Chr (fun x => Ascii.eqb (PyStr.lower_char x) (PyStr.lower_char c)).
Definition rng (lo hi : ascii) : re := Chr (PyStr.in_range lo hi).
Definition dig : re := Chr PyStr.is_digit.

Fixpoint seqs (l : list re) : re :=
  match l with
  | [] => Eps
  | [a] => a
  | a :: t => Seq a (seqs t)
  end.

Fixpoint alts (a : re) (l : list re) : re :=
  match l with
  | [] => a
  | b :: t => Alt a (alts b t)
  end.

End Re.

(** ** Calendar dates ([datetime]) *)

Module PyDate.

Definition MINYEAR : Z := 1.
Definition MAXYEAR : Z := 9999.
Definition MAXORDINAL : Z := 3652059.

Definition is_leap (year : Z) : bool :=
  (year mod 4 =? 0) && (negb (year mod 100 =? 0) || (year mod 400 =? 0)).

Definition DAYS_IN_MONTH : list Z := [-1; 31; 28; 31; 30; 31; 30; 31; 31; 30; 31; 30; 31].
Definition DAYS_BEFORE_MONTH : list Z :=
  [-1; 0; 31; 59; 90; 120; 151; 181; 212; 243; 273; 304; 334].

Definition days_before_year (year : Z) : Z :=
  let y := year - 1 in y * 365 + y / 4 - y / 100 + y / 400.

Definition days_in_month (year month : Z) : Z :=
  if (month =? 2) && is_leap year then 29
  else nth (Z.to_nat month) DAYS_IN_MONTH 0.

Definition days_before_month (year month : Z) : Z :=
  nth (Z.to_nat month) DAYS_BEFORE_MONTH 0
  + (if (2 <? month) && is_leap year then 1 else 0).

Definition ymd2ord (year month day : Z) : Z :=
  days_before_year year + days_before_month year month + day.

Definition DI400Y : Z := 146097.
Definition DI100Y : Z := 36524.
Definition DI4Y : Z := 1461.

Record date : Type := mkdate { year : Z; month : Z; day : Z }.

Definition ord2ymd (n : Z) : date :=
  let n := n - 1 in
  let n400 := n / DI400Y in
  let n := n mod DI400Y in
  let y := n400 * 400 + 1 in
  let n100 := n / DI100Y in
  let n := n mod DI100Y in
  let n4 := n / DI4Y in
  let n := n mod DI4Y in
  let n1 := n / 365 in
  let n := n mod 365 in
  let y := y + n100 * 100 + n4 * 4 + n1 in
  if (n1 =? 4) || (n100 =? 4) then mkdate (y - 1) 12 31
  else
    let leapyear := (n1 =? 3) && (negb (n4 =? 24) || (n100 =? 3)) in
    let m := Z.shiftr (n + 50) 5 in
    let preceding :=
      nth (Z.to_nat m) DAYS_BEFORE_MONTH 0 + (if (2 <? m) && leapyear then 1 else 0) in
    if n <? preceding then
      let m := m - 1 in
      let preceding :=
        preceding
        - (nth (Z.to_nat m) DAYS_IN_MONTH 0 + (if (m =? 2) && leapyear then 1 else 0)) in
      mkdate y m (n - preceding + 1)
    else mkdate y m (n - preceding + 1).

(** [date.isoformat()]: ["%04d-%02d-%02d"]. *)
Definition isoformat (d : date) : string :=
  PyStr.fmt4 (year d) +:+ "-" +:+ PyStr.fmt2 (month d) +:+ "-" +:+ PyStr.fmt2 (day d).

(** A [datetime] without its sub-second part and its tzinfo, neither of
    which takes part in [+ timedelta(hours=..)] or in [.date()]. *)
Record datetime : Type :=
  mkdatetime { dt_date : date; hour : Z; minute : Z; second : Z }.

Definition valid_date (y m d : Z) : bool :=
  (MINYEAR <=? y) && (y <=? MAXYEAR) && (1 <=? m) && (m <=? 12)
  && (1 <=? d) && (d <=? days_in_month y m).

(** The [datetime(...)] constructor: ValueError on a field out of range. *)
Definition make_datetime (y m d hh mm ss : Z) : option datetime :=
  if valid_date y m d
     && (0 <=? hh) && (hh <=? 23) && (0 <=? mm) && (mm <=? 59)
     && (0 <=? ss) && (ss <=? 59)
  then Some (mkdatetime (mkdate y m d) hh mm ss)
  else None.

(** Seconds from the start of ordinal day 0 to the wall-clock time of [dt]. *)
Definition wall_seconds (dt : datetime) : Z :=
  ymd2ord (year (dt_date dt)) (month (dt_date dt)) (day (dt_date dt)) * 86400
  + hour dt * 3600 + minute dt * 60 + second dt.

Definition of_wall_seconds (t : Z) : option datetime :=
  let days := t / 86400 in
  let r := t mod 86400 in
  if (1 <=? days) && (days <=? MAXORDINAL)
  then Some (mkdatetime (ord2ymd days) (r / 3600) (r mod 3600 / 60) (r mod 60))
  else None.

(** [dt + timedelta(hours=h)]: [None] stands for the OverflowError raised
    when the result (or the timedelta itself) is out of range. *)
Definition add_hours (dt : datetime) (h : Z) : option datetime :=
  of_wall_seconds (wall_seconds dt + h * 3600).

(** [datetime.fromtimestamp(ts, tz=timezone.utc)] for an integer [ts]:
    [None] stands for the ValueError, OverflowError or OSError raised when
    the instant lies outside the years 1..9999. *)
Definition fromtimestamp_utc (ts : Z) : option datetime :=
  of_wall_seconds (ts + 719163 * 86400).

End PyDate.

(** ** [datetime.strptime] *)

Module Strptime.
Import Re.

Local Open Scope char_scope.

(** The regular expression of a directive, as in [_strptime.TimeRE]. *)
Definition directive (c : ascii) : re :=
  match c with
  | "d" => Group "d" (alts (Seq (lit "3") (rng "0" "1"))
                           [Seq (rng "1" "2") dig; Seq (lit "0") (rng "1" "9");
                            rng "1" "9"; Seq (lit " ") (rng "1" "9")])
  | "f" => Group "f" (UpTo 6 PyStr.is_digit)
  | "H" => Group "H" (alts (Seq (lit "2") (rng "0" "3")) [Seq (rng "0" "1") dig; dig])
  | "m" => Group "m" (alts (Seq (lit "1") (rng "0" "2")) [Seq (lit "0") (rng "1" "9"); rng "1" "9"])
  | "M" => Group "M" (alts (Seq (rng "0" "5") dig) [dig])
  | "S" => Group "S" (alts (Seq (lit "6") (rng "0" "1")) [Seq (rng "0" "5") dig; dig])
  | "Y" => Group "Y" (seqs [dig; dig; dig; dig])
  | "z" => Group "z"
             (Alt (seqs [Alt (lit "+") (lit "-"); dig; dig; Opt (lit ":"); rng "0" "5"; dig;
                         Opt (seqs [Opt (lit ":"); rng "0" "5"; dig;
                                    Opt (Seq (lit ".") (UpTo 6 PyStr.is_digit))])])
                  (lit "Z"))
  | _ => Chr (fun _ => false)
  end.

(** [TimeRE.pattern]: directives become their groups, a run of whitespace
    becomes [\s+], any other character stands for itself (the pattern is
    compiled with [re.IGNORECASE]). *)
Fixpoint pattern_aux (in_space : bool) (fmt : string) : re :=
  match fmt with
  | EmptyString => Eps
  | String "%" (String c rest) => Seq (directive c) (pattern_aux false rest)
  | String c rest =>
      if PyStr.is_space c then
        if in_space then pattern_aux true rest
        else Seq (Many1 PyStr.is_space) (pattern_aux true rest)
      else Seq (lit_i c) (pattern_aux false rest)
  end.

Definition pattern (fmt : string) : re := pattern_aux false fmt.

Local Close Scope char_scope.

Definition field (g : env) (name : ascii) (default : Z) : Z :=
  match group g name with
  | Some t => PyStr.int_of_digits (PyStr.strip t)
  | None => default
  end.

(** The checks made on a [%z] text: the two colons go together, and the
    offset is strictly within a day. *)
Definition tz_ok (z : string) : bool :=
  if String.eqb z "Z" then true
  else
    let colon (i : nat) (t : string) := String.eqb (String.substring i 1 t) ":" in
    let del (i : nat) (t : string) :=
      String.substring 0 i t +:+ String.substring (S i) (String.length t) t in
    let z1 := if colon 3%nat z then del 3%nat z else z in
    let bad :=
      if colon 3%nat z
      then (5 <? String.length z1)%nat && negb (colon 5%nat z1)
      else colon 5%nat z1 in
    let z2 := if colon 3%nat z && colon 5%nat z1 then del 5%nat z1 else z1 in
    negb bad && (PyStr.int_of_digits (String.substring 1 2 z2) <=? 23).

(** [datetime.strptime(s, fmt)]; [None] stands for ValueError. *)
Definition strptime (s fmt : string) : option PyDate.datetime :=
  match match_start (pattern fmt) s with
  | Some (g, EmptyString) =>
      if match group g "z"%char with Some z => tz_ok z | None => true end
      then PyDate.make_datetime (field g "Y" 1900) (field g "m" 1) (field g "d" 1)
                                (field g "H" 0) (field g "M" 0) (field g "S" 0)
      else None
  | _ => None
  end.

End Strptime.

(** ** [float(s)] on strings *)

Module PyFloatStr.
Import PyStr.

Local Open Scope char_scope.

(** Underscores may only sit between two digits; they are then dropped. *)
Fixpoint strip_underscores (prev_digit : bool) (s : string) : option string :=
  match s with
  | EmptyString => Some EmptyString
  | String "_" r =>
      match r with
      | String c _ => if prev_digit && is_digit c then strip_underscores false r else None
      | EmptyString => None
      end
  | String c r => String c <$> strip_underscores (is_digit c) r
  end.

Fixpoint span_digits (s : string) : string * string :=
  match s with
  | String c r =>
      if is_digit c then let '(d, t) := span_digits r in (String c d, t)
      else (EmptyString, s)
  | EmptyString => (EmptyString, EmptyString)
  end.

Definition take_sign (s : string) : bool * string :=
  match s with
  | String "-" r => (true, r)
  | String "+" r => (false, r)
  | _ => (false, s)
  end.

(** The exponent part [e[+-]digits], empty or complete. *)
Definition exponent (s : string) : option Z :=
  match s with
  | EmptyString => Some 0%Z
  | String c r =>
      if Ascii.eqb (lower_char c) "e" then
        let '(neg, r1) := take_sign r in
        match span_digits r1 with
        | (String _ _ as d, EmptyString) =>
            Some (if neg then - int_of_digits d else int_of_digits d)%Z
        | _ => None
        end
      else None
  end.

Local Close Scope char_scope.

(** The float nearest to [(-1)^neg * m * 10^e10]. *)
Definition of_decimal (neg : bool) (m e10 : Z) : float :=
  match m with
  | Zpos pm =>
      if (0 <=? e10)%Z
      then binary_normalize prec emax ((if neg then - m else m) * 10 ^ e10) 0 false
      else fdiv (S754_finite neg pm 0) (S754_finite false (Z.to_pos (10 ^ (- e10))) 0)
  | _ => S754_zero neg
  end.

(** [float(s)]: [None] stands for ValueError. *)
Definition float_of_string (s : string) : option float :=
  match strip_underscores false (strip s) with
  | None => None
  | Some t =>
      let '(neg, body) := take_sign t in
      let lb := lower body in
      if String.eqb lb "inf" || String.eqb lb "infinity" then Some (S754_infinity neg)
      else if String.eqb lb "nan" then Some S754_nan
      else
        let '(ip, r1) := span_digits body in
        let '(fp, r2) :=
          match r1 with
          | String "."%char r => span_digits r
          | _ => (EmptyString, r1)
          end in
        if (String.length ip + String.length fp =? 0)%nat then None
        else
          match exponent r2 with
          | Some e =>
              Some (of_decimal neg (int_of_digits (ip +:+ fp))
                               (e - Z.of_nat (String.length fp)))
          | None => None
          end
  end.

End PyFloatStr.

(** ** JSON values and dictionaries *)

Inductive json : Type :=
  | JNull
  | JBool (b : bool)
  | JInt (n : Z)
  | JFloat (x : float)
  | JStr (s : string)
  | JList (l : list json)
  | JDict (d : list (string * json)).

(** A [dict] in insertion order; the keys of a well-formed one are distinct. *)
Abbreviation dict := (list (string * json)).

Definition keys (d : dict) : list string := map fst d.
Definition values (d : dict) : list json := map snd d.

(** [d[k]] *)
Fixpoint dict_get (d : dict) (k : string) : option json :=
  match d with
  | [] => None
  | (k', v) :: t => if String.eqb k' k then Some v else dict_get t k
  end.

(** ** Generators

    What a generator does, seen from its consumer: the values it yields,
    in order, and the exception that ends it, if one does. *)

Definition gen (A : Type) : Type := (list A * option exn)%type.

Definition gen_done {A : Type} : gen A := ([], None).
Definition gen_raise {A : Type} (e : exn) : gen A := ([], Some e).
Definition gen_yield {A : Type} (a : A) (g : gen A) : gen A := (a :: fst g, snd g).

(** Run [g1], then [g2] unless [g1] raised. *)
Definition gen_then {A : Type} (g1 g2 : gen A) : gen A :=
  match snd g1 with
  | None => (fst g1 ++ fst g2, snd g2)
  | Some _ => g1
  end.

(** [for x in l: yield from f(x)] *)
Definition yield_from_each {A B : Type} (f : B -> gen A) (l : list B) : gen A :=
  fold_right (fun x rest => gen_then (f x) rest) gen_done l.

(** [for x in g: st = body(st, x)]; an exception of the body or of the
    generator ends the loop and propagates. *)
Fixpoint for_each {A S : Type} (body : S -> A -> res S) (l : list A) (st : S) : res S :=
  match l with
  | [] => Ok st
  | x :: t => let* st' := body st x in for_each body t st'
  end.

Definition for_gen {A S : Type} (body : S -> A -> res S) (g : gen A) (st : S) : res S :=
  let* st' := for_each body (fst g) st in
  match snd g with
  | None => Ok st'
  | Some e => Raise e
  end.

(** ** The harvester *)

Module Harvest.
Import PyStr.

(** *** Constants *)

Definition REMAP : gmap string string :=
  list_to_map
    [ ("impressions", "views"); ("ad_impressions", "views");
      ("attributed_impressions", "views"); ("impressioncount", "views");
      ("impression_count", "views");
      ("clicks", "clicks"); ("click_throughs", "clicks");
      ("attributed_clicks", "clicks"); ("charged_clicks", "clicks");
      ("clickcount", "clicks"); ("click_count", "clicks");
      ("orders", "orders"); ("purchases", "orders"); ("purchasecount", "orders");
      ("ordercount", "orders"); ("conversions", "orders");
      ("attributed_orders", "orders");
      ("revenue", "revenue"); ("sales", "revenue"); ("attributed_sales", "revenue");
      ("sales_cents", "revenue"); ("revenue_cents", "revenue");
      ("spend", "spend"); ("spend_cents", "spend"); ("cost_cents", "spend");
      ("spend_micros", "spend"); ("cost_micros", "spend"); ("spenttotal", "spend");
      ("spendtotal", "spend"); ("spend_total", "spend"); ("costtotal", "spend") ].

Definition CENTS_LIKE : gset string :=
  {[ "spenttotal"; "spendtotal"; "spend_total"; "costtotal" ]}.

Definition DATE_KEYS : gset string := {[ "date"; "day"; "timestamp" ]}.

Definition SKIP_KEYS : gset string :=
  {[ "id"; "listing_id"; "campaign_id"; "ad_group_id"; "shop_id"; "country";
     "currency"; "__typename" ]}.

Definition RANGE_HINT_KEYS : gset string :=
  {[ "startdate"; "enddate"; "start_date"; "end_date"; "from"; "to";
     "date_range"; "range"; "period"; "total"; "totals"; "sum" ]}.

(** [{k.lower() for k in d.keys()}] *)
Definition lower_keys (d : dict) : gset string := list_to_set (lower <$> keys d).

(** *** looks_like_range_total *)

Definition looks_like_range_total (d : dict) : bool :=
  let l := lower_keys d in
  if bool_decide (l ∩ RANGE_HINT_KEYS = ∅) then false
  else if existsb (fun k => bool_decide (k ∈ l))
                  ["days"; "daily"; "by_day"; "series"; "data"; "datapoints"]
       then false
       else true.

(** *** norm_date *)

(** The numeric branch: [ts] is [int(v)]. *)
Definition norm_timestamp (TZ_OFFSET : Z) (ts : Z) : option string :=
  let ts := if 1000000000000 <? ts then ts / 1000 else ts in
  match PyDate.fromtimestamp_utc ts with
  | Some dt_utc =>
      match PyDate.add_hours dt_utc TZ_OFFSET with
      | Some dt_local => Some (PyDate.isoformat (PyDate.dt_date dt_local))
      | None => None
      end
  | None => None
  end.

Definition DATETIME_FORMATS : list string :=
  ["%Y-%m-%dT%H:%M:%S%z"; "%Y-%m-%dT%H:%M:%S.%fZ"; "%Y-%m-%dT%H:%M:%SZ";
   "%Y-%m-%d %H:%M:%S"].

Definition DATE_FORMATS : list string := ["%Y-%m-%d"; "%m/%d/%Y"].

(** The first loop: a format that parses and whose shifted value is in
    range returns; any exception moves on to the next format. *)
Fixpoint try_datetime_formats (TZ_OFFSET : Z) (s : string) (fmts : list string)
  : option string :=
  match fmts with
  | [] => None
  | fmt :: rest =>
      match Strptime.strptime s fmt with
      | Some dtp =>
          match PyDate.add_hours dtp TZ_OFFSET with
          | Some dtp' => Some (PyDate.isoformat (PyDate.dt_date dtp'))
          | None => try_datetime_formats TZ_OFFSET s rest
          end
      | None => try_datetime_formats TZ_OFFSET s rest
      end
  end.

(** The second loop: pure dates, no offset. *)
Fixpoint try_date_formats (s : string) (fmts : list string) : option string :=
  match fmts with
  | [] => None
  | fmt :: rest =>
      match Strptime.strptime s fmt with
      | Some dtp => Some (PyDate.isoformat (PyDate.dt_date dtp))
      | None => try_date_formats s rest
      end
  end.

(** [(20\d{2}-\d{2}-\d{2})] *)
Definition ISO_DATE_RE : Re.re :=
  Re.Group "1"%char
    (Re.seqs [Re.lit "2"; Re.lit "0"; Re.dig; Re.dig; Re.lit "-"; Re.dig; Re.dig;
              Re.lit "-"; Re.dig; Re.dig]).

Definition search_iso_date (s : string) : option string :=
  match Re.search ISO_DATE_RE s with
  | Some g => Re.group g "1"%char
  | None => None
  end.

Definition norm_date_str (TZ_OFFSET : Z) (v : string) : option string :=
  let s := strip v in
  match try_datetime_formats TZ_OFFSET s DATETIME_FORMATS with
  | Some r => Some r
  | None =>
      match try_date_formats s DATE_FORMATS with
      | Some r => Some r
      | None => search_iso_date s
      end
  end.

(** [norm_date(v)], with the global [TZ_OFFSET] as a parameter.  [bool] is
    a subclass of [int]; [int(v)] sits outside the [try], so a NaN or an
    infinity raises. *)
Definition norm_date (TZ_OFFSET : Z) (v : json) : res (option string) :=
  match v with
  | JNull => Ok None
  | JBool b => Ok (norm_timestamp TZ_OFFSET (if b then 1 else 0))
  | JInt n => Ok (norm_timestamp TZ_OFFSET n)
  | JFloat x => let* ts := int_of_float x in Ok (norm_timestamp TZ_OFFSET ts)
  | JStr s => Ok (norm_date_str TZ_OFFSET s)
  | JList _ | JDict _ => Ok None
  end.

(** *** coerce_number *)

Definition coerce_number (v : json) : res (option float) :=
  match v with
  | JNull => Ok None
  | JBool b => let* x := float_of_int (if b then 1 else 0) in Ok (Some x)
  | JInt n => let* x := float_of_int n in Ok (Some x)
  | JFloat x => Ok (Some x)
  | JStr s => Ok (PyFloatStr.float_of_string (remove_char "," (strip s)))
  | JList _ | JDict _ => Ok None
  end.

(** *** iter_dicts

    [limit] is the number of generator frames that may still be entered
    before the interpreter's recursion limit is hit. *)
Fixpoint iter_dicts (limit : nat) (obj : json) : gen dict :=
  match limit with
  | O => gen_raise RecursionError
  | S limit' =>
      match obj with
      | JDict d => gen_yield d (yield_from_each (iter_dicts limit') (values d))
      | JList l => yield_from_each (iter_dicts limit') l
      | _ => gen_done
      end
  end.

(** *** reduce_vals *)

(** [sum(arr)]: a left fold from the integer 0.  (CPython 3.12 and later
    add a compensation term; on lists of at most one value the result is
    the same.) *)
Definition py_sum (arr : list float) : float := fold_left fadd arr (of_Z 0).

(** [min(arr)] and [max(arr)] on a non-empty list: the first extremal
    element under [<], resp. [>]. *)
Definition py_min (x : float) (rest : list float) : float :=
  fold_left (fun cur item => if flt item cur then item else cur) rest x.

Definition py_max (x : float) (rest : list float) : float :=
  fold_left (fun cur item => if flt cur item then item else cur) rest x.

(** [sorted(arr)]: a stable sort under [<].  On values among which [<] is
    a strict weak order (texts; floats without a NaN) the sorted list is
    the same for every stable sort.  With a NaN among two or more floats
    the order that CPython's merge sort leaves depends on its runs and is
    not this one. *)
Fixpoint insert_sorted {A : Type} (lt : A -> A -> bool) (x : A) (l : list A) : list A :=
  match l with
  | [] => [x]
  | y :: t => if lt x y then x :: y :: t else y :: insert_sorted lt x t
  end.

Definition sorted {A : Type} (lt : A -> A -> bool) (l : list A) : list A :=
  fold_left (fun acc x => insert_sorted lt x acc) l [].

(** [statistics.median] on a non-empty list. *)
Definition median (arr : list float) : float :=
  let data := sorted flt arr in
  let n := length data in
  if Nat.eqb (n mod 2) 1 then nth (n / 2) data fzero
  else
    let i := (n / 2)%nat in
    fdiv (fadd (nth (i - 1) data fzero) (nth i data fzero)) (of_Z 2).

Definition reduce_vals (arr : list float) (policy : string) : float :=
  match arr with
  | [] => fzero
  | x :: rest =>
      if String.eqb policy "sum" then py_sum arr
      else if String.eqb policy "min-nonzero" then
        match filter (fun v => flt fzero v = true) arr with
        | [] => fzero
        | p :: pos => py_min p pos
        end
      else if String.eqb policy "min" then py_min x rest
      else if String.eqb policy "max" then py_max x rest
      else if String.eqb policy "median" then median arr
      else py_sum arr
  end.

(** *** main *)

Record args : Type := mkargs {
  derived : bool;
  keep_raw : bool;
  tz_offset_hours : Z;
  aggregate_policy : string;
  include_range_totals : bool
}.

(** The loop's variables. *)
Record state : Type := mkstate {
  values_by_date : gmap string (gmap string (list float));
  raw_cols : gset string;
  key_freq : gmap string nat;
  parsed : nat
}.

Definition init_state : state := mkstate ∅ ∅ ∅ 0%nat.

(** [values_by_date[date][metric]] of the two nested [defaultdict]s. *)
Definition observed (vbd : gmap string (gmap string (list float))) (date metric : string)
  : list float :=
  default [] (default ∅ (vbd !! date) !! metric).

(** [values_by_date[date][metric].append(num)] *)
Definition append_value (date metric : string) (num : float) (st : state) : state :=
  let vbd := values_by_date st in
  let by_metric := default ∅ (vbd !! date) in
  mkstate (<[date := <[metric := observed vbd date metric ++ [num]]> by_metric]> vbd)
          (raw_cols st) (key_freq st) (parsed st).

(** [key_freq[kl] += 1; raw_cols.add(kl)] *)
Definition note_key (kl : string) (st : state) : state :=
  mkstate (values_by_date st) ({[kl]} ∪ raw_cols st)
          (<[kl := S (default 0%nat (key_freq st !! kl))]> (key_freq st)) (parsed st).

(** The test of the precedence rule for a lowercased key. *)
Definition bare_suppressed (keyset : gset string) (kl : string) : bool :=
  (String.eqb kl "spend" || String.eqb kl "revenue")
  && (existsb (fun s => bool_decide (s ∈ keyset)) [kl +:+ "_cents"; kl +:+ "_micros"]
      || (String.eqb kl "spend"
          && existsb (fun s => bool_decide (s ∈ keyset)) (elements CENTS_LIKE))).

(** Scaling and base name. *)
Definition scale (kl : string) (num : float) : float * string :=
  if endswith kl "_cents" then (fdiv num (of_Z 100), drop_last 6 kl)
  else if endswith kl "_micros" then (fdiv num (of_Z 1000000), drop_last 7 kl)
  else if bool_decide (kl ∈ CENTS_LIKE) then (fdiv num (of_Z 100), kl)
  else (num, kl).

(** The body of [for k, v in d.items()]. *)
Definition process_field (a : args) (date_iso : string) (keyset : gset string)
           (st : state) (kv : string * json) : res state :=
  let '(k, v) := kv in
  let kl := lower k in
  if bool_decide (kl ∈ DATE_KEYS) || bool_decide (kl ∈ SKIP_KEYS) then Ok st
  else
    let* num := coerce_number v in
    match num with
    | None => Ok st
    | Some num =>
        let st := note_key kl st in
        if bare_suppressed keyset kl then Ok st
        else
          let '(num, base) := scale kl num in
          let std := default base (REMAP !! base) in
          let st := append_value date_iso std num st in
          if keep_raw a && negb (String.eqb base std)
          then Ok (append_value date_iso base num st)
          else Ok st
    end.

(** The value of the first key, in iteration order, that is a date key;
    [None] of Python is [JNull]. *)
Fixpoint find_date_val (d : dict) (ks : list string) : json :=
  match ks with
  | [] => JNull
  | dk :: rest =>
      if bool_decide (lower dk ∈ DATE_KEYS) then default JNull (dict_get d dk)
      else find_date_val d rest
  end.

(** The part of the loop body after the range-total test. *)
Definition accumulate_record (a : args) (st : state) (d : dict) : res state :=
  let date_val := find_date_val d (keys d) in
  let* date_iso := norm_date (tz_offset_hours a) date_val in
  match date_iso with
  | None | Some EmptyString => Ok st
  | Some date_iso => for_each (process_field a date_iso (lower_keys d)) d st
  end.

(** The body of [for d in iter_dicts(data)]. *)
Definition process_record (a : args) (st : state) (d : dict) : res state :=
  let skip_range_totals := negb (include_range_totals a) in
  if skip_range_totals && looks_like_range_total d then Ok st
  else accumulate_record a st d.

(** A file of the input directory after reading and [json.loads].
    [Skipped] is a file that cannot be read, does not start with a brace or
    a bracket, or on which [json.loads] raises; [Loaded data] is a file for
    which [json.loads] returned [data] (see [load] below). *)
Inductive source : Type :=
  | Skipped
  | Loaded (data : json).

(** The body of [for fp in files]. *)
Definition process_file (a : args) (limit : nat) (st : state) (f : source) : res state :=
  match f with
  | Skipped => Ok st
  | Loaded data =>
      let st := mkstate (values_by_date st) (raw_cols st) (key_freq st) (S (parsed st)) in
      for_gen (process_record a) (iter_dicts limit data) st
  end.

Definition harvest (a : args) (limit : nat) (files : list source) : res state :=
  for_each (process_file a limit) files init_state.

(** *** The table *)

Definition standard_order : list string := ["views"; "clicks"; "spend"; "orders"; "revenue"].

Definition in_list (x : string) (l : list string) : bool := existsb (String.eqb x) l.

(** [all_cols]: every metric of every date, and the standard ones. *)
Definition all_cols (vbd : gmap string (gmap string (list float))) : gset string :=
  map_fold (fun _ metrics acc => dom metrics ∪ acc) ∅ vbd ∪ list_to_set standard_order.

Definition other_cols (vbd : gmap string (gmap string (list float))) : list string :=
  sorted String.ltb (filter (fun c => in_list c standard_order = false) (elements (all_cols vbd))).

Definition header (a : args) (vbd : gmap string (gmap string (list float))) : list string :=
  ["date"] ++ standard_order ++ other_cols vbd
  ++ (if derived a then ["ctr"; "cpc"; "cpm"; "order_rate"; "roas"] else []).

(** Numbers by column name, in the order in which they are assigned. *)
Abbreviation row := (list (string * float)).

(** [row.get(k, 0.0)] *)
Fixpoint row_get (r : row) (k : string) : float :=
  match r with
  | [] => fzero
  | (k', x) :: t => if String.eqb k' k then x else row_get t k
  end.

Definition round6 (x : float) : float := round_ndigits x 6.

(** [(num/den) if guard else 0.0] *)
Definition ratio (guard : float) (quotient : res float) : res float :=
  if truthy guard then quotient else Ok fzero.

(** The five derived columns of a row. *)
Definition derived_metrics (r : row) : res row :=
  let v := row_get r "views" in
  let c := row_get r "clicks" in
  let s := row_get r "spend" in
  let o := row_get r "orders" in
  let rv := row_get r "revenue" in
  let* ctr := ratio v (truediv c v) in
  let* cpc := ratio c (truediv s c) in
  let* cpm := ratio v (let* d := truediv v (of_Z 1000) in truediv s d) in
  let* order_rate := ratio c (truediv o c) in
  let* roas := ratio s (truediv rv s) in
  Ok [("ctr", round6 ctr); ("cpc", round6 cpc); ("cpm", round6 cpm);
      ("order_rate", round6 order_rate); ("roas", round6 roas)].

(** The reduced columns of one date. *)
Definition reduced_row (policy : string) (metric_map : gmap string (list float))
           (cols : list string) : row :=
  map (fun k => (k, round6 (reduce_vals (default [] (metric_map !! k)) policy))) cols.

(** A value of the dict [row]: the text of the date, or a number. *)
Inductive cell : Type :=
  | Text (s : string)
  | Num (x : float).

(** The dict [row], in insertion order. *)
Abbreviation csv_row := (list (string * cell)).

(** [row[k] = v]: the value of a key that is there is replaced. *)
Fixpoint row_set (r : csv_row) (k : string) (v : cell) : csv_row :=
  match r with
  | [] => [(k, v)]
  | (k', v') :: t => if String.eqb k' k then (k', v) :: t else (k', v') :: row_set t k v
  end.

(** [row.get(k)] *)
Fixpoint row_lookup (r : csv_row) (k : string) : option cell :=
  match r with
  | [] => None
  | (k', v) :: t => if String.eqb k' k then Some v else row_lookup t k
  end.

(** [for k, x in kvs: row[k] = x] *)
Definition assign (r : csv_row) (kvs : row) : csv_row :=
  fold_left (fun acc kx => row_set acc (fst kx) (Num (snd kx))) kvs r.

(** The numbers that [row] holds: for a key that holds a number or is
    absent, [row.get(k, 0.0)] is [row_get (numbers row) k]. *)
Fixpoint numbers (r : csv_row) : row :=
  match r with
  | [] => []
  | (k, Num x) :: t => (k, x) :: numbers t
  | (_, Text _) :: t => numbers t
  end.

(** The dict [row] of one date, as it stands when the row is written. *)
Definition build_row (a : args) (others : list string) (d : string)
           (metric_map : gmap string (list float)) : res csv_row :=
  let row := [("date", Text d)] in
  let row := assign row (reduced_row (aggregate_policy a) metric_map standard_order) in
  let row := assign row (reduced_row (aggregate_policy a) metric_map others) in
  if derived a then let* dm := derived_metrics (numbers row) in Ok (assign row dm)
  else Ok row.

(** [{k: row.get(k, "") for k in header}], written in the order of the
    header. *)
Definition written (header : list string) (r : csv_row) : list cell :=
  map (fun k => default (Text "") (row_lookup r k)) header.

Fixpoint build_rows (a : args) (vbd : gmap string (gmap string (list float)))
         (dates : list string) : res (list (list cell)) :=
  match dates with
  | [] => Ok []
  | d :: rest =>
      let* r := build_row a (other_cols vbd) d (default ∅ (vbd !! d)) in
      let* rs := build_rows a vbd rest in
      Ok (written (header a vbd) r :: rs)
  end.

(** What a run ends with: an exit status, or the table written to the CSV,
    its header and its rows, each row cell by cell. *)
Inductive outcome : Type :=
  | Exit (status : Z)
  | Wrote (header : list string) (rows : list (list cell)).

Definition main (a : args) (limit : nat) (files : list source) : res outcome :=
  match files with
  | [] => Ok (Exit 2)
  | _ =>
      let* st := harvest a limit files in
      let vbd := values_by_date st in
      if bool_decide (vbd = ∅) then Ok (Exit 3)
      else
        let* rows := build_rows a vbd (sorted String.ltb (elements (dom vbd))) in
        Ok (Wrote (header a vbd) rows)
  end.

(** *** Reading the files *)

(** What a file of the directory holds: [Document data] is the JSON text
    of [data]; [Unusable] is anything else (a file that cannot be read, an
    empty text, a text that is not JSON). *)
Inductive file : Type :=
  | Unusable
  | Document (data : json).

(** The levels of arrays and objects around the innermost value. *)
Fixpoint nesting (obj : json) : nat :=
  match obj with
  | JList l => S (fold_right (fun x acc => Nat.max (nesting x) acc) 0%nat l)
  | JDict d =>
      S (fold_right (fun kv acc => Nat.max (let '(_, v) := kv in nesting v) acc) 0%nat d)
  | _ => 0%nat
  end.

(** [json.loads(txt)] inside its [try], for the text of [data]; [None] is
    an exception, caught with [except Exception].  The parser takes three
    frames for [loads], [decode] and [raw_decode], one for the call of the
    scanner and one for each level of nesting, out of the frames that the
    walker would have at the same place; beyond them it raises a
    RecursionError. *)
Definition json_loads (limit : nat) (data : json) : option json :=
  if (nesting data + 4 <=? limit)%nat then Some data else None.

(** The file loop up to [parsed += 1]: a text that does not start with a
    brace or a bracket, that is, the text of a value that is neither an
    object nor an array, is skipped before the parser sees it. *)
Definition load (limit : nat) (f : file) : source :=
  match f with
  | Unusable => Skipped
  | Document data =>
      match data with
      | JList _ | JDict _ =>
          match json_loads limit data with
          | Some data => Loaded data
          | None => Skipped
          end
      | _ => Skipped
      end
  end.

(** [main], from the files of the directory. *)
Definition main_of_files (a : args) (limit : nat) (files : list file) : res outcome :=
  main a limit (map (load limit) files).

End Harvest.

Import Harvest.
Import Re.

(** * Vocabulary of the properties *)

(** The argparse defaults. *)
Definition default_args : args := mkargs false false 0 "sum" false.

(** Document A of the specification's end-to-end example. *)
Definition doc_A : json :=
  JList [JDict [("date", JStr "2024-03-01"); ("impressions", JInt 100); ("clicks", JInt 10)]].

(** [n] lists around a null: a document of depth [n + 1]. *)
Definition nested_lists (n : nat) : json := Nat.iter n (fun j => JList [j]) JNull.

(** The range-total record of the specification. *)
Definition record_range_total : dict :=
  [("start_date", JStr "2024-03-01"); ("end_date", JStr "2024-03-07");
   ("total_spend", JInt 700)].

(** The range-total record of the specification, with a date of its own. *)
Definition record_range_total_dated : dict :=
  [("date", JStr "2024-03-07"); ("start_date", JStr "2024-03-01");
   ("end_date", JStr "2024-03-07"); ("total_spend", JInt 700)].

(** A record whose first date key holds no date and whose second does. *)
Definition record_two_dates : dict :=
  [("date", JStr "garbage"); ("day", JStr "2024-03-05"); ("clicks", JInt 3)].

(** A range-total record with two daily records nested in it. *)
Definition record_with_rows : dict :=
  [("range", JStr "2024-03"); ("total", JInt 12);
   ("rows", JList [JDict [("date", JStr "2024-03-01"); ("clicks", JInt 5)];
                   JDict [("date", JStr "2024-03-02"); ("clicks", JInt 7)]])].

(** The record of the precedence example, with a date. *)
Definition record_spend : dict :=
  [("date", JStr "2024-03-05"); ("spend_cents", JInt 500); ("spend", JInt 999)].

(** The row of the specification's example. *)
Definition row_example : row :=
  [("views", of_Z 1000); ("clicks", of_Z 20); ("spend", of_Z 50); ("orders", of_Z 2);
   ("revenue", of_Z 40)].

(** The float a decimal literal denotes. *)
Definition decimal (s : string) : float := default S754_nan (PyFloatStr.float_of_string s).

(** ** The classifier *)

(** The names of the per-day containers, as the classifier lists them. *)
Definition DAY_CONTAINER_KEYS : list string :=
  ["days"; "daily"; "by_day"; "series"; "data"; "datapoints"].

(** ** The walk of a document *)

(** [occurs_in d' obj]: the object [d'] is [obj] itself or lies anywhere
    inside it. *)
Inductive occurs_in (d' : dict) : json -> Prop :=
  | occurs_here : occurs_in d' (JDict d')
  | occurs_item (l : list json) (x : json) :
      x ∈ l -> occurs_in d' x -> occurs_in d' (JList l)
  | occurs_value (d : dict) (v : json) :
      v ∈ values d -> occurs_in d' v -> occurs_in d' (JDict d).

(** The number of nested generator frames the walk of [obj] needs. *)
Fixpoint depth (obj : json) : nat :=
  match obj with
  | JList l => S (fold_right (fun x acc => Nat.max (depth x) acc) 0%nat l)
  | JDict d => S (fold_right (fun kv acc => Nat.max (let '(_, v) := kv in depth v) acc) 0%nat d)
  | _ => 1%nat
  end.

(** The state in which the walk of a loaded file starts. *)
Definition count_parsed (st : state) : state :=
  mkstate (values_by_date st) (raw_cols st) (key_freq st) (S (parsed st)).

(** ** Order and zero tests on floats *)

(** [x <= y] on floats. *)
Definition fle : float -> float -> bool := SFleb.

(** A number that is not a zero: finite and non-zero, or infinite. *)
Definition nonzero_num (x : spec_float) : Prop :=
  match x with S754_finite _ _ _ | S754_infinity _ => True | _ => False end.

(** ** Languages of regular expressions *)

(** Every character of [s] satisfies [P]. *)
Fixpoint all_chars (P : ascii -> bool) (s : string) : bool :=
  match s with
  | EmptyString => true
  | String c r => P c && all_chars P r
  end.

(** Some character of [s] satisfies [Q]. *)
Fixpoint has_char (Q : ascii -> bool) (s : string) : bool :=
  match s with
  | EmptyString => false
  | String c r => Q c || has_char Q r
  end.

(** The texts a regular expression accepts. *)
Fixpoint lang (r : re) (u : string) : Prop :=
  match r with
  | Chr p => exists c, u = String c EmptyString /\ p c = true
  | Eps => u = EmptyString
  | Seq a b => exists u1 u2, u = u1 +:+ u2 /\ lang a u1 /\ lang b u2
  | Alt a b => lang a u \/ lang b u
  | Opt a => lang a u \/ u = EmptyString
  | Many1 p => u <> EmptyString /\ all_chars p u = true
  | UpTo _ p => u <> EmptyString /\ all_chars p u = true
  | Group _ a => lang a u
  end.

(** The 256 characters. *)
Definition all_ascii : list ascii := map ascii_of_nat (seq 0 256).

(** [p c] implies [P c] for every character. *)
Definition implies_all (p P : ascii -> bool) : bool :=
  forallb (fun c => implb (p c) (P c)) all_ascii.

(** Every text of [r] is made of [P]-characters. *)
Fixpoint alphabet (P : ascii -> bool) (r : re) : bool :=
  match r with
  | Chr p | Many1 p | UpTo _ p => implies_all p P
  | Eps => true
  | Seq a b | Alt a b => alphabet P a && alphabet P b
  | Opt a | Group _ a => alphabet P a
  end.

(** Every text of [r] has a [Q]-character. *)
Fixpoint needs (Q : ascii -> bool) (r : re) : bool :=
  match r with
  | Chr p | Many1 p | UpTo _ p => implies_all p Q
  | Eps | Opt _ => false
  | Seq a b => needs Q a || needs Q b
  | Alt a b => needs Q a && needs Q b
  | Group _ a => needs Q a
  end.

(** The characters of a pure date: digits, the two separators, a space. *)
Definition date_char (c : ascii) : bool :=
  PyStr.is_digit c || Ascii.eqb c "-"%char || Ascii.eqb c "/"%char || Ascii.eqb c " "%char.

(** The separator of the time of day. *)
Definition is_colon (c : ascii) : bool := Ascii.eqb c ":"%char.

(** ** Calendar and instants *)

(** [P] holds on the [count] integers from [lo] on. *)
Definition range_check (P : Z -> bool) (lo : Z) (count : positive) : bool :=
  snd (Pos.iter (fun '(i, ok) => (i + 1, ok && P i)) (lo, true) count).

(** The month and the day from the day of the year, as at the end of
    [ord2ymd]. *)
Definition month_day (n : Z) (leapyear : bool) : Z * Z :=
  let m := Z.shiftr (n + 50) 5 in
  let preceding :=
    nth (Z.to_nat m) PyDate.DAYS_BEFORE_MONTH 0 + (if (2 <? m) && leapyear then 1 else 0) in
  if n <? preceding then
    let m := m - 1 in
    let preceding :=
      preceding
      - (nth (Z.to_nat m) PyDate.DAYS_IN_MONTH 0 + (if (m =? 2) && leapyear then 1 else 0)) in
    (m, n - preceding + 1)
  else (m, n - preceding + 1).

(** [month_day] inverts the days-before-month table. *)
Definition month_day_ok (leapyear : bool) (n : Z) : bool :=
  let '(m, d) := month_day n leapyear in
  (nth (Z.to_nat m) PyDate.DAYS_BEFORE_MONTH 0
   + (if (2 <? m) && leapyear then 1 else 0) + d =? n + 1).

(** The first format of the list that parses [s], as [strptime] reads it. *)
Fixpoint first_parse (s : string) (fmts : list string) : option PyDate.datetime :=
  match fmts with
  | [] => None
  | fmt :: rest =>
      match Strptime.strptime s fmt with
      | Some dtp => Some dtp
      | None => first_parse s rest
      end
  end.

(** Wall-clock seconds of 1970-01-01T00:00:00. *)
Definition UNIX_EPOCH : Z := 719163 * 86400.

(** The calendar date of the instant [t] moved by [hours] hours, if it is
    within the years 1..9999. *)
Definition shifted_date (t hours : Z) : option string :=
  (fun dt => PyDate.isoformat (PyDate.dt_date dt)) <$> PyDate.of_wall_seconds (t + hours * 3600).

(** ** Documents and outcomes of the loop *)

(** The objects of a document in pre-order: an object, then the objects of
    its values; the objects of the items of an array, in order. *)
Fixpoint all_dicts (obj : json) : list dict :=
  match obj with
  | JDict d => d :: flat_map (fun kv => let '(_, v) := kv in all_dicts v) d
  | JList l => flat_map all_dicts l
  | _ => []
  end.

(** The loop over the walk of one document. *)
Definition walk_document (a : args) (limit : nat) (st : state) (x : json) : res state :=
  for_gen (process_record a) (iter_dicts limit x) st.

(** Two outcomes of the loop agree on the accumulator. *)
Definition same_values (r1 r2 : res state) : Prop :=
  match r1, r2 with
  | Ok s1, Ok s2 => values_by_date s1 = values_by_date s2
  | Raise e1, Raise e2 => e1 = e2
  | _, _ => False
  end.

(** ** Dates as texts *)

(** A text of the form dddd-dd-dd. *)
Definition is_iso_date_text (r : string) : bool :=
  match list_ascii_of_string r with
  | [y1; y2; y3; y4; h1; m1; m2; h2; d1; d2] =>
      PyStr.is_digit y1 && PyStr.is_digit y2 && PyStr.is_digit y3 && PyStr.is_digit y4
      && Ascii.eqb h1 "-" && PyStr.is_digit m1 && PyStr.is_digit m2
      && Ascii.eqb h2 "-" && PyStr.is_digit d1 && PyStr.is_digit d2
  | _ => false
  end.

(** ** The table of observations *)

(** [vbd'] keeps every observation of [vbd], in its place: each list of
    [vbd] is the beginning of the list of [vbd'] under the same date and
    metric. *)
Definition extends (vbd vbd' : gmap string (gmap string (list float))) : Prop :=
  forall date metric, observed vbd date metric `prefix_of` observed vbd' date metric.

(** The keys of the table are what the loop can have put there: dates of
    the form dddd-dd-dd, lowercase metric names, and no date or metric
    without an observation. *)
Definition well_keyed (vbd : gmap string (gmap string (list float))) : Prop :=
  forall date ms, vbd !! date = Some ms ->
    is_iso_date_text date = true
    /\ ms <> ∅
    /\ forall m l, ms !! m = Some l -> PyStr.lower m = m /\ l <> [].

(** What one record may change in the state, when its date is [date]. *)
Definition record_frame (date : option string) (st st' : state) : Prop :=
  parsed st' = parsed st
  /\ raw_cols st ⊆ raw_cols st'
  /\ extends (values_by_date st) (values_by_date st')
  /\ forall date', Some date' <> date ->
       values_by_date st' !! date' = values_by_date st !! date'.

(** ** The written table *)

(** [x < y] on texts, as [sorted] compares them. *)
Definition str_lt (x y : string) : Prop := String.ltb x y = true.

(** The names of the derived columns. *)
Definition DERIVED_COLS : list string := ["ctr"; "cpc"; "cpm"; "order_rate"; "roas"].

(** What the table is to show in the row of date [d] under column [k]: a
    derived ratio of the five standard numbers of the date when the derived
    columns are asked for and [k] names one; else the rounded reduction of
    what was observed under [d] and [k] when [k] is a metric column; else
    the date. *)
Definition shown (a : args) (vbd : gmap string (gmap string (list float)))
           (d k : string) : cell :=
  let policy := aggregate_policy a in
  if derived a && in_list k DERIVED_COLS then
    match derived_metrics (reduced_row policy (default ∅ (vbd !! d)) standard_order) with
    | Ok dm => Num (row_get dm k)
    | Raise _ => Text ""
    end
  else if in_list k (standard_order ++ other_cols vbd) then
    Num (round6 (reduce_vals (observed vbd d k) policy))
  else Text d.

(** A file that the loop does not skip. *)
Definition is_loaded (f : source) : bool :=
  match f with
  | Loaded _ => true
  | Skipped => false
  end.

(** ** Floats that are numbers *)

(** A float that is a number. *)
Definition not_nan (x : float) : Prop := x <> S754_nan.

(** [x <= y] holds. *)
Definition fle_holds (x y : float) : Prop := fle x y = true.

(** ** Numbers written as text *)

(** A digit or a comma. *)
Definition digit_or_comma (c : ascii) : bool := PyStr.is_digit c || Ascii.eqb c ",".

(** * Properties *)

(** ** The model on concrete inputs *)

Example strptime_z :
  Strptime.strptime "2024-03-05T23:30:00Z" "%Y-%m-%dT%H:%M:%S%z"
  = Some (PyDate.mkdatetime (PyDate.mkdate 2024 3 5) 23 30 0).
Proof. vm_compute. reflexivity. Qed.

Example strptime_off :
  Strptime.strptime "2024-3-5t1:02:03-05:30" "%Y-%m-%dT%H:%M:%S%z"
  = Some (PyDate.mkdatetime (PyDate.mkdate 2024 3 5) 1 2 3).
Proof. vm_compute. reflexivity. Qed.

Example strptime_bad :
  Strptime.strptime "2024-02-30" "%Y-%m-%d" = None
  /\ Strptime.strptime "2024-02-29" "%Y-%m-%d" = Some (PyDate.mkdatetime (PyDate.mkdate 2024 2 29) 0 0 0)
  /\ Strptime.strptime "03/05/2024" "%m/%d/%Y" = Some (PyDate.mkdatetime (PyDate.mkdate 2024 3 5) 0 0 0)
  /\ Strptime.strptime "2024-03-05 10:00:00" "%Y-%m-%d %H:%M:%S" = Some (PyDate.mkdatetime (PyDate.mkdate 2024 3 5) 10 0 0)
  /\ Strptime.strptime "2024-03-05T10:00:00.123Z" "%Y-%m-%dT%H:%M:%S.%fZ" = Some (PyDate.mkdatetime (PyDate.mkdate 2024 3 5) 10 0 0)
  /\ Strptime.strptime "2024-03-05T10:00:00+05:3015" "%Y-%m-%dT%H:%M:%S%z" = None
  /\ Strptime.strptime "2024-03-05T10:00:00+0530:15" "%Y-%m-%dT%H:%M:%S%z" = None
  /\ Strptime.strptime "2024-03-05T10:00:00+05:30:15.5" "%Y-%m-%dT%H:%M:%S%z" = Some (PyDate.mkdatetime (PyDate.mkdate 2024 3 5) 10 0 0)
  /\ Strptime.strptime "2024-03-05T10:00:00+24:00" "%Y-%m-%dT%H:%M:%S%z" = None
  /\ PyDate.isoformat (PyDate.ord2ymd (PyDate.ymd2ord 2024 2 29)) = "2024-02-29"
  /\ (PyDate.isoformat ∘ PyDate.dt_date) <$> (PyDate.fromtimestamp_utc 1709681400) = Some "2024-03-05"
  /\ (PyDate.isoformat ∘ PyDate.dt_date) <$> (PyDate.fromtimestamp_utc 0) = Some "1970-01-01"
  /\ (PyDate.isoformat ∘ PyDate.dt_date) <$> (PyDate.fromtimestamp_utc 253402300799) = Some "9999-12-31"
  /\ PyDate.fromtimestamp_utc 253402300800 = None
  /\ (PyDate.isoformat ∘ PyDate.dt_date) <$> (PyDate.fromtimestamp_utc (-62135596800)) = Some "0001-01-01"
  /\ PyDate.fromtimestamp_utc (-62135596801) = None.
Proof. vm_compute. repeat split. Qed.

Example float_of_string_ex :
  PyFloatStr.float_of_string "1,234.5" = None
  /\ PyFloatStr.float_of_string " 1_234.5e-1 " = Some (fdiv (of_Z 2469) (of_Z 20))
  /\ PyFloatStr.float_of_string "-.5" = Some (fdiv (of_Z (-1)) (of_Z 2))
  /\ PyFloatStr.float_of_string "5." = Some (of_Z 5)
  /\ PyFloatStr.float_of_string "0.1" = Some (S754_finite false 7205759403792794 (-56))
  /\ PyFloatStr.float_of_string "1e400" = Some (S754_infinity false)
  /\ PyFloatStr.float_of_string "-Infinity" = Some (S754_infinity true)
  /\ PyFloatStr.float_of_string "1e" = None
  /\ PyFloatStr.float_of_string "." = None
  /\ PyFloatStr.float_of_string "1__0" = None
  /\ PyFloatStr.float_of_string "NaN" = Some S754_nan.
Proof. vm_compute. repeat split. Qed.

Example norm_date_examples :
  Harvest.norm_date 2 (JStr "2024-03-05T23:30:00Z") = Ok (Some "2024-03-06")
  /\ Harvest.norm_date 2 (JStr "2024-03-05") = Ok (Some "2024-03-05")
  /\ Harvest.norm_date 0 (JInt 1709632800) = Ok (Some "2024-03-05")
  /\ Harvest.norm_date 0 (JInt 1709632800000) = Ok (Some "2024-03-05")
  /\ Harvest.norm_date 0 (JStr "2024-03-05T10:00:00Z") = Ok (Some "2024-03-05")
  /\ Harvest.norm_date (-4) (JStr " 3/5/2024 ") = Ok (Some "2024-03-05")
  /\ Harvest.norm_date (-4) (JStr "week of 2024-02-30!") = Ok (Some "2024-02-30")
  /\ Harvest.norm_date 2 (JStr "9999-12-31T23:30:00Z") = Ok None
  /\ Harvest.norm_date 2 (JFloat S754_nan) = Raise ValueError
  /\ Harvest.norm_date 0 (JBool true) = Ok (Some "1970-01-01")
  /\ Harvest.looks_like_range_total
       [("start_date", JStr "2024-03-01"); ("end_date", JStr "2024-03-07");
        ("total_spend", JInt 700)] = true
  /\ Harvest.looks_like_range_total [("Range", JNull); ("Days", JList [])] = false.
Proof. vm_compute. repeat split. Qed.

(** ** Membership in the constant sets, by evaluation *)

Lemma not_in_by_compute (x : string) (X : gset string) :
  bool_decide (x ∈ X) = false -> x ∉ X.
Proof. apply bool_decide_eq_false_1. Qed.

Lemma in_by_compute (x : string) (X : gset string) :
  bool_decide (x ∈ X) = true -> x ∈ X.
Proof. apply bool_decide_eq_true_1. Qed.

(** ** The range-total classifier *)

Lemma elem_of_lower_keys (d : dict) (x : string) :
  x ∈ lower_keys d <-> exists k, k ∈ keys d /\ PyStr.lower k = x.
Proof.
  unfold lower_keys. rewrite elem_of_list_to_set, list_elem_of_fmap.
  split; intros (k & H1 & H2); exists k; auto.
Qed.

Lemma looks_like_range_total_spec (d : dict) :
  looks_like_range_total d = true <->
  (exists k, k ∈ keys d /\ PyStr.lower k ∈ RANGE_HINT_KEYS)
  /\ (forall k, k ∈ keys d -> PyStr.lower k ∉ DAY_CONTAINER_KEYS).
Proof.
  unfold looks_like_range_total.
  fold DAY_CONTAINER_KEYS.
  case_bool_decide as Hint.
  - split; [discriminate|].
    intros [(k & Hk & Hr) _]. exfalso.
    assert (PyStr.lower k ∈ lower_keys d ∩ RANGE_HINT_KEYS) as Hin.
    { apply elem_of_intersection. split; [|exact Hr].
      apply elem_of_lower_keys. eauto. }
    rewrite Hint in Hin. set_solver.
  - assert (exists k, k ∈ keys d /\ PyStr.lower k ∈ RANGE_HINT_KEYS) as Hex.
    { apply set_choose_L in Hint as [x Hx].
      apply elem_of_intersection in Hx as [Hx1 Hx2].
      apply elem_of_lower_keys in Hx1 as (k & Hk & <-). eauto. }
    destruct (existsb _ DAY_CONTAINER_KEYS) eqn:Hany.
    + split; [discriminate|]. intros [_ Hno]. exfalso.
      apply existsb_exists in Hany as (c & Hc & Hdec).
      apply bool_decide_eq_true in Hdec.
      apply elem_of_lower_keys in Hdec as (k & Hk & <-).
      apply (Hno k Hk). apply list_elem_of_In. exact Hc.
    + split; [|reflexivity]. intros _. split; [exact Hex|].
      intros k Hk Hc.
      assert (existsb (fun k0 => bool_decide (k0 ∈ lower_keys d)) DAY_CONTAINER_KEYS = true) as Habs.
      { apply existsb_exists. exists (PyStr.lower k). split.
        - apply list_elem_of_In. exact Hc.
        - apply bool_decide_eq_true. apply elem_of_lower_keys. eauto. }
      congruence.
Qed.

(** ** Date resolution of a record *)

Lemma dict_get_app_fresh (pre post : dict) (k : string) (v : json) :
  k ∉ keys pre -> dict_get (pre ++ (k, v) :: post) k = Some v.
Proof.
  induction pre as [|[k' v'] pre IH]; simpl; intros Hk.
  - rewrite String.eqb_refl. reflexivity.
  - destruct (String.eqb k' k) eqn:E.
    + apply String.eqb_eq in E. subst. exfalso. apply Hk. left.
    + apply IH. intros Hin. apply Hk. right. exact Hin.
Qed.

Lemma find_date_val_first (d pre post : dict) (k : string) (v : json) :
  (forall k', k' ∈ keys pre -> PyStr.lower k' ∉ DATE_KEYS) ->
  PyStr.lower k ∈ DATE_KEYS ->
  find_date_val d (keys (pre ++ (k, v) :: post)) = default JNull (dict_get d k).
Proof.
  intros Hpre Hk. induction pre as [|[k' v'] pre IH]; simpl.
  - rewrite bool_decide_eq_true_2 by exact Hk. reflexivity.
  - rewrite bool_decide_eq_false_2 by (apply Hpre; left).
    apply IH. intros k'' Hin. apply Hpre. right. exact Hin.
Qed.

(** C8. The date of a record is read from the first key, in iteration
    order, whose lowercased name is a date key; when that value does not
    normalise, the record is dropped whatever the later fields hold. *)
Theorem first_date_key_decides (a : args) (st : state) (pre post : dict)
        (k : string) (v : json) :
  (forall k', k' ∈ keys pre -> PyStr.lower k' ∉ DATE_KEYS) ->
  PyStr.lower k ∈ DATE_KEYS ->
  let d := pre ++ (k, v) :: post in
  find_date_val d (keys d) = v
  /\ (norm_date (tz_offset_hours a) v = Ok None ->
      accumulate_record a st d = Ok st /\ process_record a st d = Ok st).
Proof.
  intros Hpre Hk d.
  assert (Hv : find_date_val d (keys d) = v).
  { unfold d. rewrite (find_date_val_first _ pre post k v Hpre Hk).
    rewrite dict_get_app_fresh; [reflexivity|].
    intros Hin. exact (Hpre k Hin Hk). }
  split; [exact Hv|].
  intros Hnone.
  assert (Hacc : accumulate_record a st d = Ok st).
  { unfold accumulate_record. rewrite Hv, Hnone. reflexivity. }
  split; [exact Hacc|].
  unfold process_record. rewrite Hacc.
  destruct (negb (include_range_totals a) && looks_like_range_total d); reflexivity.
Qed.

Lemma first_date_key_decides_witness :
  find_date_val record_two_dates (keys record_two_dates) = JStr "garbage"
  /\ process_record default_args init_state record_two_dates = Ok init_state.
Proof.
  destruct (first_date_key_decides default_args init_state []
              [("day", JStr "2024-03-05"); ("clicks", JInt 3)] "date" (JStr "garbage"))
    as [H1 H2].
  - intros k' Hk'. inversion Hk'.
  - apply in_by_compute. vm_compute. reflexivity.
  - split; [exact H1|]. apply H2. vm_compute. reflexivity.
Defined.

(** ** The tree walker and the file loop *)

Lemma for_gen_yield {A S : Type} (body : S -> A -> res S) (x : A) (g : gen A) (st : S) :
  for_gen body (gen_yield x g) st = let* st' := body st x in for_gen body g st'.
Proof.
  unfold for_gen, gen_yield. simpl. destruct (body st x); reflexivity.
Qed.

Lemma yield_from_each_done {A B : Type} (f : B -> gen A) (l : list B) :
  snd (yield_from_each f l) = None ->
  forall x, x ∈ l -> snd (f x) = None /\ (forall y, y ∈ fst (f x) -> y ∈ fst (yield_from_each f l)).
Proof.
  induction l as [|b l IH]; simpl; intros Hdone x Hx.
  - inversion Hx.
  - unfold gen_then in *. destruct (snd (f b)) eqn:Hb.
    + rewrite Hb in Hdone. discriminate.
    + simpl in Hdone. apply elem_of_cons in Hx as [->|Hx].
      * split; [exact Hb|]. intros y Hy. simpl. apply elem_of_app. left. exact Hy.
      * destruct (IH Hdone x Hx) as [H1 H2]. split; [exact H1|].
        intros y Hy. simpl. apply elem_of_app. right. apply H2. exact Hy.
Qed.

Lemma iter_dicts_complete (d' : dict) (obj : json) :
  occurs_in d' obj ->
  forall limit, snd (iter_dicts limit obj) = None -> d' ∈ fst (iter_dicts limit obj).
Proof.
  induction 1 as [|l x Hx Hocc IH|d v Hv Hocc IH]; intros [|limit] Hdone;
    try discriminate Hdone; simpl in *.
  - left.
  - destruct (yield_from_each_done _ _ Hdone x Hx) as [H1 H2].
    apply H2. apply IH. exact H1.
  - right. destruct (yield_from_each_done _ _ Hdone v Hv) as [H1 H2].
    apply H2. apply IH. exact H1.
Qed.

(** C9. Skipping a record that looks like a range total skips that object
    only: the loop goes on over the walk of its values, which yields every
    object nested in it, and each of them meets the same loop body as the
    values of a record that is not skipped. *)
Theorem suppressed_parent_keeps_nested_records (a : args) (limit : nat) (d : dict)
        (st : state) :
  include_range_totals a = false ->
  looks_like_range_total d = true ->
  for_gen (process_record a) (iter_dicts (S limit) (JDict d)) st
  = for_gen (process_record a) (yield_from_each (iter_dicts limit) (values d)) st
  /\ (forall d' v,
        v ∈ values d -> occurs_in d' v ->
        snd (iter_dicts (S limit) (JDict d)) = None ->
        d' ∈ fst (yield_from_each (iter_dicts limit) (values d)))
  /\ (forall (b : args) (d0 : dict),
        for_gen (process_record b) (iter_dicts (S limit) (JDict d0)) st
        = let* st' := process_record b st d0 in
          for_gen (process_record b) (yield_from_each (iter_dicts limit) (values d0)) st').
Proof.
  intros Hinc Hlooks. split; [|split].
  - simpl iter_dicts. rewrite for_gen_yield.
    unfold process_record at 1. rewrite Hinc, Hlooks. reflexivity.
  - intros d' v Hv Hocc Hdone. simpl in Hdone.
    destruct (yield_from_each_done _ _ Hdone v Hv) as [H1 H2].
    apply H2. apply iter_dicts_complete; assumption.
  - intros b d0. simpl iter_dicts. apply for_gen_yield.
Qed.

Lemma suppressed_parent_keeps_nested_records_witness :
  for_gen (process_record default_args) (iter_dicts 5 (JDict record_with_rows)) init_state
  = for_gen (process_record default_args)
            (yield_from_each (iter_dicts 4) (values record_with_rows)) init_state.
Proof.
  apply (proj1 (suppressed_parent_keeps_nested_records default_args 4 record_with_rows
                  init_state ltac:(reflexivity) ltac:(vm_compute; reflexivity))).
Defined.

Lemma yield_from_each_snd_None {A B : Type} (f : B -> gen A) (l : list B) :
  snd (yield_from_each f l) = None <-> forall x, x ∈ l -> snd (f x) = None.
Proof.
  split.
  - intros H x Hx. apply (yield_from_each_done f l H x Hx).
  - induction l as [|b l IH]; simpl; intros H; [reflexivity|].
    unfold gen_then. rewrite (H b) by left. simpl. apply IH.
    intros x Hx. apply H. right. exact Hx.
Qed.

Lemma max_fold_le {B : Type} (g : B -> nat) (l : list B) (n : nat) :
  (fold_right (fun x acc => Nat.max (g x) acc) 0 l <= n)%nat <->
  forall x, x ∈ l -> (g x <= n)%nat.
Proof.
  induction l as [|b l IH]; simpl.
  - split; [intros _ x Hx; inversion Hx | intros _; lia].
  - rewrite Nat.max_lub_iff, IH. split.
    + intros [H1 H2] x Hx. apply elem_of_cons in Hx as [->|Hx]; auto.
    + intros H. split; [apply H; left | intros x Hx; apply H; right; exact Hx].
Qed.

(** The walk ends normally exactly when the recursion limit covers the
    depth of the document. *)
Lemma iter_dicts_done_iff (limit : nat) :
  forall obj, snd (iter_dicts limit obj) = None <-> (depth obj <= limit)%nat.
Proof.
  induction limit as [|limit IH]; intros obj.
  - simpl. split; [discriminate|]. destruct obj; simpl; lia.
  - destruct obj as [| | | | |l|d]; simpl; try (split; [lia|reflexivity]).
    + rewrite yield_from_each_snd_None, <- Nat.succ_le_mono, max_fold_le.
      split; intros H x Hx; apply IH, H, Hx.
    + rewrite yield_from_each_snd_None, <- Nat.succ_le_mono.
      rewrite (max_fold_le (fun kv : string * json => let '(_, v) := kv in depth v)).
      split.
      * intros H [k v] Hkv. apply IH, H. apply list_elem_of_fmap. exists (k, v). auto.
      * intros H x Hx. apply list_elem_of_fmap in Hx as ([k v] & -> & Hkv).
        apply IH. exact (H (k, v) Hkv).
Qed.

Lemma iter_dicts_raises (limit : nat) (obj : json) :
  snd (iter_dicts limit obj) = Some RecursionError <-> (limit < depth obj)%nat.
Proof.
  assert (Hcases : forall n o, snd (iter_dicts n o) = None
                               \/ snd (iter_dicts n o) = Some RecursionError).
  { induction n as [|n IHn]; intros o; [right; reflexivity|].
    assert (Hl : forall (l : list json),
               snd (yield_from_each (iter_dicts n) l) = None
               \/ snd (yield_from_each (iter_dicts n) l) = Some RecursionError).
    { induction l as [|x l IHl]; simpl; [left; reflexivity|].
      unfold gen_then. destruct (IHn x) as [Hx|Hx]; rewrite Hx; simpl; auto. }
    destruct o; simpl; auto. }
  pose proof (iter_dicts_done_iff limit obj) as Hiff.
  destruct (Hcases limit obj) as [H|H]; rewrite H.
  - split; [discriminate|]. intros Hlt. apply Hiff in H. lia.
  - split; [intros _|reflexivity].
    destruct (Nat.le_gt_cases (depth obj) limit) as [Hle|Hgt]; [|exact Hgt].
    apply Hiff in Hle. congruence.
Qed.

Lemma for_each_app {A S : Type} (body : S -> A -> res S) (l1 l2 : list A) (st : S) :
  for_each body (l1 ++ l2) st = let* st' := for_each body l1 st in for_each body l2 st'.
Proof.
  revert st. induction l1 as [|x l1 IH]; intros st; simpl; [reflexivity|].
  destruct (body st x); simpl; [apply IH|reflexivity].
Qed.

(** ** The reduction policies *)

(** A strictly positive float: a positive finite number or plus infinity. *)
Lemma flt_zero_pos (x : float) :
  flt fzero x = true <->
  (exists m e, x = S754_finite false m e) \/ x = S754_infinity false.
Proof.
  destruct x as [s|[]| |[] m e]; simpl; split; intros H;
    try discriminate H; try reflexivity; eauto;
    destruct H as [(m' & e' & H)|H]; discriminate H.
Qed.

Lemma flt_false_fle (x y : float) :
  flt fzero x = true -> flt fzero y = true -> flt x y = false -> fle y x = true.
Proof.
  intros Hx Hy. apply flt_zero_pos in Hx, Hy.
  destruct Hx as [(m1 & e1 & ->)| ->], Hy as [(m2 & e2 & ->)| ->];
    unfold flt, fle, SFltb, SFleb; simpl; try reflexivity; try discriminate.
  rewrite (Z.compare_antisym e1 e2).
  destruct (e1 ?= e2) eqn:E; simpl; try reflexivity; try discriminate.
  rewrite !Pos.compare_cont_spec. simpl. rewrite (Pos.compare_antisym m1 m2).
  destruct (m1 ?= m2)%positive; simpl; try reflexivity; discriminate.
Qed.

Lemma flt_fle (x y : float) : flt x y = true -> fle x y = true.
Proof.
  unfold flt, fle, SFltb, SFleb. destruct (SFcompare x y) as [[]|]; auto.
Qed.

Lemma fle_refl_pos (x : float) : flt fzero x = true -> fle x x = true.
Proof.
  intros Hx. apply flt_zero_pos in Hx. destruct Hx as [(m & e & ->)| ->];
    unfold fle, SFleb; simpl; [|reflexivity].
  rewrite Z.compare_refl, Pos.compare_cont_spec, Pos.compare_refl. reflexivity.
Qed.

Lemma fle_trans_pos (x y z : float) :
  flt fzero x = true -> flt fzero y = true -> flt fzero z = true ->
  fle x y = true -> fle y z = true -> fle x z = true.
Proof.
  intros Hx Hy Hz. apply flt_zero_pos in Hx, Hy, Hz.
  destruct Hx as [(m1 & e1 & ->)| ->], Hy as [(m2 & e2 & ->)| ->],
           Hz as [(m3 & e3 & ->)| ->];
    unfold fle, SFleb; simpl; try reflexivity; try discriminate.
  rewrite !Pos.compare_cont_spec. simpl.
  destruct (Z.compare_spec e1 e2), (Z.compare_spec e2 e3), (Z.compare_spec e1 e3);
    try lia; try reflexivity; try discriminate; auto.
  destruct (Pos.compare_spec m1 m2), (Pos.compare_spec m2 m3), (Pos.compare_spec m1 m3);
    try lia; try reflexivity; try discriminate; auto.
Qed.

Lemma py_min_least (rest : list float) :
  forall x, flt fzero x = true -> (forall v, v ∈ rest -> flt fzero v = true) ->
  py_min x rest ∈ x :: rest
  /\ forall v, v ∈ x :: rest -> fle (py_min x rest) v = true.
Proof.
  induction rest as [|y rest IH]; intros x Hx Hrest.
  - simpl. split; [left|]. intros v Hv. apply list_elem_of_singleton in Hv as ->.
    apply fle_refl_pos. exact Hx.
  - assert (Hy : flt fzero y = true) by (apply Hrest; left).
    assert (Hrest' : forall v, v ∈ rest -> flt fzero v = true)
      by (intros v Hv; apply Hrest; right; exact Hv).
    unfold py_min. simpl fold_left.
    destruct (flt y x) eqn:E.
    + destruct (IH y Hy Hrest') as [Hin Hle]. fold (py_min y rest). split.
      * right. exact Hin.
      * intros v Hv. apply elem_of_cons in Hv as [->|Hv]; [|apply Hle, Hv].
        assert (Hm : flt fzero (py_min y rest) = true).
        { apply elem_of_cons in Hin as [Hin|Hin]; [rewrite Hin|]; auto. }
        apply fle_trans_pos with y; auto. apply Hle. left. apply flt_fle. exact E.
    + destruct (IH x Hx Hrest') as [Hin Hle]. fold (py_min x rest). split.
      * apply elem_of_cons in Hin as [Hin|Hin]; [rewrite Hin; left|right; right; exact Hin].
      * intros v Hv. apply elem_of_cons in Hv as [->|Hv].
        { apply Hle. left. }
        apply elem_of_cons in Hv as [->|Hv].
        { assert (Hm : flt fzero (py_min x rest) = true).
          { apply elem_of_cons in Hin as [Hin|Hin]; [rewrite Hin|]; auto. }
          apply fle_trans_pos with x; auto. apply Hle. left.
          apply flt_false_fle; auto. }
        apply Hle. right. exact Hv.
Qed.

(** C4. Under "min-nonzero" the reduction returns the smallest strictly
    positive value of the sequence, and 0.0 when no value is strictly
    positive; [120.0, 4.0, 6.0] reduces to 4.0. *)
Theorem min_nonzero_smallest_positive (arr : list float) :
  ((exists v, v ∈ arr /\ flt fzero v = true) ->
     reduce_vals arr "min-nonzero" ∈ arr
     /\ flt fzero (reduce_vals arr "min-nonzero") = true
     /\ (forall v, v ∈ arr -> flt fzero v = true ->
           fle (reduce_vals arr "min-nonzero") v = true))
  /\ ((forall v, v ∈ arr -> flt fzero v = false) ->
        reduce_vals arr "min-nonzero" = fzero)
  /\ reduce_vals [of_Z 120; of_Z 4; of_Z 6] "min-nonzero" = of_Z 4.
Proof.
  assert (Hred : reduce_vals arr "min-nonzero"
                 = match filter (fun v => flt fzero v = true) arr with
                   | [] => fzero
                   | p :: pos => py_min p pos
                   end).
  { destruct arr as [|x rest]; reflexivity. }
  rewrite Hred. clear Hred.
  split; [|split].
  - intros (v0 & Hv0 & Hpos0).
    destruct (filter (fun v => flt fzero v = true) arr) as [|p pos] eqn:Ef.
    + exfalso. exact (filter_nil_not_elem_of (fun v => flt fzero v = true) arr v0 Ef Hpos0 Hv0).
    + assert (Hall : forall v, v ∈ p :: pos <-> flt fzero v = true /\ v ∈ arr).
      { intros v. rewrite <- Ef. exact (list_elem_of_filter (fun v => flt fzero v = true) arr v). }
      destruct (py_min_least pos p) as [Hin Hle].
      { apply Hall. left. }
      { intros v Hv. apply Hall. right. exact Hv. }
      apply Hall in Hin as [Hp Hin]. split; [exact Hin|]. split; [exact Hp|].
      intros v Hv Hvpos. apply Hle. apply Hall. auto.
  - intros Hnone.
    destruct (filter (fun v => flt fzero v = true) arr) as [|p pos] eqn:Ef; [reflexivity|].
    exfalso.
    assert (Hp : p ∈ filter (fun v => flt fzero v = true) arr) by (rewrite Ef; left).
    apply (list_elem_of_filter (fun v => flt fzero v = true)) in Hp as [Hp Hin]. rewrite (Hnone p Hin) in Hp. discriminate.
  - vm_compute. reflexivity.
Qed.

Lemma min_nonzero_smallest_positive_witness :
  reduce_vals [of_Z 120; of_Z 4; of_Z 6] "min-nonzero" ∈ [of_Z 120; of_Z 4; of_Z 6]
  /\ reduce_vals [of_Z 0; of_Z (-1)] "min-nonzero" = fzero.
Proof.
  split.
  - apply (proj1 (min_nonzero_smallest_positive [of_Z 120; of_Z 4; of_Z 6])).
    exists (of_Z 4). split; [right; left|reflexivity].
  - apply (proj1 (proj2 (min_nonzero_smallest_positive [of_Z 0; of_Z (-1)]))).
    intros v Hv. repeat (apply elem_of_cons in Hv as [->|Hv]); [reflexivity|reflexivity|inversion Hv].
Defined.

(** C6, as stated, fails: "min-nonzero" sends the single value -3.0 to 0.0. *)
Lemma single_value_not_always_kept :
  ~ (forall (x : float) (policy : string),
        policy ∈ ["sum"; "min-nonzero"; "min"; "max"; "median"] ->
        reduce_vals [x] policy = x).
Proof.
  intros H. specialize (H (of_Z (-3)) "min-nonzero").
  assert (Hin : "min-nonzero" ∈ ["sum"; "min-nonzero"; "min"; "max"; "median"])
    by (right; left).
  specialize (H Hin). vm_compute in H. discriminate H.
Qed.

(** C6, as the code has it.  On a single value [x], "min", "max" and
    "median" return [x]; "sum" returns [0 + x], which is [x] except that a
    negative zero comes out as positive zero; "min-nonzero" returns [x]
    when [x > 0] and 0.0 otherwise.  In particular every policy sends
    [5.0] to 5.0. *)
Theorem single_value_reduction (x : float) (policy : string) :
  policy ∈ ["sum"; "min-nonzero"; "min"; "max"; "median"] ->
  reduce_vals [x] policy
  = (if String.eqb policy "min-nonzero" then (if flt fzero x then x else fzero)
     else if String.eqb policy "sum"
          then match x with S754_zero true => S754_zero false | _ => x end
          else x)
  /\ reduce_vals [of_Z 5] policy = of_Z 5.
Proof.
  intros Hin.
  repeat (apply elem_of_cons in Hin as [->|Hin]); [ | | | | | inversion Hin].
  - split; [|vm_compute; reflexivity].
    destruct x as [[]|[]| |s m e]; reflexivity.
  - split; [|vm_compute; reflexivity].
    unfold reduce_vals. simpl String.eqb. cbv iota.
    destruct (flt fzero x) eqn:E.
    + rewrite filter_cons_True by exact E. reflexivity.
    + rewrite filter_cons_False by (rewrite E; discriminate). reflexivity.
  - split; [reflexivity|vm_compute; reflexivity].
  - split; [reflexivity|vm_compute; reflexivity].
  - split; [reflexivity|vm_compute; reflexivity].
Qed.

Lemma single_value_reduction_witness :
  reduce_vals [of_Z (-3)] "min-nonzero" = fzero
  /\ reduce_vals [of_Z 5] "min-nonzero" = of_Z 5.
Proof.
  assert (Hin : "min-nonzero" ∈ ["sum"; "min-nonzero"; "min"; "max"; "median"])
    by (right; left).
  destruct (single_value_reduction (of_Z (-3)) "min-nonzero" Hin) as [H1 H2].
  split; [exact H1|exact H2].
Defined.

(** ** The per-field step *)

Lemma observed_append_same (date metric : string) (x : float) (st : state) :
  observed (values_by_date (append_value date metric x st)) date metric
  = observed (values_by_date st) date metric ++ [x].
Proof.
  unfold append_value, observed at 1. simpl values_by_date.
  rewrite lookup_insert_eq. simpl. rewrite lookup_insert_eq. reflexivity.
Qed.

Lemma observed_append_other (date metric date' metric' : string) (x : float) (st : state) :
  (date', metric') <> (date, metric) ->
  observed (values_by_date (append_value date metric x st)) date' metric'
  = observed (values_by_date st) date' metric'.
Proof.
  intros Hne. unfold append_value, observed at 1. simpl values_by_date.
  destruct (decide (date = date')) as [<-|Hd].
  - rewrite lookup_insert_eq. simpl.
    rewrite lookup_insert_ne by congruence. reflexivity.
  - rewrite lookup_insert_ne by exact Hd. reflexivity.
Qed.

(** What the loop body does with a field that passes every filter. *)
Lemma process_field_metric (a : args) (date_iso : string) (keyset : gset string)
      (st : state) (k : string) (v : json) (num : float) :
  PyStr.lower k ∉ DATE_KEYS -> PyStr.lower k ∉ SKIP_KEYS ->
  coerce_number v = Ok (Some num) ->
  bare_suppressed keyset (PyStr.lower k) = false ->
  process_field a date_iso keyset st (k, v)
  = let '(num', base) := scale (PyStr.lower k) num in
    let std := default base (REMAP !! base) in
    let st1 := append_value date_iso std num' (note_key (PyStr.lower k) st) in
    Ok (if keep_raw a && negb (String.eqb base std)
        then append_value date_iso base num' st1 else st1).
Proof.
  intros Hd Hs Hc Hb. unfold process_field.
  rewrite (bool_decide_eq_false_2 _ Hd), (bool_decide_eq_false_2 _ Hs).
  cbn [orb]. rewrite Hc. cbn [rbind]. rewrite Hb.
  destruct (scale (PyStr.lower k) num) as [num' base].
  destruct (keep_raw a && negb (String.eqb base (default base (REMAP !! base))));
    reflexivity.
Qed.

Lemma process_field_bare (a : args) (date_iso : string) (keyset : gset string)
      (st : state) (k : string) (v : json) :
  PyStr.lower k ∉ DATE_KEYS -> PyStr.lower k ∉ SKIP_KEYS ->
  bare_suppressed keyset (PyStr.lower k) = true ->
  process_field a date_iso keyset st (k, v)
  = let* num := coerce_number v in
    Ok (match num with Some _ => note_key (PyStr.lower k) st | None => st end).
Proof.
  intros Hd Hs Hb. unfold process_field.
  rewrite (bool_decide_eq_false_2 _ Hd), (bool_decide_eq_false_2 _ Hs).
  cbn [orb]. destruct (coerce_number v) as [[num|]|e]; cbn [rbind]; try reflexivity.
  rewrite Hb. reflexivity.
Qed.

Lemma bare_suppressed_sibling (keyset : gset string) (kl : string) :
  kl = "spend" \/ kl = "revenue" ->
  kl +:+ "_cents" ∈ keyset \/ kl +:+ "_micros" ∈ keyset ->
  bare_suppressed keyset kl = true.
Proof.
  intros Hkl Hsib. unfold bare_suppressed.
  assert (String.eqb kl "spend" || String.eqb kl "revenue" = true) as ->.
  { destruct Hkl as [-> | ->]; reflexivity. }
  cbn [andb]. apply orb_true_iff. left.
  cbn [existsb]. destruct Hsib as [H|H]; rewrite (bool_decide_eq_true_2 _ H).
  - reflexivity.
  - rewrite orb_true_r. reflexivity.
Qed.

Lemma bare_suppressed_other (keyset : gset string) (kl : string) :
  kl <> "spend" -> kl <> "revenue" -> bare_suppressed keyset kl = false.
Proof.
  intros H1 H2. unfold bare_suppressed.
  apply String.eqb_neq in H1, H2. rewrite H1, H2. reflexivity.
Qed.

Lemma REMAP_spend_revenue :
  REMAP !! "spend" = Some "spend" /\ REMAP !! "revenue" = Some "revenue".
Proof. vm_compute. split; reflexivity. Qed.

Lemma process_field_scaled (a : args) (date_iso : string) (keyset : gset string)
      (st : state) (k : string) (v : json) (num : float) (base : string) :
  base = "spend" \/ base = "revenue" ->
  coerce_number v = Ok (Some num) ->
  (PyStr.lower k = base +:+ "_cents" ->
   process_field a date_iso keyset st (k, v)
   = Ok (append_value date_iso base (fdiv num (of_Z 100)) (note_key (PyStr.lower k) st)))
  /\ (PyStr.lower k = base +:+ "_micros" ->
      process_field a date_iso keyset st (k, v)
      = Ok (append_value date_iso base (fdiv num (of_Z 1000000))
                         (note_key (PyStr.lower k) st))).
Proof.
  intros Hbase Hc.
  destruct REMAP_spend_revenue as [Hs Hr].
  split; intros Hk; rewrite (process_field_metric a date_iso keyset st k v num);
    try exact Hc; rewrite ?Hk;
    destruct Hbase as [-> | ->];
    try (apply not_in_by_compute; vm_compute; reflexivity);
    try (apply bare_suppressed_other; discriminate).
  - change (scale ("spend" +:+ "_cents") num) with (fdiv num (of_Z 100), "spend").
    cbv beta iota zeta. rewrite Hs. cbn [default]. rewrite andb_false_r. reflexivity.
  - change (scale ("revenue" +:+ "_cents") num) with (fdiv num (of_Z 100), "revenue").
    cbv beta iota zeta. rewrite Hr. cbn [default]. rewrite andb_false_r. reflexivity.
  - change (scale ("spend" +:+ "_micros") num) with (fdiv num (of_Z 1000000), "spend").
    cbv beta iota zeta. rewrite Hs. cbn [default]. rewrite andb_false_r. reflexivity.
  - change (scale ("revenue" +:+ "_micros") num) with (fdiv num (of_Z 1000000), "revenue").
    cbv beta iota zeta. rewrite Hr. cbn [default]. rewrite andb_false_r. reflexivity.
Qed.

(** C3. A bare "spend" or "revenue" field whose record also has the
    "_cents" or "_micros" field of the same name adds no value to the
    accumulator (it is only counted as a seen key); the scaled field adds
    its number divided by 100, resp. 1,000,000, under the bare name.  The
    record with "spend_cents" 500 and "spend" 999 leaves the single value
    5.0 under "spend" at its date. *)
Theorem scaled_sibling_takes_precedence (a : args) (date_iso : string) (st : state)
        (d : dict) (k : string) (v : json) :
  (PyStr.lower k = "spend" \/ PyStr.lower k = "revenue" ->
   PyStr.lower k +:+ "_cents" ∈ lower_keys d \/ PyStr.lower k +:+ "_micros" ∈ lower_keys d ->
   process_field a date_iso (lower_keys d) st (k, v)
   = (let* num := coerce_number v in
      Ok (match num with Some _ => note_key (PyStr.lower k) st | None => st end))
   /\ (forall st', process_field a date_iso (lower_keys d) st (k, v) = Ok st' ->
         values_by_date st' = values_by_date st))
  /\ (forall base num,
        base = "spend" \/ base = "revenue" ->
        coerce_number v = Ok (Some num) ->
        (PyStr.lower k = base +:+ "_cents" ->
         exists st',
           process_field a date_iso (lower_keys d) st (k, v) = Ok st'
           /\ observed (values_by_date st') date_iso base
              = observed (values_by_date st) date_iso base ++ [fdiv num (of_Z 100)])
        /\ (PyStr.lower k = base +:+ "_micros" ->
            exists st',
              process_field a date_iso (lower_keys d) st (k, v) = Ok st'
              /\ observed (values_by_date st') date_iso base
                 = observed (values_by_date st) date_iso base ++ [fdiv num (of_Z 1000000)]))
  /\ (exists st',
        process_record default_args init_state record_spend = Ok st'
        /\ values_by_date st' = {[ "2024-03-05" := {[ "spend" := [of_Z 5] ]} ]}).
Proof.
  split; [|split].
  - intros Hk Hsib.
    assert (Heq : process_field a date_iso (lower_keys d) st (k, v)
                  = (let* num := coerce_number v in
                     Ok (match num with Some _ => note_key (PyStr.lower k) st | None => st end))).
    { apply process_field_bare.
      - destruct Hk as [-> | ->]; apply not_in_by_compute; vm_compute; reflexivity.
      - destruct Hk as [-> | ->]; apply not_in_by_compute; vm_compute; reflexivity.
      - apply bare_suppressed_sibling; assumption. }
    split; [exact Heq|].
    intros st'. rewrite Heq.
    destruct (coerce_number v) as [[num|]|e]; cbn [rbind]; intros H;
      inversion H; reflexivity.
  - intros base num Hbase Hc.
    destruct (process_field_scaled a date_iso (lower_keys d) st k v num base Hbase Hc)
      as [H1 H2].
    split; intros Hk; eexists; (split; [eauto|]); rewrite observed_append_same; reflexivity.
  - eexists. split; [vm_compute; reflexivity|]. vm_compute. reflexivity.
Qed.

Lemma scaled_sibling_takes_precedence_witness :
  (forall st',
      process_field default_args "2024-03-05" (lower_keys record_spend) init_state
                    ("spend", JInt 999) = Ok st' ->
      values_by_date st' = values_by_date init_state)
  /\ (exists st',
        process_field default_args "2024-03-05" (lower_keys record_spend) init_state
                      ("spend_cents", JInt 500) = Ok st'
        /\ observed (values_by_date st') "2024-03-05" "spend"
           = observed (values_by_date init_state) "2024-03-05" "spend"
             ++ [fdiv (of_Z 500) (of_Z 100)]).
Proof.
  split.
  - apply (proj1 (scaled_sibling_takes_precedence default_args "2024-03-05" init_state
                    record_spend "spend" (JInt 999))).
    + left. reflexivity.
    + left. apply in_by_compute. vm_compute. reflexivity.
  - apply (proj1 (proj2 (scaled_sibling_takes_precedence default_args "2024-03-05"
                           init_state record_spend "spend_cents" (JInt 500)))
             "spend" (of_Z 500)).
    + left. reflexivity.
    + vm_compute. reflexivity.
    + reflexivity.
Defined.

(** C10. A JSON boolean is coerced like the integer 1 or 0, to 1.0 or 0.0:
    the loop body treats the field exactly as it treats that number, so a
    boolean field that is no date key, no skip key and not a suppressed
    bare field adds its (scaled) value under its canonical name. *)
Theorem booleans_are_numbers (b : bool) (a : args) (date_iso : string)
        (keyset : gset string) (st : state) (k : string) :
  coerce_number (JBool b)
  = Ok (Some (if b then S754_finite false 4503599627370496 (-52) else S754_zero false))
  /\ process_field a date_iso keyset st (k, JBool b)
     = process_field a date_iso keyset st (k, JInt (if b then 1 else 0))
  /\ (PyStr.lower k ∉ DATE_KEYS -> PyStr.lower k ∉ SKIP_KEYS ->
      bare_suppressed keyset (PyStr.lower k) = false ->
      exists st',
        process_field a date_iso keyset st (k, JBool b) = Ok st'
        /\ let '(num, base) := scale (PyStr.lower k) (of_Z (if b then 1 else 0)) in
           let std := default base (REMAP !! base) in
           observed (values_by_date st') date_iso std
           = observed (values_by_date st) date_iso std ++ [num]).
Proof.
  assert (Hc : coerce_number (JBool b) = Ok (Some (of_Z (if b then 1 else 0)))).
  { destruct b; reflexivity. }
  split; [destruct b; reflexivity|]. split; [reflexivity|].
  intros Hd Hs Hb.
  rewrite (process_field_metric a date_iso keyset st k _ _ Hd Hs Hc Hb).
  destruct (scale (PyStr.lower k) (of_Z (if b then 1 else 0))) as [num base].
  cbv zeta. eexists. split; [reflexivity|].
  destruct (keep_raw a && negb (String.eqb base (default base (REMAP !! base)))) eqn:E.
  - apply andb_true_iff in E as [_ E]. apply negb_true_iff, String.eqb_neq in E.
    rewrite observed_append_other by congruence.
    rewrite observed_append_same. reflexivity.
  - rewrite observed_append_same. reflexivity.
Qed.

Lemma booleans_are_numbers_witness :
  exists st',
    process_field default_args "2024-03-05" ∅ init_state ("is_promoted", JBool true) = Ok st'
    /\ observed (values_by_date st') "2024-03-05" "is_promoted"
       = [S754_finite false 4503599627370496 (-52)].
Proof.
  destruct (proj2 (proj2 (booleans_are_numbers true default_args "2024-03-05" ∅ init_state
                            "is_promoted")))
    as (st' & H1 & H2).
  - apply not_in_by_compute. vm_compute. reflexivity.
  - apply not_in_by_compute. vm_compute. reflexivity.
  - apply bare_suppressed_other; discriminate.
  - exists st'. split; [exact H1|]. exact H2.
Defined.

(** ** Derived ratios *)

(** *** Rounding in binary64: a mantissa of 53 bits or more never rounds
    to zero, and rounding never lowers the exponent *)

Lemma digits2_pos_size p : digits2_pos p = Pos.size p.
Proof. induction p; simpl; congruence. Qed.

Lemma digits2_lower p : 2 ^ (Zpos (digits2_pos p) - 1) <= Zpos p.
Proof.
  rewrite digits2_pos_size.
  induction p; simpl Pos.size.
  - rewrite Pos2Z.inj_succ.
    replace (Z.succ (Z.pos (Pos.size p)) - 1) with (Z.succ (Z.pos (Pos.size p) - 1)) by lia.
    rewrite Z.pow_succ_r by lia. lia.
  - rewrite Pos2Z.inj_succ.
    replace (Z.succ (Z.pos (Pos.size p)) - 1) with (Z.succ (Z.pos (Pos.size p) - 1)) by lia.
    rewrite Z.pow_succ_r by lia. lia.
  - simpl. lia.
Qed.

Lemma digits2_upper p : Zpos p < 2 ^ Zpos (digits2_pos p).
Proof.
  rewrite digits2_pos_size.
  induction p; simpl Pos.size.
  - rewrite Pos2Z.inj_succ, Z.pow_succ_r by lia. lia.
  - rewrite Pos2Z.inj_succ, Z.pow_succ_r by lia. lia.
  - simpl. lia.
Qed.

Lemma shr_1_m mrs : 0 <= shr_m mrs -> shr_m (shr_1 mrs) = shr_m mrs / 2.
Proof.
  destruct mrs as [m r s]. simpl. intros H.
  destruct m as [|p|p]; try lia.
  - reflexivity.
  - destruct p; simpl.
    + rewrite Pos2Z.inj_xI. apply Z.div_unique with 1; lia.
    + rewrite Pos2Z.inj_xO. apply Z.div_unique with 0; lia.
    + reflexivity.
Qed.

Lemma iter_pos_comm {A} (f : A -> A) p x :
  @SpecFloat.iter_pos A f p (f x) = f (@SpecFloat.iter_pos A f p x).
Proof.
  revert x. induction p; intros x; simpl.
  - rewrite !IHp. reflexivity.
  - rewrite !IHp. reflexivity.
  - reflexivity.
Qed.

Lemma iter_pos_succ {A} (f : A -> A) p x :
  @SpecFloat.iter_pos A f (Pos.succ p) x = f (@SpecFloat.iter_pos A f p x).
Proof.
  revert x. induction p; intros x; simpl.
  - rewrite IHp. rewrite iter_pos_comm. rewrite IHp. reflexivity.
  - rewrite !iter_pos_comm. reflexivity.
  - reflexivity.
Qed.

(** Shifting right by [p] bits divides the mantissa by [2^p]. *)
Lemma iter_shr_m p mrs :
  0 <= shr_m mrs ->
  shr_m (@SpecFloat.iter_pos shr_record shr_1 p mrs) = shr_m mrs / 2 ^ Zpos p.
Proof.
  intros H. induction p using Pos.peano_ind.
  - simpl SpecFloat.iter_pos. rewrite shr_1_m by assumption. reflexivity.
  - rewrite iter_pos_succ. rewrite shr_1_m.
    + rewrite IHp. rewrite Pos2Z.inj_succ, Z.pow_succ_r by lia.
      rewrite Z.div_div by lia. f_equal. lia.
    + rewrite IHp. apply Z.div_pos; lia.
Qed.

Lemma shr_record_of_loc_m m l : shr_m (shr_record_of_loc m l) = m.
Proof. destruct l as [|[]]; reflexivity. Qed.

Lemma shr_fexp_big q e l :
  2 ^ 52 <= q -> -1074 <= e ->
  2 ^ 52 <= shr_m (fst (shr_fexp 53 1024 q e l)) /\ e <= snd (shr_fexp 53 1024 q e l).
Proof.
  intros Hq He.
  destruct q as [|p|p]; try (exfalso; lia).
  unfold shr_fexp, fexp, emin. simpl Zdigits2.
  pose proof (digits2_lower p) as Hlo. pose proof (digits2_upper p) as Hup.
  set (d := Zpos (digits2_pos p)) in *.
  assert (Hd : 53 <= d).
  { destruct (Z_lt_le_dec d 53) as [Hlt|]; [|assumption].
    exfalso. assert (2 ^ d <= 2 ^ 52) by (apply Z.pow_le_mono_r; lia). lia. }
  rewrite Z.max_l by lia.
  replace (d + e - 53 - e) with (d - 53) by lia.
  unfold shr. destruct (d - 53) as [|k|k] eqn:Hk.
  - simpl. rewrite shr_record_of_loc_m. lia.
  - simpl fst. simpl snd. rewrite iter_shr_m by (rewrite shr_record_of_loc_m; lia).
    rewrite shr_record_of_loc_m. split; [|lia].
    apply Z.div_le_lower_bound; [lia|].
    rewrite <- Z.pow_add_r by lia. replace (Z.pos k + 52) with (d - 1) by lia. exact Hlo.
  - lia.
Qed.

Lemma round_nearest_even_ge m l : m <= round_nearest_even m l.
Proof. destruct l as [|[]]; simpl; try lia. destruct (Z.even m); lia. Qed.

Lemma binary_round_aux_big s q e l :
  2 ^ 52 <= q -> -1074 <= e -> nonzero_num (binary_round_aux 53 1024 s q e l).
Proof.
  intros Hq He. unfold binary_round_aux.
  pose proof (shr_fexp_big q e l Hq He) as [H1 H2].
  destruct (shr_fexp 53 1024 q e l) as [mrs' e'] eqn:E1. simpl in H1, H2.
  pose proof (round_nearest_even_ge (shr_m mrs') (loc_of_shr_record mrs')) as Hr.
  pose proof (shr_fexp_big (round_nearest_even (shr_m mrs') (loc_of_shr_record mrs')) e' loc_Exact
               ltac:(lia) ltac:(lia)) as [H3 H4].
  destruct (shr_fexp 53 1024 _ e' loc_Exact) as [mrs'' e''] eqn:E2. simpl in H3, H4.
  destruct (shr_m mrs'') as [|m|m]; try (exfalso; lia).
  destruct (e'' <=? 1024 - 53); exact I.
Qed.

Lemma binary_round_aux_exp s q e l s' m' e' :
  binary_round_aux 53 1024 s q e l = S754_finite s' m' e' -> e <= e'.
Proof.
  unfold binary_round_aux, shr_fexp.
  set (n1 := fexp 53 1024 (Zdigits2 q + e) - e).
  assert (Hshr : forall mrs e0 n, e0 <= snd (shr mrs e0 n)).
  { intros mrs e0 n. unfold shr. destruct n; simpl; lia. }
  pose proof (Hshr (shr_record_of_loc q l) e n1) as H1.
  destruct (shr (shr_record_of_loc q l) e n1) as [mrs1 e1]. simpl in H1.
  match goal with |- context [shr ?a e1 ?n] => pose proof (Hshr a e1 n) as H2; destruct (shr a e1 n) as [mrs2 e2] end.
  simpl in H2.
  destruct (shr_m mrs2); try discriminate.
  destruct (e2 <=? 1024 - 53); try discriminate.
  intros H; inversion H; subst. lia.
Qed.

(** *** Division by 1000.0 and [round(x, 6)] *)

(** A finite number with exponent at least -72 divided by 1000.0 is not a
    zero. *)
Lemma fdiv_1000_nonzero s m e :
  -72 <= e -> nonzero_num (fdiv (S754_finite s m e) (of_Z 1000)).
Proof.
  intros He.
  change (of_Z 1000) with (S754_finite false 8796093022208000 (-43)).
  unfold fdiv, prec, emax, SFdiv, SFdiv_core_binary.
  change (Zdigits2 (Z.pos 8796093022208000)) with 53.
  simpl Zdigits2.
  pose proof (digits2_lower m) as Hlo. pose proof (digits2_upper m) as Hup.
  set (d := Zpos (digits2_pos m)) in *.
  assert (Hd : 1 <= d) by (unfold d; lia).
  unfold fexp, emin.
  replace (Z.max (d + e - (53 + -43) - 53) (3 - 1024 - 53)) with (d + e - 63) by lia.
  destruct (Z_le_gt_dec d 106) as [Hc|Hc].
  - rewrite Z.min_l by lia.
    replace (e - -43 - (d + e - 63)) with (106 - d) by lia.
    set (m' := match 106 - d with Z.pos _ => Z.shiftl (Z.pos m) (106 - d) | 0 => Z.pos m | Z.neg _ => 0 end).
    assert (Hm' : 2 ^ 105 <= m').
    { unfold m'. destruct (106 - d) as [|k|k] eqn:Hk; try lia.
      - replace (d - 1) with 105 in Hlo by lia. exact Hlo.
      - rewrite Z.shiftl_mul_pow2 by lia.
        replace 105 with ((d - 1) + Z.pos k) by lia. rewrite Z.pow_add_r by lia.
        apply Z.mul_le_mono_nonneg_r; lia. }
    pose proof (Z_div_mod m' 8796093022208000 ltac:(lia)) as Hdm.
    destruct (Z.div_eucl m' 8796093022208000) as [q r].
    apply binary_round_aux_big; [|lia].
    destruct Hdm as [Heq Hr].
    assert (2 ^ 105 = 2 ^ 52 * 2 ^ 53) by (rewrite <- Z.pow_add_r by lia; reflexivity).
    assert (8796093022208000 < 2 ^ 53) by reflexivity.
    nia.
  - rewrite Z.min_r by lia.
    replace (e - -43 - (e - -43)) with 0 by lia.
    pose proof (Z_div_mod (Z.pos m) 8796093022208000 ltac:(lia)) as Hdm.
    destruct (Z.div_eucl (Z.pos m) 8796093022208000) as [q r].
    apply binary_round_aux_big; [|lia].
    destruct Hdm as [Heq Hr].
    assert (2 ^ 106 <= 2 ^ (d - 1)) by (apply Z.pow_le_mono_r; lia).
    assert (2 ^ 106 = 2 ^ 53 * 2 ^ 53) by (rewrite <- Z.pow_add_r by lia; reflexivity).
    assert (8796093022208000 < 2 ^ 53) by reflexivity.
    nia.
Qed.

Lemma nonzero_num_truthy (x : float) : nonzero_num x -> feq x fzero = false.
Proof. destruct x as [|[]| |[] m e]; simpl; intros H; try contradiction; reflexivity. Qed.

(** A finite value of [round(x, 6)] has an exponent of at least -72. *)
Lemma round6_exponent (x : float) (s : bool) (m : positive) (e : Z) :
  round6 x = S754_finite s m e -> -72 <= e.
Proof.
  unfold round6, round_ndigits.
  destruct x as [sx|sx| |sx mx ex]; try discriminate.
  set (n := if 0 <=? ex then _ else _). clearbody n.
  destruct n as [|np|np]; try discriminate.
  change (Z.to_pos (10 ^ 6)) with 1000000%positive.
  unfold fdiv, prec, emax, SFdiv, SFdiv_core_binary.
  change (Zdigits2 (Z.pos 1000000)) with 20. simpl Zdigits2.
  pose proof (Pos2Z.is_pos (digits2_pos np)) as Hd.
  set (dn := Z.pos (digits2_pos np)) in *.
  unfold fexp, emin.
  set (e' := Z.min (Z.max (dn + 0 - (20 + 0) - 53) (3 - 1024 - 53)) (0 - 0)).
  assert (He' : -72 <= e') by (unfold e'; lia).
  clearbody e'.
  destruct (Z.div_eucl _ 1000000) as [q r].
  intros H. apply binary_round_aux_exp in H. lia.
Qed.

(** A non-zero rounded value stays non-zero when divided by 1000.0. *)
Lemma round6_div_1000 (x : float) :
  truthy (round6 x) = true -> feq (fdiv (round6 x) (of_Z 1000)) fzero = false.
Proof.
  intros Ht. destruct (round6 x) as [s|s| |s m e] eqn:E.
  - destruct s; discriminate Ht.
  - destruct s; reflexivity.
  - reflexivity.
  - apply nonzero_num_truthy, fdiv_1000_nonzero. eapply round6_exponent. exact E.
Qed.

(** *** The ratios of a reduced row *)

Lemma row_get_reduced (policy : string) (metric_map : gmap string (list float))
      (cols : list string) (k : string) :
  exists y, row_get (reduced_row policy metric_map cols) k = round6 y.
Proof.
  induction cols as [|c cols IH]; simpl.
  - exists fzero. reflexivity.
  - destruct (String.eqb c k); [eexists; reflexivity|exact IH].
Qed.

Lemma ratio_guarded (g num : float) :
  ratio g (truediv num g) = Ok (if truthy g then fdiv num g else fzero).
Proof.
  unfold ratio, truediv, truthy. destruct (feq g fzero); reflexivity.
Qed.

(** The ratios of any row whose views are a rounded number. *)
Lemma derived_metrics_rounded (r : row) :
  (exists y, row_get r "views" = round6 y) ->
  let v := row_get r "views" in
  let c := row_get r "clicks" in
  let s := row_get r "spend" in
  let o := row_get r "orders" in
  let rv := row_get r "revenue" in
  derived_metrics r
  = Ok [("ctr", round6 (if truthy v then fdiv c v else fzero));
        ("cpc", round6 (if truthy c then fdiv s c else fzero));
        ("cpm", round6 (if truthy v then fdiv s (fdiv v (of_Z 1000)) else fzero));
        ("order_rate", round6 (if truthy c then fdiv o c else fzero));
        ("roas", round6 (if truthy s then fdiv rv s else fzero))].
Proof.
  intros [y Hy] v c s o rv.
  assert (Hcpm : ratio v (let* d := truediv v (of_Z 1000) in truediv s d)
                 = Ok (if truthy v then fdiv s (fdiv v (of_Z 1000)) else fzero)).
  { unfold ratio. destruct (truthy v) eqn:Ht; [|reflexivity].
    fold v in Hy. rewrite Hy in Ht |- *.
    apply round6_div_1000 in Ht.
    change (truediv (round6 y) (of_Z 1000)) with (Ok (A := float) (fdiv (round6 y) (of_Z 1000))).
    cbn [rbind]. unfold truediv. rewrite Ht. reflexivity. }
  unfold derived_metrics. fold v c s o rv.
  rewrite !ratio_guarded, Hcpm. reflexivity.
Qed.

Lemma derived_metrics_reduced (policy : string) (metric_map : gmap string (list float))
      (cols : list string) :
  let r := reduced_row policy metric_map cols in
  let v := row_get r "views" in
  let c := row_get r "clicks" in
  let s := row_get r "spend" in
  let o := row_get r "orders" in
  let rv := row_get r "revenue" in
  derived_metrics r
  = Ok [("ctr", round6 (if truthy v then fdiv c v else fzero));
        ("cpc", round6 (if truthy c then fdiv s c else fzero));
        ("cpm", round6 (if truthy v then fdiv s (fdiv v (of_Z 1000)) else fzero));
        ("order_rate", round6 (if truthy c then fdiv o c else fzero));
        ("roas", round6 (if truthy s then fdiv rv s else fzero))].
Proof.
  apply derived_metrics_rounded. apply row_get_reduced.
Qed.

(** *** The row as a dict *)

Lemma row_lookup_set (r : csv_row) (k k' : string) (v : cell) :
  row_lookup (row_set r k v) k' = if String.eqb k k' then Some v else row_lookup r k'.
Proof.
  induction r as [|[k0 v0] t IH]; cbn [row_set row_lookup].
  - destruct (String.eqb k k'); reflexivity.
  - destruct (String.eqb k0 k) eqn:E0; cbn [row_lookup].
    + apply String.eqb_eq in E0. subst k0. destruct (String.eqb k k'); reflexivity.
    + rewrite IH. destruct (String.eqb k k') eqn:E; [|reflexivity].
      apply String.eqb_eq in E. subst k'. rewrite E0. reflexivity.
Qed.

Lemma row_set_keys (r : csv_row) (k : string) (v : cell) :
  NoDup (map fst r) -> NoDup (map fst (row_set r k v)).
Proof.
  intros Hnd.
  assert (Hin : forall k', k' ∈ map fst (row_set r k v) -> k' = k \/ k' ∈ map fst r).
  { induction r as [|[k0 v0] t IH]; cbn [row_set map fst]; intros k' Hk'.
    - apply list_elem_of_singleton in Hk'. left. exact Hk'.
    - destruct (String.eqb k0 k); cbn [map fst] in Hk';
        apply elem_of_cons in Hk' as [->|Hk'].
      + right. left.
      + right. right. exact Hk'.
      + right. left.
      + apply NoDup_cons in Hnd as [_ Hnd].
        destruct (IH Hnd k' Hk') as [->|H]; [left; reflexivity|right; right; exact H]. }
  clear Hin. induction r as [|[k0 v0] t IH]; cbn [row_set map fst].
  - apply NoDup_singleton.
  - cbn [map fst] in Hnd. apply NoDup_cons in Hnd as [Hk0 Hnd].
    destruct (String.eqb k0 k) eqn:E; cbn [map fst].
    + apply NoDup_cons. split; assumption.
    + apply NoDup_cons. split; [|apply IH; exact Hnd].
      intros Hin. apply Hk0. clear IH Hnd Hk0.
      induction t as [|[k1 v1] t IH]; cbn [row_set map fst] in Hin.
      * apply list_elem_of_singleton in Hin. subst. rewrite String.eqb_refl in E. discriminate E.
      * destruct (String.eqb k1 k); cbn [map fst] in Hin |- *;
          apply elem_of_cons in Hin as [->|Hin]; try (left; fail);
          right; [exact Hin|apply IH; exact Hin].
Qed.

Lemma assign_cons (r : csv_row) (k : string) (x : float) (kvs : row) :
  assign r ((k, x) :: kvs) = assign (row_set r k (Num x)) kvs.
Proof. reflexivity. Qed.

Lemma assign_keys (kvs : row) :
  forall r, NoDup (map fst r) -> NoDup (map fst (assign r kvs)).
Proof.
  induction kvs as [|[k x] kvs IH]; intros r Hnd; [exact Hnd|].
  rewrite assign_cons. apply IH, row_set_keys, Hnd.
Qed.

(** [row.get(k, 0.0)] on a dict without two entries for a key. *)
Lemma row_get_numbers (r : csv_row) (k : string) :
  NoDup (map fst r) ->
  row_get (numbers r) k
  = match row_lookup r k with Some (Num x) => x | _ => fzero end.
Proof.
  assert (Hout : forall t : csv_row, k ∉ map fst t -> row_get (numbers t) k = fzero).
  { induction t as [|[k1 [s1|x1]] t IH]; cbn [numbers row_get map fst]; intros Hk.
    - reflexivity.
    - apply IH. intros Hin. apply Hk. right. exact Hin.
    - destruct (String.eqb k1 k) eqn:E.
      + apply String.eqb_eq in E. subst. exfalso. apply Hk. left.
      + apply IH. intros Hin. apply Hk. right. exact Hin. }
  induction r as [|[k0 [s0|x0]] t IH]; cbn [numbers row_get row_lookup map fst]; intros Hnd.
  - reflexivity.
  - apply NoDup_cons in Hnd as [Hk0 Hnd]. destruct (String.eqb k0 k) eqn:E.
    + apply String.eqb_eq in E. subst. apply Hout. exact Hk0.
    + apply IH. exact Hnd.
  - apply NoDup_cons in Hnd as [Hk0 Hnd]. destruct (String.eqb k0 k) eqn:E.
    + reflexivity.
    + apply IH. exact Hnd.
Qed.

(** The value of a column after the reduced numbers are assigned. *)
Lemma row_lookup_assign_reduced (policy : string) (mm : gmap string (list float))
      (cols : list string) (k : string) :
  forall r,
    row_lookup (assign r (reduced_row policy mm cols)) k
    = if in_list k cols
      then Some (Num (round6 (reduce_vals (default [] (mm !! k)) policy)))
      else row_lookup r k.
Proof.
  induction cols as [|c cols IH]; intros r; [reflexivity|].
  cbn [reduced_row map]. rewrite assign_cons.
  change (map _ cols) with (reduced_row policy mm cols). rewrite IH.
  unfold in_list. cbn [existsb]. fold (in_list k cols).
  destruct (in_list k cols); [rewrite orb_true_r; reflexivity|].
  rewrite orb_false_r, row_lookup_set, String.eqb_sym.
  destruct (String.eqb k c) eqn:E; [|reflexivity].
  apply String.eqb_eq in E. subst. reflexivity.
Qed.

(** The dict of a row before the derived columns. *)
Lemma reduced_dict_lookup (policy : string) (others : list string) (d : string)
      (mm : gmap string (list float)) (k : string) :
  row_lookup (assign (assign [("date", Text d)] (reduced_row policy mm standard_order))
                     (reduced_row policy mm others)) k
  = if in_list k (standard_order ++ others)
    then Some (Num (round6 (reduce_vals (default [] (mm !! k)) policy)))
    else if String.eqb "date" k then Some (Text d) else None.
Proof.
  rewrite !row_lookup_assign_reduced. unfold in_list. rewrite existsb_app.
  destruct (existsb (String.eqb k) others); [rewrite orb_true_r; reflexivity|].
  rewrite orb_false_r. destruct (existsb (String.eqb k) standard_order); reflexivity.
Qed.

Lemma reduced_dict_views (policy : string) (others : list string) (d : string)
      (mm : gmap string (list float)) (k : string) :
  k ∈ standard_order ->
  row_get (numbers (assign (assign [("date", Text d)] (reduced_row policy mm standard_order))
                           (reduced_row policy mm others))) k
  = row_get (reduced_row policy mm standard_order) k.
Proof.
  intros Hk. rewrite row_get_numbers.
  - rewrite reduced_dict_lookup.
    assert (Hin : in_list k (standard_order ++ others) = true).
    { unfold in_list. rewrite existsb_app. apply orb_true_iff. left.
      apply existsb_exists. exists k. split; [apply list_elem_of_In; exact Hk|].
      apply String.eqb_refl. }
    rewrite Hin. apply list_elem_of_In in Hk. unfold standard_order in Hk. cbn [In] in Hk.
    destruct Hk as [<-|[<-|[<-|[<-|[<-|[]]]]]]; reflexivity.
  - apply assign_keys, assign_keys. apply NoDup_singleton.
Qed.

(** The derived columns of a row are computed from its five standard
    numbers. *)
Lemma derived_metrics_dict (policy : string) (others : list string) (d : string)
      (mm : gmap string (list float)) :
  derived_metrics
    (numbers (assign (assign [("date", Text d)] (reduced_row policy mm standard_order))
                     (reduced_row policy mm others)))
  = derived_metrics (reduced_row policy mm standard_order).
Proof.
  unfold derived_metrics.
  rewrite !reduced_dict_views
    by (apply list_elem_of_In; unfold standard_order; cbn [In]; tauto).
  reflexivity.
Qed.

(** C7. For the reduced (rounded) metrics of any row, the derived ratios
    are computed without a division error, so that every row is built; and
    each ratio is 0.0 when its denominator is zero. *)
Theorem derived_ratios_are_safe (policy : string) (metric_map : gmap string (list float))
        (cols : list string) :
  let r := reduced_row policy metric_map cols in
  let v := row_get r "views" in
  let c := row_get r "clicks" in
  let s := row_get r "spend" in
  let o := row_get r "orders" in
  let rv := row_get r "revenue" in
  derived_metrics r
  = Ok [("ctr", round6 (if truthy v then fdiv c v else fzero));
        ("cpc", round6 (if truthy c then fdiv s c else fzero));
        ("cpm", round6 (if truthy v then fdiv s (fdiv v (of_Z 1000)) else fzero));
        ("order_rate", round6 (if truthy c then fdiv o c else fzero));
        ("roas", round6 (if truthy s then fdiv rv s else fzero))]
  /\ (feq v fzero = true -> round6 (if truthy v then fdiv c v else fzero) = fzero)
  /\ (feq c fzero = true -> round6 (if truthy c then fdiv s c else fzero) = fzero)
  /\ (feq (fdiv v (of_Z 1000)) fzero = true ->
      round6 (if truthy v then fdiv s (fdiv v (of_Z 1000)) else fzero) = fzero)
  /\ (feq c fzero = true -> round6 (if truthy c then fdiv o c else fzero) = fzero)
  /\ (feq s fzero = true -> round6 (if truthy s then fdiv rv s else fzero) = fzero)
  /\ (forall a others d, exists built, build_row a others d metric_map = Ok built)
  /\ derived_metrics row_example
     = Ok [("ctr", decimal "0.02"); ("cpc", decimal "2.5"); ("cpm", decimal "50.0");
           ("order_rate", decimal "0.1"); ("roas", decimal "0.8")].
Proof.
  intros r v c s o rv.
  split; [|split; [|split; [|split; [|split; [|split; [|split]]]]]].
  - apply derived_metrics_reduced.
  - unfold truthy. intros ->. reflexivity.
  - unfold truthy. intros ->. reflexivity.
  - intros Hz. destruct (truthy v) eqn:Ht; [|reflexivity].
    destruct (row_get_reduced policy metric_map cols "views") as [y Hy].
    fold r in Hy. fold v in Hy. rewrite Hy in Ht, Hz.
    apply round6_div_1000 in Ht. congruence.
  - unfold truthy. intros ->. reflexivity.
  - unfold truthy. intros ->. reflexivity.
  - intros a others d. unfold build_row.
    destruct (derived a); [|eexists; reflexivity].
    rewrite derived_metrics_dict, derived_metrics_reduced. eexists. reflexivity.
  - vm_compute. reflexivity.
Qed.

Lemma derived_ratios_are_safe_witness :
  round6 (if truthy (row_get (reduced_row "sum" ∅ standard_order) "views")
          then fdiv (row_get (reduced_row "sum" ∅ standard_order) "clicks")
                    (row_get (reduced_row "sum" ∅ standard_order) "views")
          else fzero) = fzero.
Proof.
  apply (proj1 (proj2 (derived_ratios_are_safe "sum" ∅ standard_order))).
  vm_compute. reflexivity.
Defined.

(** ** The languages of the date patterns *)

Lemma in_all_ascii (c : ascii) : In c all_ascii.
Proof.
  unfold all_ascii. apply in_map_iff. exists (nat_of_ascii c). split.
  - apply ascii_nat_embedding.
  - apply in_seq. pose proof (nat_ascii_bounded c). lia.
Qed.

Lemma implies_all_spec (p P : ascii -> bool) (c : ascii) :
  implies_all p P = true -> p c = true -> P c = true.
Proof.
  unfold implies_all. rewrite forallb_forall. intros H Hp.
  specialize (H c (in_all_ascii c)). rewrite Hp in H. exact H.
Qed.

Lemma append_cons (x : ascii) (a b : string) : String x a +:+ b = String x (a +:+ b).
Proof. reflexivity. Qed.

Lemma append_empty_r (a : string) : a +:+ EmptyString = a.
Proof. induction a as [|x a IH]; [reflexivity|]. rewrite append_cons, IH. reflexivity. Qed.

Lemma append_assoc (a b c : string) : (a +:+ b) +:+ c = a +:+ (b +:+ c).
Proof.
  induction a as [|x a IH]; [reflexivity|]. rewrite !append_cons, IH. reflexivity.
Qed.

Lemma all_chars_app (P : ascii -> bool) (a b : string) :
  all_chars P (a +:+ b) = all_chars P a && all_chars P b.
Proof.
  induction a as [|x a IH]; [reflexivity|].
  rewrite append_cons. simpl. rewrite IH, andb_assoc. reflexivity.
Qed.

Lemma has_char_app (Q : ascii -> bool) (a b : string) :
  has_char Q (a +:+ b) = has_char Q a || has_char Q b.
Proof.
  induction a as [|x a IH]; [reflexivity|].
  rewrite append_cons. simpl. rewrite IH, orb_assoc. reflexivity.
Qed.

Lemma all_chars_has_char (P Q : ascii -> bool) (u : string) :
  (forall c, Q c = true -> P c = false) ->
  all_chars P u = true -> has_char Q u = false.
Proof.
  intros HPQ. induction u as [|c u IH]; simpl; [reflexivity|].
  intros H. apply andb_true_iff in H as [Hc Hu].
  rewrite (IH Hu), orb_false_r.
  destruct (Q c) eqn:E; [|reflexivity]. rewrite (HPQ c E) in Hc. discriminate.
Qed.

Lemma nonempty_all_has (p Q : ascii -> bool) (u : string) :
  implies_all p Q = true -> u <> EmptyString -> all_chars p u = true -> has_char Q u = true.
Proof.
  intros Hi Hne Hall. destruct u as [|c u]; [contradiction|].
  simpl in *. apply andb_true_iff in Hall as [Hc _].
  rewrite (implies_all_spec p Q c Hi Hc). reflexivity.
Qed.

Lemma lang_alphabet (P : ascii -> bool) (r : re) :
  alphabet P r = true -> forall u, lang r u -> all_chars P u = true.
Proof.
  induction r as [p| |a IHa b IHb|a IHa b IHb|a IHa|p|n p|name a IHa]; simpl; intros HA u Hu.
  - destruct Hu as (c & -> & Hc). simpl. rewrite (implies_all_spec p P c HA Hc). reflexivity.
  - subst u. reflexivity.
  - apply andb_true_iff in HA as [H1 H2].
    destruct Hu as (u1 & u2 & -> & Hu1 & Hu2).
    rewrite all_chars_app, (IHa H1 _ Hu1), (IHb H2 _ Hu2). reflexivity.
  - apply andb_true_iff in HA as [H1 H2]. destruct Hu as [Hu|Hu]; auto.
  - destruct Hu as [Hu| ->]; auto.
  - destruct Hu as [_ Hall]. induction u as [|c u IH]; simpl in *; [reflexivity|].
    apply andb_true_iff in Hall as [Hc Hu].
    rewrite (implies_all_spec p P c HA Hc), (IH Hu). reflexivity.
  - destruct Hu as [_ Hall]. induction u as [|c u IH]; simpl in *; [reflexivity|].
    apply andb_true_iff in Hall as [Hc Hu].
    rewrite (implies_all_spec p P c HA Hc), (IH Hu). reflexivity.
  - auto.
Qed.

Lemma lang_needs (Q : ascii -> bool) (r : re) :
  needs Q r = true -> forall u, lang r u -> has_char Q u = true.
Proof.
  induction r as [p| |a IHa b IHb|a IHa b IHb|a IHa|p|n p|name a IHa]; simpl; intros HA u Hu;
    try discriminate.
  - destruct Hu as (c & -> & Hc). simpl. rewrite (implies_all_spec p Q c HA Hc). reflexivity.
  - destruct Hu as (u1 & u2 & -> & Hu1 & Hu2). rewrite has_char_app.
    apply orb_true_iff in HA as [H|H]; [rewrite (IHa H _ Hu1)|rewrite (IHb H _ Hu2)];
      [reflexivity|apply orb_true_r].
  - apply andb_true_iff in HA as [H1 H2]. destruct Hu as [Hu|Hu]; auto.
  - destruct Hu as [Hne Hall]. eapply nonempty_all_has; eauto.
  - destruct Hu as [Hne Hall]. eapply nonempty_all_has; eauto.
  - auto.
Qed.

Lemma run_spec (p : ascii -> bool) (n : nat) (s t : string) :
  In t (run n p s) -> exists u, s = u +:+ t /\ u <> EmptyString /\ all_chars p u = true.
Proof.
  revert s. induction n as [|n IH]; intros s; [simpl; tauto|].
  destruct s as [|c r]; simpl; [tauto|].
  destruct (p c) eqn:Hc; [|simpl; tauto].
  rewrite in_app_iff. intros [Hin|[<-|[]]].
  - destruct (IH r Hin) as (u & -> & _ & Hu). exists (String c u).
    split; [reflexivity|]. split; [discriminate|]. simpl. rewrite Hc, Hu. reflexivity.
  - exists (String c EmptyString). split; [reflexivity|]. split; [discriminate|].
    simpl. rewrite Hc. reflexivity.
Qed.

(** Every way [rmatch] matches consumes a text of the language. *)
Lemma rmatch_lang (r : re) :
  forall g0 s g t, In (g, t) (rmatch r g0 s) -> exists u, s = u +:+ t /\ lang r u.
Proof.
  induction r as [p| |a IHa b IHb|a IHa b IHb|a IHa|p|n p|name a IHa]; simpl;
    intros g0 s g t Hin.
  - destruct s as [|c s']; [destruct Hin|]. destruct (p c) eqn:Hc; [|destruct Hin].
    destruct Hin as [Heq|[]]. inversion Heq. subst.
    exists (String c EmptyString). split; [reflexivity|]. eauto.
  - destruct Hin as [Heq|[]]. inversion Heq. subst. exists EmptyString. split; reflexivity.
  - apply in_flat_map in Hin as ([g1 t1] & H1 & H2).
    destruct (IHa _ _ _ _ H1) as (u1 & -> & Hu1).
    destruct (IHb _ _ _ _ H2) as (u2 & -> & Hu2).
    exists (u1 +:+ u2). split; [symmetry; apply append_assoc|]. eauto.
  - apply in_app_iff in Hin as [H|H].
    + destruct (IHa _ _ _ _ H) as (u & -> & Hu). eauto.
    + destruct (IHb _ _ _ _ H) as (u & -> & Hu). eauto.
  - apply in_app_iff in Hin as [H|[Heq|[]]].
    + destruct (IHa _ _ _ _ H) as (u & -> & Hu). eauto.
    + inversion Heq. subst. exists EmptyString. split; [reflexivity|]. right. reflexivity.
  - apply in_map_iff in Hin as (t' & Heq & Hin). inversion Heq. subst.
    destruct (run_spec _ _ _ _ Hin) as (u & -> & Hne & Hall). eauto.
  - apply in_map_iff in Hin as (t' & Heq & Hin). inversion Heq. subst.
    destruct (run_spec _ _ _ _ Hin) as (u & -> & Hne & Hall). eauto.
  - apply in_map_iff in Hin as ([g1 t1] & Heq & Hin). inversion Heq. subst.
    destruct (IHa _ _ _ _ Hin) as (u & -> & Hu). eauto.
Qed.

(** A string that [strptime] parses belongs to the language of the format. *)
Lemma strptime_lang (s fmt : string) (dtp : PyDate.datetime) :
  Strptime.strptime s fmt = Some dtp -> lang (Strptime.pattern fmt) s.
Proof.
  unfold Strptime.strptime, match_start.
  destruct (rmatch (Strptime.pattern fmt) [] s) as [|[g t] l] eqn:E; simpl; [discriminate|].
  destruct t; [|discriminate]. intros _.
  destruct (rmatch_lang (Strptime.pattern fmt) [] s g EmptyString) as (u & Hs & Hu).
  { rewrite E. left. reflexivity. }
  rewrite append_empty_r in Hs. subst u. exact Hu.
Qed.

Lemma date_formats_alphabet :
  forallb (fun fmt => alphabet date_char (Strptime.pattern fmt)) DATE_FORMATS = true.
Proof. vm_compute. reflexivity. Qed.

Lemma datetime_formats_need_colon :
  forallb (fun fmt => needs is_colon (Strptime.pattern fmt)) DATETIME_FORMATS = true.
Proof. vm_compute. reflexivity. Qed.

(** ** The date normaliser *)

(** *** The calendar: an ordinal is the ordinal of its date *)

Lemma range_check_sound (P : Z -> bool) (lo : Z) (count : positive) :
  range_check P lo count = true ->
  forall i, lo <= i < lo + Zpos count -> P i = true.
Proof.
  unfold range_check.
  set (f := fun '(i, ok) => (i + 1, ok && P i)).
  assert (Hinv : forall n,
             fst (Pos.iter f (lo, true) n) = lo + Zpos n
             /\ (snd (Pos.iter f (lo, true) n) = true ->
                 forall i, lo <= i < lo + Zpos n -> P i = true)).
  { induction n as [|n [IH1 IH2]] using Pos.peano_ind.
    - simpl. split; [reflexivity|]. intros H i Hi.
      assert (i = lo) as -> by lia. exact H.
    - rewrite Pos.iter_succ.
      destruct (Pos.iter f (lo, true) n) as [j ok]. simpl in *. subst j.
      split; [lia|]. intros H i Hi. apply andb_true_iff in H as [Hok HP].
      destruct (Z.eq_dec i (lo + Z.pos n)) as [->|Hne]; [exact HP|].
      apply IH2; [exact Hok|lia]. }
  intros H. apply (Hinv count). exact H.
Qed.

Lemma month_day_spec (n : Z) (leapyear : bool) :
  0 <= n <= 364 ->
  nth (Z.to_nat (fst (month_day n leapyear))) PyDate.DAYS_BEFORE_MONTH 0
  + (if (2 <? fst (month_day n leapyear)) && leapyear then 1 else 0)
  + snd (month_day n leapyear) = n + 1.
Proof.
  intros Hn.
  assert (H : month_day_ok leapyear n = true).
  { apply (range_check_sound (month_day_ok leapyear) 0 365); [|lia].
    destruct leapyear; vm_compute; reflexivity. }
  unfold month_day_ok in H. destruct (month_day n leapyear) as [m d].
  apply Z.eqb_eq in H. exact H.
Qed.

Lemma ord2ymd_cases (n : Z) :
  let n0 := n - 1 in
  let n400 := n0 / 146097 in
  let n100 := n0 mod 146097 / 36524 in
  let n4 := n0 mod 146097 mod 36524 / 1461 in
  let n1 := n0 mod 146097 mod 36524 mod 1461 / 365 in
  let nd := n0 mod 146097 mod 36524 mod 1461 mod 365 in
  let y := n400 * 400 + 1 + n100 * 100 + n4 * 4 + n1 in
  PyDate.ord2ymd n
  = if (n1 =? 4) || (n100 =? 4) then PyDate.mkdate (y - 1) 12 31
    else
      let leapyear := (n1 =? 3) && (negb (n4 =? 24) || (n100 =? 3)) in
      PyDate.mkdate y (fst (month_day nd leapyear)) (snd (month_day nd leapyear)).
Proof.
  intros. unfold PyDate.ord2ymd, PyDate.DI400Y, PyDate.DI100Y, PyDate.DI4Y.
  fold n0. fold n400. fold n100. fold n4. fold n1. fold nd. fold y.
  destruct ((n1 =? 4) || (n100 =? 4)); [reflexivity|].
  cbv zeta. unfold month_day.
  destruct (nd <? _); reflexivity.
Qed.

Lemma ymd2ord_ord2ymd (n : Z) :
  1 <= n ->
  PyDate.ymd2ord (PyDate.year (PyDate.ord2ymd n)) (PyDate.month (PyDate.ord2ymd n))
                 (PyDate.day (PyDate.ord2ymd n)) = n.
Proof.
  intros Hn. rewrite ord2ymd_cases. cbv zeta.
  set (n0 := n - 1).
  set (n400 := n0 / 146097).
  set (r1 := n0 mod 146097).
  set (n100 := r1 / 36524).
  set (r2 := r1 mod 36524).
  set (n4 := r2 / 1461).
  set (r3 := r2 mod 1461).
  set (n1 := r3 / 365).
  set (nd := r3 mod 365).
  assert (H0 : 0 <= n0) by (unfold n0; lia).
  assert (E1 : n0 = 146097 * n400 + r1 /\ 0 <= r1 < 146097)
    by (unfold n400, r1; split; [apply Z.div_mod; lia | apply Z.mod_pos_bound; lia]).
  assert (E2 : r1 = 36524 * n100 + r2 /\ 0 <= r2 < 36524)
    by (unfold n100, r2; split; [apply Z.div_mod; lia | apply Z.mod_pos_bound; lia]).
  assert (E3 : r2 = 1461 * n4 + r3 /\ 0 <= r3 < 1461)
    by (unfold n4, r3; split; [apply Z.div_mod; lia | apply Z.mod_pos_bound; lia]).
  assert (E4 : r3 = 365 * n1 + nd /\ 0 <= nd < 365)
    by (unfold n1, nd; split; [apply Z.div_mod; lia | apply Z.mod_pos_bound; lia]).
  assert (B400 : 0 <= n400) by (unfold n400; apply Z.div_pos; lia).
  assert (B100 : 0 <= n100 <= 4) by (unfold n100; split; [apply Z.div_pos; lia | apply Z.lt_succ_r, Z.div_lt_upper_bound; lia]).
  assert (B4 : 0 <= n4 <= 24) by (unfold n4; split; [apply Z.div_pos; lia | apply Z.lt_succ_r, Z.div_lt_upper_bound; lia]).
  assert (B1 : 0 <= n1 <= 4) by (unfold n1; split; [apply Z.div_pos; lia | apply Z.lt_succ_r, Z.div_lt_upper_bound; lia]).
  clearbody n400 r1 n100 r2 n4 r3 n1 nd.
  set (y := n400 * 400 + 1 + n100 * 100 + n4 * 4 + n1).
  destruct ((n1 =? 4) || (n100 =? 4)) eqn:Hend.
  - simpl PyDate.year. simpl PyDate.month. simpl PyDate.day.
    unfold PyDate.ymd2ord, PyDate.days_before_year, PyDate.days_before_month, PyDate.is_leap.
    change (nth (Z.to_nat 12) PyDate.DAYS_BEFORE_MONTH 0) with 334.
    change (2 <? 12) with true. cbn [andb].
    apply orb_true_iff in Hend. rewrite !Z.eqb_eq in Hend.
    assert (Hy : exists k, y - 1 = 4 * k /\ ((y - 1) mod 100 <> 0 \/ (y - 1) mod 400 = 0)
                           /\ (y - 1 - 1) / 4 = k - 1
                           /\ (y - 1 - 1) / 100 = 4 * n400 + n100 + (if n100 =? 4 then -1 else 0)
                           /\ (y - 1 - 1) / 400 = n400).
    { unfold y. destruct Hend as [-> | ->].
      - exists (100 * n400 + 25 * n100 + n4 + 1).
        assert (n100 <> 4) by lia.
        rewrite (proj2 (Z.eqb_neq n100 4)) by assumption.
        repeat split; try lia.
        + left. Z.div_mod_to_equations. lia.
        + Z.div_mod_to_equations. lia.
        + Z.div_mod_to_equations. lia.
        + Z.div_mod_to_equations. lia.
      - exists (100 * n400 + 100 + n4). 
        assert (n4 = 0 /\ n1 = 0) as [-> ->] by lia.
        simpl (4 =? 4).
        repeat split; try lia.
        + right. Z.div_mod_to_equations. lia.
        + Z.div_mod_to_equations. lia.
        + Z.div_mod_to_equations. lia.
        + Z.div_mod_to_equations. lia. }
    destruct Hy as (k & Hk & Hleap & Hq4 & Hq100 & Hq400).
    rewrite Hq4, Hq100, Hq400.
    assert (Hm4 : (y - 1) mod 4 = 0) by (rewrite Hk; Z.div_mod_to_equations; lia).
    rewrite Hm4. simpl (0 =? 0). cbn [andb].
    assert (Hl : negb ((y - 1) mod 100 =? 0) || ((y - 1) mod 400 =? 0) = true).
    { apply orb_true_iff. destruct Hleap as [H|H].
      - left. apply negb_true_iff, Z.eqb_neq. exact H.
      - right. apply Z.eqb_eq. exact H. }
    rewrite Hl.
    destruct Hend as [H1|H1]; unfold y in *; unfold n0 in *.
    + assert (n100 <> 4) by lia.
      rewrite (proj2 (Z.eqb_neq n100 4)) by assumption. lia.
    + subst n100. simpl (4 =? 4). lia.
  - apply orb_false_iff in Hend as [Hn1 Hn100]. rewrite Z.eqb_neq in Hn1, Hn100.
    set (leapyear := (n1 =? 3) && (negb (n4 =? 24) || (n100 =? 3))).
    pose proof (month_day_spec nd leapyear ltac:(lia)) as Hmd.
    simpl PyDate.year. simpl PyDate.month. simpl PyDate.day.
    unfold PyDate.ymd2ord, PyDate.days_before_month.
    assert (Hleap : PyDate.is_leap y = leapyear).
    { unfold PyDate.is_leap, leapyear, y.
      destruct (Z.eqb_spec n1 3) as [->|Hn3].
      - replace ((n400 * 400 + 1 + n100 * 100 + n4 * 4 + 3) mod 4) with 0
          by (Z.div_mod_to_equations; lia).
        simpl (0 =? 0). cbn [andb].
        destruct (Z.eqb_spec n4 24) as [->|Hn24].
        + replace ((n400 * 400 + 1 + n100 * 100 + 24 * 4 + 3) mod 100) with 0
            by (Z.div_mod_to_equations; lia).
          simpl (0 =? 0). cbn [negb orb].
          destruct (Z.eqb_spec n100 3) as [->|Hn3'].
          * replace ((n400 * 400 + 1 + 3 * 100 + 24 * 4 + 3) mod 400) with 0
              by (Z.div_mod_to_equations; lia).
            reflexivity.
          * apply Z.eqb_neq. Z.div_mod_to_equations. lia.
        + cbn [negb orb].
          assert (Hne : (n400 * 400 + 1 + n100 * 100 + n4 * 4 + 3) mod 100 <> 0)
            by (Z.div_mod_to_equations; lia).
          apply Z.eqb_neq in Hne. rewrite Hne. reflexivity.
      - cbn [andb].
        assert (Hne : (n400 * 400 + 1 + n100 * 100 + n4 * 4 + n1) mod 4 <> 0)
          by (Z.div_mod_to_equations; lia).
        apply Z.eqb_neq in Hne. rewrite Hne. reflexivity. }
    rewrite Hleap.
    assert (Hdby : PyDate.days_before_year y
                   = 146097 * n400 + 36524 * n100 + 1461 * n4 + 365 * n1).
    { unfold PyDate.days_before_year, y.
      replace (n400 * 400 + 1 + n100 * 100 + n4 * 4 + n1 - 1)
        with (n400 * 400 + n100 * 100 + n4 * 4 + n1) by lia.
      assert ((n400 * 400 + n100 * 100 + n4 * 4 + n1) / 4 = 100 * n400 + 25 * n100 + n4) as ->
        by (Z.div_mod_to_equations; lia).
      assert ((n400 * 400 + n100 * 100 + n4 * 4 + n1) / 100 = 4 * n400 + n100) as ->
        by (Z.div_mod_to_equations; lia).
      assert ((n400 * 400 + n100 * 100 + n4 * 4 + n1) / 400 = n400) as ->
        by (Z.div_mod_to_equations; lia).
      lia. }
    rewrite Hdby. unfold n0 in *. lia.
Qed.

(** *** Instants and formats *)

Lemma wall_seconds_of_wall_seconds (t : Z) (dt : PyDate.datetime) :
  PyDate.of_wall_seconds t = Some dt -> PyDate.wall_seconds dt = t.
Proof.
  unfold PyDate.of_wall_seconds, PyDate.wall_seconds.
  destruct ((1 <=? t / 86400) && (t / 86400 <=? PyDate.MAXORDINAL)) eqn:Hr; [|discriminate].
  apply andb_true_iff in Hr as [Hlo _]. apply Z.leb_le in Hlo.
  intros H. inversion H. subst dt. clear H. simpl.
  rewrite ymd2ord_ord2ymd by exact Hlo.
  Z.div_mod_to_equations. lia.
Qed.

Lemma try_datetime_formats_none (tz : Z) (s : string) (fmts : list string) :
  first_parse s fmts = None -> try_datetime_formats tz s fmts = None.
Proof.
  induction fmts as [|fmt rest IH]; simpl; [reflexivity|].
  destruct (Strptime.strptime s fmt); [discriminate|exact IH].
Qed.

Lemma try_datetime_formats_first (tz : Z) (s : string) (fmts : list string)
      (dtp dtp' : PyDate.datetime) :
  first_parse s fmts = Some dtp -> PyDate.add_hours dtp tz = Some dtp' ->
  try_datetime_formats tz s fmts = Some (PyDate.isoformat (PyDate.dt_date dtp')).
Proof.
  intros Hp Ha. induction fmts as [|fmt rest IH]; simpl in *; [discriminate|].
  destruct (Strptime.strptime s fmt) as [d|].
  - inversion Hp. subst d. rewrite Ha. reflexivity.
  - apply IH. exact Hp.
Qed.

Lemma try_date_formats_first (s : string) (fmts : list string) :
  try_date_formats s fmts
  = (fun dt => PyDate.isoformat (PyDate.dt_date dt)) <$> first_parse s fmts.
Proof.
  induction fmts as [|fmt rest IH]; simpl; [reflexivity|].
  destruct (Strptime.strptime s fmt); [reflexivity|exact IH].
Qed.

(** A string that a pure-date format parses is parsed by no datetime
    format: every datetime format wants a colon. *)
Lemma date_string_has_no_time (s : string) (dtp : PyDate.datetime) :
  first_parse s DATE_FORMATS = Some dtp -> first_parse s DATETIME_FORMATS = None.
Proof.
  intros Hd.
  assert (Hall : all_chars date_char s = true).
  { pose proof date_formats_alphabet as HA. rewrite forallb_forall in HA.
    unfold DATE_FORMATS in Hd. simpl in Hd.
    destruct (Strptime.strptime s "%Y-%m-%d") as [d1|] eqn:E1.
    - apply (lang_alphabet _ _ (HA "%Y-%m-%d" ltac:(left; reflexivity))).
      eapply strptime_lang. exact E1.
    - destruct (Strptime.strptime s "%m/%d/%Y") as [d2|] eqn:E2; [|discriminate].
      apply (lang_alphabet _ _ (HA "%m/%d/%Y" ltac:(right; left; reflexivity))).
      eapply strptime_lang. exact E2. }
  assert (Hno : has_char is_colon s = false).
  { apply (all_chars_has_char date_char); [|exact Hall].
    intros c Hc. unfold is_colon in Hc. apply Ascii.eqb_eq in Hc. subst c. reflexivity. }
  pose proof datetime_formats_need_colon as HN. rewrite forallb_forall in HN.
  assert (Hfmt : forall fmt, In fmt DATETIME_FORMATS -> Strptime.strptime s fmt = None).
  { intros fmt Hin. destruct (Strptime.strptime s fmt) as [d|] eqn:E; [|reflexivity].
    apply strptime_lang in E. apply (lang_needs _ _ (HN fmt Hin)) in E. congruence. }
  clear -Hfmt. induction DATETIME_FORMATS as [|fmt rest IH]; simpl; [reflexivity|].
  rewrite (Hfmt fmt) by (left; reflexivity). apply IH.
  intros f Hf. apply Hfmt. right. exact Hf.
Qed.

Lemma norm_timestamp_shift (tz ts : Z) :
  norm_timestamp tz ts
  = let ts' := if 1000000000000 <? ts then ts / 1000 else ts in
    match PyDate.fromtimestamp_utc ts' with
    | Some _ => shifted_date (ts' + UNIX_EPOCH) tz
    | None => None
    end.
Proof.
  unfold norm_timestamp. cbv zeta.
  set (ts' := if 1000000000000 <? ts then ts / 1000 else ts).
  destruct (PyDate.fromtimestamp_utc ts') as [dt|] eqn:E; [|reflexivity].
  unfold PyDate.fromtimestamp_utc in E. apply wall_seconds_of_wall_seconds in E.
  unfold PyDate.add_hours, shifted_date. rewrite E. fold UNIX_EPOCH.
  destruct (PyDate.of_wall_seconds _); reflexivity.
Qed.

(** C1. A string that a pure-date pattern parses gets, under every offset,
    the date that pattern reads in it; more generally a string in which no
    datetime pattern finds a time of day gets the same date under every
    offset.  A value with a time of day (a string that a datetime pattern
    parses, an epoch number) gets the date of its instant moved by the
    offset, once, when that date exists: "2024-03-05T23:30:00Z" under +2
    is "2024-03-06". *)
Theorem offset_applies_once_to_instants_only (tz : Z) :
  (forall s dtp,
      first_parse (PyStr.strip s) DATE_FORMATS = Some dtp ->
      norm_date tz (JStr s) = Ok (Some (PyDate.isoformat (PyDate.dt_date dtp))))
  /\ (forall s,
        first_parse (PyStr.strip s) DATETIME_FORMATS = None ->
        norm_date tz (JStr s) = norm_date 0 (JStr s))
  /\ (forall s dtp r,
        first_parse (PyStr.strip s) DATETIME_FORMATS = Some dtp ->
        shifted_date (PyDate.wall_seconds dtp) tz = Some r ->
        norm_date tz (JStr s) = Ok (Some r))
  /\ (forall n,
        norm_date tz (JInt n)
        = Ok (let ts := if 1000000000000 <? n then n / 1000 else n in
              match PyDate.fromtimestamp_utc ts with
              | Some _ => shifted_date (ts + UNIX_EPOCH) tz
              | None => None
              end))
  /\ (forall x ts, int_of_float x = Ok ts -> norm_date tz (JFloat x) = norm_date tz (JInt ts))
  /\ norm_date 2 (JStr "2024-03-05T23:30:00Z") = Ok (Some "2024-03-06")
  /\ norm_date 2 (JStr "2024-03-05") = Ok (Some "2024-03-05").
Proof.
  assert (Hgen : forall s z,
             first_parse (PyStr.strip s) DATETIME_FORMATS = None ->
             norm_date z (JStr s)
             = Ok (match try_date_formats (PyStr.strip s) DATE_FORMATS with
                   | Some r => Some r
                   | None => search_iso_date (PyStr.strip s)
                   end)).
  { intros s z Hnone. unfold norm_date, norm_date_str.
    rewrite (try_datetime_formats_none z _ _ Hnone). reflexivity. }
  split; [|split; [|split; [|split; [|split; [|split]]]]].
  - intros s dtp Hd.
    rewrite (Hgen s tz (date_string_has_no_time _ _ Hd)), try_date_formats_first, Hd.
    reflexivity.
  - intros s Hnone. rewrite !Hgen by exact Hnone. reflexivity.
  - intros s dtp r Hp Hs. unfold shifted_date in Hs.
    destruct (PyDate.of_wall_seconds (PyDate.wall_seconds dtp + tz * 3600)) as [dtp'|] eqn:E;
      [|discriminate].
    simpl in Hs. inversion Hs. subst r.
    unfold norm_date, norm_date_str.
    rewrite (try_datetime_formats_first tz _ _ dtp dtp' Hp E). reflexivity.
  - intros n. unfold norm_date. rewrite norm_timestamp_shift. reflexivity.
  - intros x ts Hx. unfold norm_date. rewrite Hx. reflexivity.
  - vm_compute. reflexivity.
  - vm_compute. reflexivity.
Qed.

Lemma offset_applies_once_witness :
  norm_date 2 (JStr " 03/05/2024") = Ok (Some "2024-03-05")
  /\ norm_date 2 (JStr "about 2024-03-05") = norm_date 0 (JStr "about 2024-03-05")
  /\ norm_date (-5) (JStr "2024-03-05 02:00:00") = Ok (Some "2024-03-04").
Proof.
  split; [|split].
  - apply (proj1 (offset_applies_once_to_instants_only 2)
             " 03/05/2024" (PyDate.mkdatetime (PyDate.mkdate 2024 3 5) 0 0 0)).
    vm_compute. reflexivity.
  - apply (proj1 (proj2 (offset_applies_once_to_instants_only 2))).
    vm_compute. reflexivity.
  - apply (proj1 (proj2 (proj2 (offset_applies_once_to_instants_only (-5))))
             "2024-03-05 02:00:00" (PyDate.mkdatetime (PyDate.mkdate 2024 3 5) 2 0 0)).
    + vm_compute. reflexivity.
    + vm_compute. reflexivity.
Defined.

(** ** End to end *)

(** The two documents of the specification: the per-day document counts,
    the range document is skipped at both of its objects. *)
Example end_to_end_two_documents :
  main default_args 1000
       [Loaded doc_A;
        Loaded (JDict [("range", JDict [("start_date", JStr "2024-03-01");
                                        ("end_date", JStr "2024-03-07")]);
                       ("impressions", JInt 500)])]
  = Ok (Wrote ["date"; "views"; "clicks"; "spend"; "orders"; "revenue"]
              [[Text "2024-03-01"; Num (of_Z 100); Num (of_Z 10); Num fzero; Num fzero;
                Num fzero]]).
Proof. vm_compute. reflexivity. Qed.

(** The rows nested in a skipped record are harvested. *)
Example nested_rows_are_harvested :
  main default_args 1000 [Loaded (JDict record_with_rows)]
  = Ok (Wrote ["date"; "views"; "clicks"; "spend"; "orders"; "revenue"]
              [[Text "2024-03-01"; Num fzero; Num (of_Z 5); Num fzero; Num fzero; Num fzero];
               [Text "2024-03-02"; Num fzero; Num (of_Z 7); Num fzero; Num fzero; Num fzero]]).
Proof. vm_compute. reflexivity. Qed.

(** The order of the two spend fields does not matter, and without a date
    the record adds nothing. *)
Example spend_fields_in_any_order :
  main default_args 1000
       [Loaded (JDict [("spend", JInt 999); ("date", JStr "2024-03-05");
                       ("Spend_Cents", JInt 500)])]
  = Ok (Wrote ["date"; "views"; "clicks"; "spend"; "orders"; "revenue"]
              [[Text "2024-03-05"; Num fzero; Num fzero; Num (of_Z 5); Num fzero; Num fzero]])
  /\ main default_args 1000
          [Loaded (JDict [("spend_cents", JInt 500); ("spend", JInt 999)])]
     = Ok (Exit 3).
Proof. vm_compute. split; reflexivity. Qed.

(** An integer beyond the float range stops the run: [float(v)] is called
    outside any [try]. *)
Example huge_integer_stops_the_run :
  main default_args 1000
       [Loaded (JDict [("date", JStr "2024-03-05"); ("clicks", JInt (10 ^ 400))])]
  = Raise OverflowError.
Proof. vm_compute. reflexivity. Qed.

(** A key [date_cents] gives a metric named [date]: the column appears
    twice and the number takes the place of the date in every row. *)
Example metric_named_date_takes_the_date_cell :
  main default_args 1000
       [Loaded (JList [JDict [("date", JStr "2024-03-05"); ("date_cents", JInt 500);
                              ("clicks", JInt 3)];
                       JDict [("date", JStr "2024-03-04"); ("clicks", JInt 1)]])]
  = Ok (Wrote ["date"; "views"; "clicks"; "spend"; "orders"; "revenue"; "date"]
              [[Num fzero; Num fzero; Num (of_Z 1); Num fzero; Num fzero; Num fzero; Num fzero];
               [Num (of_Z 5); Num fzero; Num (of_Z 3); Num fzero; Num fzero; Num fzero;
                Num (of_Z 5)]]).
Proof. vm_compute. reflexivity. Qed.

(** With the derived columns, a metric named like one of them shows the
    derived value in both of its columns. *)
Example derived_column_takes_the_metric_cell :
  main (mkargs true false 0 "sum" false) 1000
       [Loaded (JList [JDict [("date", JStr "2024-03-05"); ("ctr", JInt 7);
                              ("views", JInt 10); ("clicks", JInt 3)]])]
  = Ok (Wrote ["date"; "views"; "clicks"; "spend"; "orders"; "revenue"; "ctr";
               "ctr"; "cpc"; "cpm"; "order_rate"; "roas"]
              [[Text "2024-03-05"; Num (of_Z 10); Num (of_Z 3); Num fzero; Num fzero;
                Num fzero; Num (decimal "0.3");
                Num (decimal "0.3"); Num fzero; Num fzero; Num fzero; Num fzero]]).
Proof. vm_compute. reflexivity. Qed.

(** A dated range total counts only when suppression is off. *)
Example dated_range_total_counts_when_included :
  main default_args 1000 [Loaded (JDict record_range_total_dated)] = Ok (Exit 3)
  /\ main (mkargs false false 0 "sum" true) 1000 [Loaded (JDict record_range_total_dated)]
     = Ok (Wrote ["date"; "views"; "clicks"; "spend"; "orders"; "revenue"; "total_spend"]
                 [[Text "2024-03-07"; Num fzero; Num fzero; Num fzero; Num fzero; Num fzero;
                   Num (of_Z 700)]]).
Proof. vm_compute. split; reflexivity. Qed.

(** A document nested too deep for the parser is skipped like a file that
    is not JSON; the documents around it are harvested. *)
Example too_deep_document_example :
  main_of_files default_args 1000
    [Document doc_A; Document (nested_lists 997); Document (nested_lists 2000)]
  = main_of_files default_args 1000 [Document doc_A]
  /\ load 998 (Document (nested_lists 994)) = Loaded (nested_lists 994)
  /\ load 998 (Document (nested_lists 995)) = Skipped
  /\ snd (iter_dicts 998 (nested_lists 997)) = None
  /\ snd (iter_dicts 998 (nested_lists 998)) = Some RecursionError.
Proof. vm_compute. repeat split; reflexivity. Qed.

(** * Further properties *)

(** ** The tree walker *)

Lemma yield_from_each_all_done {A B : Type} (f : B -> gen A) (g : B -> list A) (l : list B) :
  (forall x, x ∈ l -> f x = (g x, None)) ->
  yield_from_each f l = (flat_map g l, None).
Proof.
  induction l as [|b l IH]; simpl; intros H; [reflexivity|].
  unfold gen_then. rewrite (H b) by left. simpl.
  rewrite IH by (intros x Hx; apply H; right; exact Hx). reflexivity.
Qed.

Lemma depth_item (l : list json) (x : json) (n : nat) :
  (depth (JList l) <= S n)%nat -> x ∈ l -> (depth x <= n)%nat.
Proof.
  simpl. intros H Hx. apply le_S_n in H.
  apply (proj1 (max_fold_le depth l n) H x Hx).
Qed.

Lemma depth_value (d : dict) (k : string) (v : json) (n : nat) :
  (depth (JDict d) <= S n)%nat -> (k, v) ∈ d -> (depth v <= n)%nat.
Proof.
  simpl. intros H Hx. apply le_S_n in H.
  apply (proj1 (max_fold_le (fun kv : string * json => let '(_, v) := kv in depth v) d n) H
               (k, v) Hx).
Qed.

Lemma yield_from_each_map {A B C : Type} (f : B -> gen A) (h : C -> B) (l : list C) :
  yield_from_each f (map h l) = yield_from_each (fun x => f (h x)) l.
Proof. induction l as [|c l IH]; simpl; [reflexivity|]. rewrite IH. reflexivity. Qed.

(** X1. With a recursion limit that covers the depth of the document, the
    walk ends normally and yields the objects of the document in pre-order,
    each as often as it occurs; the limit has no other influence. *)
Theorem walk_is_the_preorder_listing (limit : nat) (obj : json) :
  (depth obj <= limit)%nat -> iter_dicts limit obj = (all_dicts obj, None).
Proof.
  revert obj. induction limit as [|limit IH]; intros obj Hd.
  - destruct obj; simpl in Hd; lia.
  - destruct obj as [| | | | |l|d]; try reflexivity.
    + simpl. apply yield_from_each_all_done.
      intros x Hx. apply IH. eapply depth_item; eauto.
    + simpl. unfold gen_yield, values. rewrite yield_from_each_map.
      rewrite (yield_from_each_all_done _
                 (fun kv : string * json => let '(_, v) := kv in all_dicts v)).
      * reflexivity.
      * intros [k v] Hkv. simpl. apply IH. eapply depth_value; eauto.
Qed.

Lemma walk_is_the_preorder_listing_witness :
  iter_dicts 7 (JDict record_with_rows) = (all_dicts (JDict record_with_rows), None).
Proof.
  apply walk_is_the_preorder_listing. vm_compute. lia.
Defined.

Lemma yield_from_each_sound {A B : Type} (f : B -> gen A) (l : list B) (y : A) :
  y ∈ fst (yield_from_each f l) -> exists x, x ∈ l /\ y ∈ fst (f x).
Proof.
  induction l as [|b l IH]; simpl; intros Hy.
  - inversion Hy.
  - unfold gen_then in Hy. destruct (snd (f b)).
    + exists b. split; [left|exact Hy].
    + simpl in Hy. apply elem_of_app in Hy as [Hy|Hy].
      * exists b. split; [left|exact Hy].
      * destruct (IH Hy) as (x & Hx & Hyx). exists x. split; [right; exact Hx|exact Hyx].
Qed.

Lemma iter_dicts_sound (limit : nat) :
  forall obj d', d' ∈ fst (iter_dicts limit obj) -> occurs_in d' obj.
Proof.
  induction limit as [|limit IH]; intros obj d' Hin.
  - inversion Hin.
  - destruct obj as [| | | | |l|d]; simpl in Hin; try (inversion Hin; fail).
    + apply yield_from_each_sound in Hin as (x & Hx & Hy).
      eapply occurs_item; eauto.
    + apply elem_of_cons in Hin as [->|Hin]; [constructor|].
      apply yield_from_each_sound in Hin as (x & Hx & Hy).
      eapply occurs_value; eauto.
Qed.

(** X2. Whatever the recursion limit, the walker yields only objects of
    the document; when the limit covers the depth of the document it yields
    every one of them, the document itself included if it is an object. *)
Theorem walk_yields_the_objects (limit : nat) (obj : json) (d' : dict) :
  (d' ∈ fst (iter_dicts limit obj) -> occurs_in d' obj)
  /\ ((depth obj <= limit)%nat -> occurs_in d' obj -> d' ∈ fst (iter_dicts limit obj)).
Proof.
  split.
  - apply iter_dicts_sound.
  - intros Hd Hocc. apply iter_dicts_complete; [exact Hocc|].
    apply iter_dicts_done_iff. exact Hd.
Qed.

Lemma walk_yields_the_objects_witness :
  [("date", JStr "2024-03-02"); ("clicks", JInt 7)]
    ∈ fst (iter_dicts 6 (JList [JDict record_with_rows])).
Proof.
  apply (proj2 (walk_yields_the_objects 6 (JList [JDict record_with_rows]) _)).
  - vm_compute. lia.
  - eapply occurs_item; [left|].
    eapply occurs_value; [right; right; left|].
    eapply occurs_item; [right; left|]. constructor.
Defined.

(** ** Documents and files in sequence *)

Lemma for_gen_then {A S : Type} (body : S -> A -> res S) (g1 g2 : gen A) (st : S) :
  for_gen body (gen_then g1 g2) st
  = let* st' := for_gen body g1 st in for_gen body g2 st'.
Proof.
  unfold for_gen, gen_then. destruct g1 as [l1 [e|]]; simpl.
  - destruct (for_each body l1 st); reflexivity.
  - rewrite for_each_app. destruct (for_each body l1 st); reflexivity.
Qed.

(** A document that is an array is processed as its items, one after the
    other, each walked with one frame less. *)
Lemma array_is_processed_item_by_item (a : args) (limit : nat) (l : list json)
        (st : state) :
  walk_document a (S limit) st (JList l) = for_each (walk_document a limit) l st.
Proof.
  unfold walk_document. simpl iter_dicts. revert st.
  induction l as [|x l IH]; intros st; simpl; [reflexivity|].
  rewrite for_gen_then.
  destruct (for_gen (process_record a) (iter_dicts limit x) st); simpl; [apply IH|reflexivity].
Qed.

(** ** The bookkeeping of the loop *)

Lemma same_values_refl (r : res state) : same_values r r.
Proof. destruct r; reflexivity. Qed.

Lemma for_each_same_values {A : Type} (body1 body2 : state -> A -> res state) (l : list A) :
  (forall s1 s2 x, values_by_date s1 = values_by_date s2 ->
                   same_values (body1 s1 x) (body2 s2 x)) ->
  forall s1 s2, values_by_date s1 = values_by_date s2 ->
                same_values (for_each body1 l s1) (for_each body2 l s2).
Proof.
  intros Hbody. induction l as [|x l IH]; intros s1 s2 Hs; simpl; [exact Hs|].
  specialize (Hbody s1 s2 x Hs).
  destruct (body1 s1 x) as [t1|e1], (body2 s2 x) as [t2|e2]; simpl in *;
    try contradiction; [apply IH; exact Hbody|exact Hbody].
Qed.

Lemma append_value_same_values (date metric : string) (x : float) (s1 s2 : state) :
  values_by_date s1 = values_by_date s2 ->
  values_by_date (append_value date metric x s1)
  = values_by_date (append_value date metric x s2).
Proof. unfold append_value. simpl. intros ->. reflexivity. Qed.

Lemma process_field_same_values (a : args) (date_iso : string) (keyset : gset string)
      (s1 s2 : state) (kv : string * json) :
  values_by_date s1 = values_by_date s2 ->
  same_values (process_field a date_iso keyset s1 kv) (process_field a date_iso keyset s2 kv).
Proof.
  intros Hs. unfold process_field. destruct kv as [k v].
  destruct (bool_decide _ || bool_decide _); [exact Hs|].
  destruct (coerce_number v) as [[num|]|e]; cbn [rbind]; [|exact Hs|reflexivity].
  destruct (bare_suppressed keyset (PyStr.lower k)); [exact Hs|].
  destruct (scale (PyStr.lower k) num) as [num' base].
  destruct (keep_raw a && _); cbn [same_values];
    repeat apply append_value_same_values; exact Hs.
Qed.

Lemma process_record_same_values (a : args) (s1 s2 : state) (d : dict) :
  values_by_date s1 = values_by_date s2 ->
  same_values (process_record a s1 d) (process_record a s2 d).
Proof.
  intros Hs. unfold process_record.
  destruct (negb (include_range_totals a) && looks_like_range_total d); [exact Hs|].
  unfold accumulate_record.
  destruct (norm_date _ _) as [[[|c r]|]|e]; cbn [rbind]; try exact Hs; [|reflexivity].
  apply for_each_same_values; [|exact Hs].
  intros t1 t2 x Ht. apply process_field_same_values. exact Ht.
Qed.

Lemma walk_document_same_values (a : args) (limit : nat) (s1 s2 : state) (x : json) :
  values_by_date s1 = values_by_date s2 ->
  same_values (walk_document a limit s1 x) (walk_document a limit s2 x).
Proof.
  intros Hs. unfold walk_document, for_gen.
  pose proof (for_each_same_values (process_record a) (process_record a)
                (fst (iter_dicts limit x))
                (fun t1 t2 d Ht => process_record_same_values a t1 t2 d Ht) s1 s2 Hs) as H.
  destruct (for_each _ _ s1) as [t1|e1], (for_each _ _ s2) as [t2|e2]; simpl in *;
    try contradiction; [|exact H].
  destruct (snd (iter_dicts limit x)); [reflexivity|exact H].
Qed.

(** X3. The counters of the loop ([parsed], [raw_cols], [key_freq]) are
    only written: two states with the same accumulator are taken by any
    file to states with the same accumulator, or to the same exception. *)
Theorem bookkeeping_never_reaches_the_values (a : args) (limit : nat) (s1 s2 : state)
        (f : source) :
  values_by_date s1 = values_by_date s2 ->
  same_values (process_file a limit s1 f) (process_file a limit s2 f).
Proof.
  intros Hs. destruct f as [|data]; [exact Hs|].
  apply (walk_document_same_values a limit). exact Hs.
Qed.

Lemma bookkeeping_never_reaches_the_values_witness :
  same_values
    (process_file default_args 5 init_state (Loaded doc_A))
    (process_file default_args 5 (mkstate ∅ {["clicks"]} {["clicks" := 3%nat]} 9) (Loaded doc_A)).
Proof.
  apply bookkeeping_never_reaches_the_values. reflexivity.
Defined.

(** X4. A file that holds an array of documents gives the same accumulator
    (or the same exception) as one file per document, the array costing one
    generator frame more. *)
Theorem array_file_is_its_items (a : args) (limit : nat) (l : list json) :
  same_values (harvest a (S limit) [Loaded (JList l)]) (harvest a limit (map Loaded l)).
Proof.
  unfold harvest. cbn [for_each].
  change (process_file a (S limit) init_state (Loaded (JList l)))
    with (walk_document a (S limit) (count_parsed init_state) (JList l)).
  rewrite array_is_processed_item_by_item.
  assert (Hgen : forall s1 s2, values_by_date s1 = values_by_date s2 ->
            same_values (for_each (walk_document a limit) l s1)
                        (for_each (process_file a limit) (map Loaded l) s2)).
  { induction l as [|x l IH]; intros s1 s2 Hs; simpl; [exact Hs|].
    pose proof (walk_document_same_values a limit s1 (count_parsed s2) x Hs) as H.
    fold (count_parsed s2).
    change (for_gen (process_record a) (iter_dicts limit x) (count_parsed s2))
      with (walk_document a limit (count_parsed s2) x).
    destruct (walk_document a limit s1 x) as [t1|e1],
             (walk_document a limit (count_parsed s2) x) as [t2|e2];
      simpl in *; try contradiction; [apply IH; exact H|exact H]. }
  pose proof (Hgen (count_parsed init_state) init_state eq_refl) as H.
  destruct (for_each (walk_document a limit) l (count_parsed init_state)) as [t|e];
    simpl; exact H.
Qed.

(** ** The shape of normalised dates *)

(** ** The texts the date normaliser returns *)

Lemma is_digit_digit_char (d : Z) : PyStr.is_digit (PyStr.digit_char d) = true.
Proof.
  unfold PyStr.digit_char.
  pose proof (Z.mod_pos_bound d 10 ltac:(lia)) as H.
  set (r := d mod 10) in *.
  assert (r = 0 \/ r = 1 \/ r = 2 \/ r = 3 \/ r = 4 \/ r = 5 \/ r = 6 \/ r = 7 \/ r = 8 \/ r = 9)
    as Hr by lia.
  destruct Hr as [->|[->|[->|[->|[->|[->|[->|[->|[->| ->]]]]]]]]]; reflexivity.
Qed.

Lemma isoformat_is_iso_date_text (d : PyDate.date) :
  is_iso_date_text (PyDate.isoformat d) = true.
Proof.
  unfold PyDate.isoformat, PyStr.fmt4, PyStr.fmt2, is_iso_date_text.
  cbn [list_ascii_of_string String.append].
  unfold String.append. cbn [list_ascii_of_string].
  rewrite !is_digit_digit_char. reflexivity.
Qed.

Lemma length_append (a b : string) :
  String.length (a +:+ b) = (String.length a + String.length b)%nat.
Proof.
  induction a as [|x a IH]; [reflexivity|]. rewrite append_cons. simpl. rewrite IH. reflexivity.
Qed.

Lemma substring_append_left (a b : string) :
  String.substring 0 (String.length a) (a +:+ b) = a.
Proof.
  induction a as [|x a IH].
  - destruct b; reflexivity.
  - rewrite append_cons. simpl. rewrite IH. reflexivity.
Qed.

Lemma search_finds_a_match (r : re) (s : string) (g : env) :
  search r s = Some g ->
  exists pre rest t, s = pre +:+ rest /\ match_start r rest = Some (g, t).
Proof.
  induction s as [|c s IH]; simpl.
  - destruct (match_start r EmptyString) as [[g' t]|] eqn:E; [|discriminate].
    intros H. inversion H. subst. exists EmptyString, EmptyString, t. split; [reflexivity|exact E].
  - destruct (match_start r (String c s)) as [[g' t]|] eqn:E.
    + intros H. inversion H. subst. exists EmptyString, (String c s), t.
      split; [reflexivity|exact E].
    + intros H. destruct (IH H) as (pre & rest & t & -> & Hm).
      exists (String c pre), rest, t. split; [reflexivity|exact Hm].
Qed.

(** The text the fallback search returns is a piece of the searched text,
    accepted by the pattern. *)
Lemma search_iso_date_sound (s r : string) :
  search_iso_date s = Some r ->
  (exists pre post, s = pre +:+ r +:+ post) /\ lang ISO_DATE_RE r.
Proof.
  unfold search_iso_date.
  destruct (search ISO_DATE_RE s) as [g|] eqn:E; [|discriminate].
  apply search_finds_a_match in E as (pre & rest & t & -> & Hm).
  unfold match_start, ISO_DATE_RE in Hm. cbn [rmatch] in Hm.
  match type of Hm with
  | context [rmatch ?a [] rest] => destruct (rmatch a [] rest) as [|[g' t'] l] eqn:Er
  end; [discriminate|].
  cbn [map head] in Hm. inversion Hm. subst g t'. clear Hm.
  match type of Er with
  | rmatch ?a _ _ = _ =>
      destruct (rmatch_lang a [] rest g' t) as (u & -> & Hu); [rewrite Er; left; reflexivity|]
  end.
  unfold group. cbn [List.find Ascii.eqb]. 
  replace (String.length (u +:+ t) - String.length t)%nat with (String.length u)
    by (rewrite length_append; lia).
  rewrite substring_append_left. simpl. intros H. inversion H. subst r.
  split; [exists pre, t; reflexivity|exact Hu].
Qed.

Lemma iso_date_language (r : string) :
  lang ISO_DATE_RE r -> is_iso_date_text r = true /\ String.prefix "20" r = true.
Proof.
  unfold ISO_DATE_RE, seqs, lit, dig. cbn [lang]. intros H.
  repeat match goal with
         | H : exists _, _ |- _ => destruct H as [? H]
         | H : _ /\ _ |- _ => destruct H as [? ?]
         end.
  subst.
  repeat match goal with
         | H : Ascii.eqb _ _ = true |- _ => apply Ascii.eqb_eq in H; subst
         end.
  unfold is_iso_date_text, String.append. cbn [list_ascii_of_string].
  repeat match goal with
         | H : PyStr.is_digit _ = true |- _ => rewrite H; clear H
         end.
  split; reflexivity.
Qed.

Lemma try_datetime_formats_iso (tz : Z) (s : string) (fmts : list string) (r : string) :
  try_datetime_formats tz s fmts = Some r -> exists d, r = PyDate.isoformat d.
Proof.
  induction fmts as [|fmt rest IH]; simpl; [discriminate|].
  destruct (Strptime.strptime s fmt) as [dtp|]; [|exact IH].
  destruct (PyDate.add_hours dtp tz) as [dtp'|]; [|exact IH].
  intros H. inversion H. eauto.
Qed.

Lemma try_date_formats_iso (s : string) (fmts : list string) (r : string) :
  try_date_formats s fmts = Some r -> exists d, r = PyDate.isoformat d.
Proof.
  induction fmts as [|fmt rest IH]; simpl; [discriminate|].
  destruct (Strptime.strptime s fmt) as [dtp|]; [|exact IH].
  intros H. inversion H. eauto.
Qed.

Lemma norm_timestamp_iso (tz ts : Z) (r : string) :
  norm_timestamp tz ts = Some r -> exists d, r = PyDate.isoformat d.
Proof.
  unfold norm_timestamp.
  destruct (PyDate.fromtimestamp_utc _) as [dt|]; [|discriminate].
  destruct (PyDate.add_hours dt tz) as [dt'|]; [|discriminate].
  intros H. inversion H. eauto.
Qed.

Lemma norm_date_shape (tz : Z) (v : json) (r : string) :
  norm_date tz v = Ok (Some r) -> is_iso_date_text r = true.
Proof.
  intros H.
  destruct v as [|b|n|x|s|l|d]; simpl in H; try discriminate.
  - inversion H as [H1]. apply norm_timestamp_iso in H1 as [d ->].
    apply isoformat_is_iso_date_text.
  - inversion H as [H1]. apply norm_timestamp_iso in H1 as [d ->].
    apply isoformat_is_iso_date_text.
  - destruct (int_of_float x) as [ts|e]; [|discriminate]. simpl in H.
    inversion H as [H1]. apply norm_timestamp_iso in H1 as [d ->].
    apply isoformat_is_iso_date_text.
  - inversion H as [H1]. unfold norm_date_str in H1.
    destruct (try_datetime_formats tz (PyStr.strip s) DATETIME_FORMATS) as [r1|] eqn:E1.
    + inversion H1. subst r1. apply try_datetime_formats_iso in E1 as [d ->].
      apply isoformat_is_iso_date_text.
    + destruct (try_date_formats (PyStr.strip s) DATE_FORMATS) as [r2|] eqn:E2.
      * inversion H1. subst r2. apply try_date_formats_iso in E2 as [d ->].
        apply isoformat_is_iso_date_text.
      * apply search_iso_date_sound in H1 as [_ Hl].
        apply iso_date_language in Hl as [Hl _]. exact Hl.
Qed.

(** X5. Whatever the value and the offset, a date that the normaliser
    returns is a text of the form dddd-dd-dd; in particular it is never
    empty. *)
Theorem norm_date_returns_iso_texts (tz : Z) (v : json) (r : string) :
  norm_date tz v = Ok (Some r) -> is_iso_date_text r = true /\ r <> EmptyString.
Proof.
  intros H. apply norm_date_shape in H.
  split; [exact H|]. intros ->. discriminate H.
Qed.

Lemma norm_date_returns_iso_texts_witness :
  is_iso_date_text "2024-02-30" = true /\ "2024-02-30" <> EmptyString.
Proof.
  apply (norm_date_returns_iso_texts (-4) (JStr "week of 2024-02-30!")).
  vm_compute. reflexivity.
Defined.

(** X6. When no format parses a string, the offset plays no part: the
    result is what the search for 20dd-dd-dd finds, a piece of the string
    itself, copied without any calendar check. *)
Theorem unparsed_strings_fall_back_to_search (tz : Z) (s : string) :
  first_parse (PyStr.strip s) DATETIME_FORMATS = None ->
  first_parse (PyStr.strip s) DATE_FORMATS = None ->
  norm_date tz (JStr s) = Ok (search_iso_date (PyStr.strip s))
  /\ (forall r, search_iso_date (PyStr.strip s) = Some r ->
        (exists pre post, PyStr.strip s = pre +:+ r +:+ post)
        /\ is_iso_date_text r = true /\ String.prefix "20" r = true).
Proof.
  intros Hdt Hd. split.
  - unfold norm_date, norm_date_str.
    rewrite (try_datetime_formats_none tz _ _ Hdt), try_date_formats_first, Hd. reflexivity.
  - intros r Hr. apply search_iso_date_sound in Hr as [Hsub Hl].
    split; [exact Hsub|]. apply iso_date_language. exact Hl.
Qed.

Lemma unparsed_strings_fall_back_to_search_witness :
  norm_date 7 (JStr "from 2024-13-45 on") = Ok (Some "2024-13-45").
Proof.
  destruct (unparsed_strings_fall_back_to_search 7 "from 2024-13-45 on") as [H _].
  - vm_compute. reflexivity.
  - vm_compute. reflexivity.
  - rewrite H. vm_compute. reflexivity.
Defined.

Lemma date_value_of_record (pre post : dict) (k : string) (v : json) :
  (forall k', k' ∈ keys pre -> PyStr.lower k' ∉ DATE_KEYS) ->
  PyStr.lower k ∈ DATE_KEYS ->
  find_date_val (pre ++ (k, v) :: post) (keys (pre ++ (k, v) :: post)) = v.
Proof.
  intros Hpre Hk. rewrite (find_date_val_first _ pre post k v Hpre Hk).
  rewrite dict_get_app_fresh; [reflexivity|].
  intros Hin. exact (Hpre k Hin Hk).
Qed.

(** X7. The normaliser raises in exactly two cases, both floats: NaN
    (ValueError) and an infinity (OverflowError); [int(v)] is evaluated
    before the [try].  A record whose date is read from such a value takes
    the exception out of the loop body. *)
Theorem norm_date_raises_on_nan_and_infinity (tz : Z) (v : json) (e : exn) :
  (norm_date tz v = Raise e <->
     (v = JFloat S754_nan /\ e = ValueError)
     \/ (exists s, v = JFloat (S754_infinity s) /\ e = OverflowError))
  /\ (forall a st pre post k,
        tz_offset_hours a = tz ->
        (forall k', k' ∈ keys pre -> PyStr.lower k' ∉ DATE_KEYS) ->
        PyStr.lower k ∈ DATE_KEYS ->
        norm_date tz v = Raise e ->
        accumulate_record a st (pre ++ (k, v) :: post) = Raise e).
Proof.
  split.
  - split.
    + destruct v as [|b|n|x|s|l|d]; simpl; try discriminate.
      destruct x as [s|s| |s m ex]; simpl; try discriminate; intros H; inversion H; eauto.
    + intros [[-> ->]|(s & -> & ->)]; reflexivity.
  - intros a st pre post k Htz Hpre Hk Hraise. subst tz.
    unfold accumulate_record.
    rewrite (date_value_of_record pre post k v Hpre Hk), Hraise. reflexivity.
Qed.

Lemma norm_date_raises_on_nan_and_infinity_witness :
  accumulate_record default_args init_state
    [("clicks", JInt 3); ("Date", JFloat S754_nan)] = Raise ValueError.
Proof.
  apply (proj2 (norm_date_raises_on_nan_and_infinity 0 (JFloat S754_nan) ValueError)
           default_args init_state [("clicks", JInt 3)] [] "Date").
  - reflexivity.
  - intros k' Hk'. apply list_elem_of_singleton in Hk' as ->.
    apply not_in_by_compute. vm_compute. reflexivity.
  - apply in_by_compute. vm_compute. reflexivity.
  - reflexivity.
Defined.

(** X8. The millisecond guess: an integer above 10^12 is read as
    milliseconds, so a millisecond timestamp after 2001-09-09 gives the
    date of its whole second; an integer from 253402300800 up to 10^12 is
    read as seconds beyond the year 9999 and gives no date. *)
Theorem millisecond_guess (tz n r : Z) :
  (1000000000 < n <= 1000000000000 -> 0 <= r < 1000 ->
   norm_date tz (JInt (n * 1000 + r)) = norm_date tz (JInt n))
  /\ (253402300800 <= n <= 1000000000000 -> norm_date tz (JInt n) = Ok None).
Proof.
  split.
  - intros Hn Hr. unfold norm_date, norm_timestamp.
    replace (1000000000000 <? n * 1000 + r) with true by (symmetry; apply Z.ltb_lt; lia).
    replace (1000000000000 <? n) with false by (symmetry; apply Z.ltb_ge; lia).
    replace ((n * 1000 + r) / 1000) with n
      by (apply Z.div_unique with r; lia).
    reflexivity.
  - intros Hn. unfold norm_date, norm_timestamp.
    replace (1000000000000 <? n) with false by (symmetry; apply Z.ltb_ge; lia).
    unfold PyDate.fromtimestamp_utc, PyDate.of_wall_seconds.
    assert (Hd : PyDate.MAXORDINAL < (n + 719163 * 86400) / 86400).
    { unfold PyDate.MAXORDINAL. apply Z.lt_le_trans with 3652060; [lia|].
      apply Z.div_le_lower_bound; lia. }
    replace ((n + 719163 * 86400) / 86400 <=? PyDate.MAXORDINAL) with false
      by (symmetry; apply Z.leb_gt; exact Hd).
    rewrite andb_false_r. reflexivity.
Qed.

Lemma millisecond_guess_witness :
  norm_date 0 (JInt (1709632800 * 1000 + 123)) = norm_date 0 (JInt 1709632800)
  /\ norm_date 0 (JInt 999999999999) = Ok None.
Proof.
  split.
  - apply (proj1 (millisecond_guess 0 1709632800 123)); lia.
  - apply (proj2 (millisecond_guess 0 999999999999 0)). lia.
Defined.

(** ** Invariants of the loop *)

Lemma for_each_preserves {A S : Type} (P : S -> Prop) (body : S -> A -> res S) :
  (forall s x s', P s -> body s x = Ok s' -> P s') ->
  forall l s s', P s -> for_each body l s = Ok s' -> P s'.
Proof.
  intros Hstep l. induction l as [|x l IH]; intros s s' Hs H.
  - inversion H. subst. exact Hs.
  - cbn [for_each] in H. destruct (body s x) as [s1|e] eqn:E; [|discriminate H].
    cbn [rbind] in H. exact (IH s1 s' (Hstep s x s1 Hs E) H).
Qed.

Lemma for_gen_preserves {A S : Type} (P : S -> Prop) (body : S -> A -> res S) :
  (forall s x s', P s -> body s x = Ok s' -> P s') ->
  forall g s s', P s -> for_gen body g s = Ok s' -> P s'.
Proof.
  intros Hstep g s s' Hs H. unfold for_gen in H.
  destruct (for_each body (fst g) s) as [s1|e] eqn:E; [|discriminate H].
  cbn [rbind] in H. destruct (snd g); [discriminate H|]. inversion H. subst.
  exact (for_each_preserves P body Hstep (fst g) s s' Hs E).
Qed.

Lemma Ok_inj {A : Type} (x y : A) : Ok x = Ok y -> x = y.
Proof. intros H. injection H as H. exact H. Qed.

(** *** Lowercase names *)

Lemma lower_char_idem (c : ascii) : PyStr.lower_char (PyStr.lower_char c) = PyStr.lower_char c.
Proof. destruct c as [[] [] [] [] [] [] [] []]; reflexivity. Qed.

Lemma lower_idem (s : string) : PyStr.lower (PyStr.lower s) = PyStr.lower s.
Proof.
  induction s as [|c s IH]; [reflexivity|].
  cbn [PyStr.lower]. rewrite lower_char_idem, IH. reflexivity.
Qed.

Lemma length_lower (s : string) : String.length (PyStr.lower s) = String.length s.
Proof. induction s as [|c s IH]; [reflexivity|]. cbn [PyStr.lower String.length]. rewrite IH. reflexivity. Qed.

Lemma lower_substring (s : string) :
  forall n m, PyStr.lower (String.substring n m s) = String.substring n m (PyStr.lower s).
Proof.
  induction s as [|c s IH]; intros n m.
  - destruct n, m; reflexivity.
  - destruct n as [|n].
    + destruct m as [|m]; [reflexivity|].
      cbn [String.substring PyStr.lower]. rewrite IH. reflexivity.
    + cbn [String.substring PyStr.lower]. apply IH.
Qed.

Lemma lower_drop_last (k : nat) (s : string) :
  PyStr.lower s = s -> PyStr.lower (PyStr.drop_last k s) = PyStr.drop_last k s.
Proof.
  intros H. unfold PyStr.drop_last. rewrite lower_substring, H. reflexivity.
Qed.

Lemma REMAP_values_lower (b v : string) : REMAP !! b = Some v -> PyStr.lower v = v.
Proof.
  intros H. unfold REMAP in H. apply elem_of_list_to_map_2 in H.
  apply list_elem_of_In in H. cbn [In] in H.
  repeat (destruct H as [H|H]; [inversion H; reflexivity|]).
  destruct H.
Qed.

Lemma scale_base_lower (kl : string) (num : float) :
  PyStr.lower kl = kl -> PyStr.lower (snd (scale kl num)) = snd (scale kl num).
Proof.
  intros H. unfold scale.
  destruct (PyStr.endswith kl "_cents"); [apply lower_drop_last; exact H|].
  destruct (PyStr.endswith kl "_micros"); [apply lower_drop_last; exact H|].
  destruct (bool_decide (kl ∈ CENTS_LIKE)); exact H.
Qed.

Lemma std_lower (base : string) :
  PyStr.lower base = base ->
  PyStr.lower (default base (REMAP !! base)) = default base (REMAP !! base).
Proof.
  intros H. destruct (REMAP !! base) as [v|] eqn:E; cbn [default].
  - exact (REMAP_values_lower base v E).
  - exact H.
Qed.

(** *** What a field does to the state *)

Lemma process_field_cases (a : args) (date : string) (keyset : gset string)
      (st st' : state) (kv : string * json) :
  process_field a date keyset st kv = Ok st' ->
  st' = st
  \/ st' = note_key (PyStr.lower (fst kv)) st
  \/ exists num base,
       PyStr.lower base = base
       /\ let std := default base (REMAP !! base) in
          let st1 := append_value date std num (note_key (PyStr.lower (fst kv)) st) in
          st' = st1 \/ st' = append_value date base num st1.
Proof.
  destruct kv as [k v]. unfold process_field. cbn [fst].
  destruct (bool_decide (PyStr.lower k ∈ DATE_KEYS) || bool_decide (PyStr.lower k ∈ SKIP_KEYS)).
  { intros H. inversion H. left. reflexivity. }
  destruct (coerce_number v) as [[num|]|e]; cbn [rbind].
  - destruct (bare_suppressed keyset (PyStr.lower k)).
    { intros H. inversion H. right. left. reflexivity. }
    pose proof (scale_base_lower (PyStr.lower k) num (lower_idem k)) as Hl.
    destruct (scale (PyStr.lower k) num) as [num' base]. cbn [snd] in Hl.
    intros H. right. right. exists num', base. split; [exact Hl|].
    cbv zeta.
    destruct (keep_raw a && negb (String.eqb base (default base (REMAP !! base))));
      apply Ok_inj in H; [right|left]; symmetry; exact H.
  - intros H. inversion H. left. reflexivity.
  - intros H. discriminate H.
Qed.

Lemma extends_refl (vbd : gmap string (gmap string (list float))) : extends vbd vbd.
Proof. intros date metric. reflexivity. Qed.

Lemma extends_trans (v1 v2 v3 : gmap string (gmap string (list float))) :
  extends v1 v2 -> extends v2 v3 -> extends v1 v3.
Proof. intros H1 H2 date metric. etrans; [apply H1|apply H2]. Qed.

Lemma extends_append (date metric : string) (x : float) (st : state) :
  extends (values_by_date st) (values_by_date (append_value date metric x st)).
Proof.
  intros date' metric'.
  destruct (decide ((date', metric') = (date, metric))) as [E|E].
  - inversion E. subst. rewrite observed_append_same. exists [x]. reflexivity.
  - rewrite (observed_append_other _ _ _ _ _ _ E). reflexivity.
Qed.

Lemma append_value_other_date (date metric date' : string) (x : float) (st : state) :
  date' <> date ->
  values_by_date (append_value date metric x st) !! date' = values_by_date st !! date'.
Proof.
  intros Hne. unfold append_value. cbn [values_by_date].
  apply lookup_insert_ne. congruence.
Qed.

Lemma record_frame_refl (date : option string) (st : state) : record_frame date st st.
Proof.
  split; [reflexivity|]. split; [reflexivity|]. split; [apply extends_refl|]. reflexivity.
Qed.

Lemma record_frame_trans (date : option string) (s1 s2 s3 : state) :
  record_frame date s1 s2 -> record_frame date s2 s3 -> record_frame date s1 s3.
Proof.
  intros (P1 & R1 & E1 & O1) (P2 & R2 & E2 & O2).
  split; [congruence|]. split; [set_solver|].
  split; [exact (extends_trans _ _ _ E1 E2)|].
  intros date' Hne. rewrite (O2 date' Hne). exact (O1 date' Hne).
Qed.

Lemma record_frame_note_key (date : option string) (kl : string) (st : state) :
  record_frame date st (note_key kl st).
Proof.
  split; [reflexivity|]. split; [cbn [note_key raw_cols]; set_solver|].
  split; [apply extends_refl|]. reflexivity.
Qed.

Lemma record_frame_append (date metric : string) (x : float) (st : state) :
  record_frame (Some date) st (append_value date metric x st).
Proof.
  split; [reflexivity|]. split; [reflexivity|].
  split; [apply extends_append|].
  intros date' Hne. apply append_value_other_date. congruence.
Qed.

Lemma process_field_frame (a : args) (date : string) (keyset : gset string)
      (st st' : state) (kv : string * json) :
  process_field a date keyset st kv = Ok st' -> record_frame (Some date) st st'.
Proof.
  intros H. apply process_field_cases in H.
  destruct H as [->|[->|(num & base & _ & [->| ->])]].
  - apply record_frame_refl.
  - apply record_frame_note_key.
  - eapply record_frame_trans; [apply record_frame_note_key|apply record_frame_append].
  - eapply record_frame_trans; [apply record_frame_note_key|].
    eapply record_frame_trans; apply record_frame_append.
Qed.

Lemma accumulate_record_frame (a : args) (st st' : state) (d : dict) (date : option string) :
  norm_date (tz_offset_hours a) (find_date_val d (keys d)) = Ok date ->
  accumulate_record a st d = Ok st' -> record_frame date st st'.
Proof.
  intros Hd H. unfold accumulate_record in H. rewrite Hd in H. cbn [rbind] in H.
  destruct date as [[|c r]|].
  - inversion H. apply record_frame_refl.
  - revert H. apply (for_each_preserves (record_frame (Some (String c r)) st)).
    + intros s x s' Hs Hx. eapply record_frame_trans; [exact Hs|].
      exact (process_field_frame _ _ _ _ _ _ Hx).
    + apply record_frame_refl.
  - inversion H. apply record_frame_refl.
Qed.

(** X9. One record changes little: the count of parsed files stays, no
    raw column is forgotten, every list of observations keeps what it had
    and only grows at its end, and no date other than the record's own is
    touched. *)
Theorem record_only_appends_under_its_date (a : args) (st st' : state) (d : dict) :
  process_record a st d = Ok st' ->
  parsed st' = parsed st
  /\ raw_cols st ⊆ raw_cols st'
  /\ (forall dt m, observed (values_by_date st) dt m
                     `prefix_of` observed (values_by_date st') dt m)
  /\ (forall dt, norm_date (tz_offset_hours a) (find_date_val d (keys d)) <> Ok (Some dt) ->
        values_by_date st' !! dt = values_by_date st !! dt).
Proof.
  intros H. unfold process_record in H.
  destruct (negb (include_range_totals a) && looks_like_range_total d).
  { inversion H. subst. destruct (record_frame_refl None st') as (P & R & E & _).
    split; [exact P|]. split; [exact R|]. split; [exact E|]. reflexivity. }
  destruct (norm_date (tz_offset_hours a) (find_date_val d (keys d))) as [date|e] eqn:Hd.
  - destruct (accumulate_record_frame a st st' d date Hd H) as (P & R & E & O).
    split; [exact P|]. split; [exact R|]. split; [exact E|].
    intros dt Hne. apply O. congruence.
  - unfold accumulate_record in H. rewrite Hd in H. discriminate H.
Qed.

Lemma record_only_appends_under_its_date_witness :
  exists st',
    process_record default_args init_state record_spend = Ok st'
    /\ parsed st' = 0%nat
    /\ values_by_date st' !! "2024-03-06" = None.
Proof.
  destruct (process_record default_args init_state record_spend) as [st'|e] eqn:E.
  - exists st'. split; [reflexivity|].
    destruct (record_only_appends_under_its_date default_args init_state st' record_spend E)
      as (P & _ & _ & O).
    split; [exact P|]. rewrite (O "2024-03-06"); [reflexivity|].
    vm_compute. intros H. discriminate H.
  - exfalso. vm_compute in E. discriminate E.
Defined.

(** *** The keys of the table *)

Lemma well_keyed_append (date metric : string) (x : float) (st : state) :
  is_iso_date_text date = true -> PyStr.lower metric = metric ->
  well_keyed (values_by_date st) ->
  well_keyed (values_by_date (append_value date metric x st)).
Proof.
  intros Hdate Hm Hwk date' ms Hl. unfold append_value in Hl. cbn [values_by_date] in Hl.
  destruct (decide (date = date')) as [<-|Hne].
  - rewrite lookup_insert_eq in Hl. inversion Hl as [Hms]. clear Hl.
    split; [exact Hdate|]. split; [apply insert_non_empty|].
    intros m l Hml. destruct (decide (metric = m)) as [<-|Hnm].
    + rewrite lookup_insert_eq in Hml. inversion Hml. split; [exact Hm|].
      intros Hnil. apply app_eq_nil in Hnil as [_ Hnil]. discriminate Hnil.
    + rewrite lookup_insert_ne in Hml by exact Hnm.
      destruct (values_by_date st !! date) as [ms0|] eqn:E0; cbn [default] in Hml.
      * destruct (Hwk date ms0 E0) as (_ & _ & Hk). exact (Hk m l Hml).
      * rewrite lookup_empty in Hml. discriminate Hml.
  - rewrite lookup_insert_ne in Hl by exact Hne. exact (Hwk date' ms Hl).
Qed.

Lemma process_field_well_keyed (a : args) (date : string) (keyset : gset string)
      (st st' : state) (kv : string * json) :
  is_iso_date_text date = true ->
  well_keyed (values_by_date st) ->
  process_field a date keyset st kv = Ok st' -> well_keyed (values_by_date st').
Proof.
  intros Hdate Hwk H. apply process_field_cases in H.
  destruct H as [->|[->|(num & base & Hb & [->| ->])]].
  - exact Hwk.
  - exact Hwk.
  - apply well_keyed_append; [exact Hdate|apply std_lower; exact Hb|exact Hwk].
  - apply well_keyed_append; [exact Hdate|exact Hb|].
    apply well_keyed_append; [exact Hdate|apply std_lower; exact Hb|exact Hwk].
Qed.

Lemma process_record_well_keyed (a : args) (st st' : state) (d : dict) :
  well_keyed (values_by_date st) ->
  process_record a st d = Ok st' -> well_keyed (values_by_date st').
Proof.
  intros Hwk H. unfold process_record in H.
  destruct (negb (include_range_totals a) && looks_like_range_total d).
  { inversion H. subst. exact Hwk. }
  unfold accumulate_record in H.
  destruct (norm_date (tz_offset_hours a) (find_date_val d (keys d))) as [date|e] eqn:Hd;
    [|discriminate H].
  cbn [rbind] in H. destruct date as [[|c r]|].
  - inversion H. subst. exact Hwk.
  - apply norm_date_shape in Hd. revert H.
    apply (for_each_preserves (fun s => well_keyed (values_by_date s))); [|exact Hwk].
    intros s x s' Hs Hx. exact (process_field_well_keyed _ _ _ _ _ _ Hd Hs Hx).
  - inversion H. subst. exact Hwk.
Qed.

Lemma process_file_well_keyed (a : args) (limit : nat) (st st' : state) (f : source) :
  well_keyed (values_by_date st) ->
  process_file a limit st f = Ok st' -> well_keyed (values_by_date st').
Proof.
  intros Hwk H. destruct f as [|data]; cbn [process_file] in H.
  - inversion H. subst. exact Hwk.
  - revert H. apply (for_gen_preserves (fun s => well_keyed (values_by_date s))); [|exact Hwk].
    intros s x s' Hs Hx. exact (process_record_well_keyed _ _ _ _ Hs Hx).
Qed.

Lemma harvest_well_keyed (a : args) (limit : nat) (files : list source) (st : state) :
  harvest a limit files = Ok st -> well_keyed (values_by_date st).
Proof.
  unfold harvest.
  apply (for_each_preserves (fun s => well_keyed (values_by_date s))).
  - intros s x s' Hs Hx. exact (process_file_well_keyed _ _ _ _ _ Hs Hx).
  - intros date ms Hl. cbn [init_state values_by_date] in Hl.
    rewrite lookup_empty in Hl. discriminate Hl.
Qed.

(** X10. After any run of the loop the table is keyed as the loop keys
    it: every date has the form dddd-dd-dd, every metric name is in
    lower case, and no date or metric is there without an observation. *)
Theorem harvest_keys_are_dates_and_lowercase_names
        (a : args) (limit : nat) (files : list source) (st : state) :
  harvest a limit files = Ok st ->
  forall date ms, values_by_date st !! date = Some ms ->
    is_iso_date_text date = true
    /\ ms <> ∅
    /\ forall m l, ms !! m = Some l -> PyStr.lower m = m /\ l <> [].
Proof. intros H. exact (harvest_well_keyed a limit files st H). Qed.

Lemma process_file_extends (a : args) (limit : nat) (st st' : state) (f : source) :
  process_file a limit st f = Ok st' ->
  extends (values_by_date st) (values_by_date st').
Proof.
  intros H. destruct f as [|data]; cbn [process_file] in H.
  - inversion H. apply extends_refl.
  - revert H.
    apply (for_gen_preserves (fun s => extends (values_by_date st) (values_by_date s))).
    + intros s x s' Hs Hx. eapply extends_trans; [exact Hs|].
      unfold process_record in Hx.
      destruct (negb (include_range_totals a) && looks_like_range_total x).
      { inversion Hx. apply extends_refl. }
      destruct (norm_date (tz_offset_hours a) (find_date_val x (keys x))) as [date|e] eqn:Hd.
      * destruct (accumulate_record_frame a s s' x date Hd Hx) as (_ & _ & E & _). exact E.
      * unfold accumulate_record in Hx. rewrite Hd in Hx. discriminate Hx.
    + apply extends_refl.
Qed.

(** X11. Files read later never take away from what files read earlier
    gave: the observations of a run over [files] are, list by list, the
    beginning of those of a run over [files ++ more]. *)
Theorem later_files_only_add (a : args) (limit : nat) (files more : list source)
        (st st' : state) :
  harvest a limit files = Ok st ->
  harvest a limit (files ++ more) = Ok st' ->
  forall date metric,
    observed (values_by_date st) date metric
      `prefix_of` observed (values_by_date st') date metric.
Proof.
  unfold harvest. intros H H'. rewrite for_each_app, H in H'. cbn [rbind] in H'.
  revert H'.
  apply (for_each_preserves (fun s => extends (values_by_date st) (values_by_date s))).
  - intros s x s' Hs Hx. eapply extends_trans; [exact Hs|].
    exact (process_file_extends _ _ _ _ _ Hx).
  - apply extends_refl.
Qed.

Lemma harvest_keys_are_dates_and_lowercase_names_witness :
  exists st,
    harvest default_args 4 [Loaded doc_A] = Ok st
    /\ forall date ms, values_by_date st !! date = Some ms ->
         is_iso_date_text date = true
         /\ ms <> ∅
         /\ forall m l, ms !! m = Some l -> PyStr.lower m = m /\ l <> [].
Proof.
  destruct (harvest default_args 4 [Loaded doc_A]) as [st|e] eqn:E.
  - exists st. split; [reflexivity|].
    exact (harvest_keys_are_dates_and_lowercase_names default_args 4 [Loaded doc_A] st E).
  - exfalso. vm_compute in E. discriminate E.
Defined.

Lemma later_files_only_add_witness :
  exists st st',
    harvest default_args 4 [Loaded doc_A] = Ok st
    /\ harvest default_args 4 ([Loaded doc_A] ++ [Skipped; Loaded doc_A]) = Ok st'
    /\ forall date metric,
         observed (values_by_date st) date metric
           `prefix_of` observed (values_by_date st') date metric.
Proof.
  destruct (harvest default_args 4 [Loaded doc_A]) as [st|e] eqn:E;
    [|exfalso; vm_compute in E; discriminate E].
  destruct (harvest default_args 4 ([Loaded doc_A] ++ [Skipped; Loaded doc_A]))
    as [st'|e] eqn:E'; [|exfalso; vm_compute in E'; discriminate E'].
  exists st, st'. split; [reflexivity|]. split; [reflexivity|].
  exact (later_files_only_add default_args 4 [Loaded doc_A] [Skipped; Loaded doc_A] st st' E E').
Defined.

(** ** The written table *)

(** *** The order of texts *)

Lemma str_lt_trans (x y z : string) : str_lt x y -> str_lt y z -> str_lt x z.
Proof.
  unfold str_lt, String.ltb. intros H1 H2.
  destruct (String.compare x y) eqn:E1; try discriminate H1.
  destruct (String.compare y z) eqn:E2; try discriminate H2.
  apply OrderedTypeEx.String_as_OT.cmp_lt in E1, E2.
  pose proof (OrderedTypeEx.String_as_OT.lt_trans _ _ _ E1 E2) as E3.
  apply OrderedTypeEx.String_as_OT.cmp_lt in E3.
  unfold OrderedTypeEx.String_as_OT.cmp in E3. rewrite E3. reflexivity.
Qed.

Lemma str_lt_total (x y : string) : String.ltb x y = false -> x <> y -> str_lt y x.
Proof.
  unfold str_lt, String.ltb. intros H Hne. rewrite String.compare_antisym.
  destruct (String.compare x y) eqn:E.
  - apply String.compare_eq_iff in E. contradiction.
  - discriminate H.
  - reflexivity.
Qed.

#[local] Instance str_lt_transitive : Transitive str_lt.
Proof. intros x y z. apply str_lt_trans. Qed.

(** *** Insertion sort *)

Lemma insert_sorted_perm {A : Type} (lt : A -> A -> bool) (x : A) (l : list A) :
  insert_sorted lt x l ≡ₚ x :: l.
Proof.
  induction l as [|y t IH]; cbn [insert_sorted]; [reflexivity|].
  destruct (lt x y); [reflexivity|]. rewrite IH. apply Permutation_swap.
Qed.

Lemma sorted_perm_acc {A : Type} (lt : A -> A -> bool) (l : list A) :
  forall acc, fold_left (fun acc x => insert_sorted lt x acc) l acc ≡ₚ l ++ acc.
Proof.
  induction l as [|x l IH]; intros acc; cbn [fold_left]; [reflexivity|].
  rewrite IH, insert_sorted_perm. cbn [app]. symmetry. apply Permutation_middle.
Qed.

Lemma sorted_perm {A : Type} (lt : A -> A -> bool) (l : list A) : sorted lt l ≡ₚ l.
Proof. unfold sorted. rewrite sorted_perm_acc, app_nil_r. reflexivity. Qed.

Lemma insert_sorted_hd (x y : string) (l : list string) :
  str_lt y x -> HdRel str_lt y l -> HdRel str_lt y (insert_sorted String.ltb x l).
Proof.
  intros Hyx Hl. destruct l as [|z t]; cbn [insert_sorted].
  - constructor. exact Hyx.
  - destruct (String.ltb x z); constructor; [exact Hyx|].
    inversion Hl. assumption.
Qed.

Lemma insert_sorted_Sorted (x : string) (l : list string) :
  x ∉ l -> Sorted str_lt l -> Sorted str_lt (insert_sorted String.ltb x l).
Proof.
  induction l as [|y t IH]; intros Hx Hs; cbn [insert_sorted].
  - repeat constructor.
  - destruct (String.ltb x y) eqn:E.
    + constructor; [exact Hs|]. constructor. exact E.
    + inversion Hs as [|? ? Hs' Hhd]. subst. constructor.
      * apply IH; [|exact Hs']. intros Hin. apply Hx. right. exact Hin.
      * apply insert_sorted_hd; [|exact Hhd].
        apply str_lt_total; [exact E|]. intros ->. apply Hx. left.
Qed.

Lemma sorted_Sorted_acc (l : list string) :
  forall acc, NoDup (l ++ acc) -> Sorted str_lt acc ->
    Sorted str_lt (fold_left (fun acc x => insert_sorted String.ltb x acc) l acc).
Proof.
  induction l as [|x l IH]; intros acc Hnd Hs; cbn [fold_left]; [exact Hs|].
  cbn [app] in Hnd. apply NoDup_cons in Hnd as [Hx Hnd].
  apply IH.
  - rewrite insert_sorted_perm. apply NoDup_app in Hnd as (Hl & Hdisj & Hacc).
    apply NoDup_app. split; [exact Hl|]. split.
    + intros z Hz Hin. apply elem_of_cons in Hin as [->|Hin].
      * apply Hx. apply elem_of_app. left. exact Hz.
      * exact (Hdisj z Hz Hin).
    + apply NoDup_cons. split; [|exact Hacc].
      intros Hin. apply Hx. apply elem_of_app. right. exact Hin.
  - apply insert_sorted_Sorted; [|exact Hs].
    intros Hin. apply Hx. apply elem_of_app. right. exact Hin.
Qed.

Lemma sorted_ascending (l : list string) :
  NoDup l -> StronglySorted str_lt (sorted String.ltb l).
Proof.
  intros Hnd. apply Sorted_StronglySorted; [apply str_lt_transitive|].
  unfold sorted. apply sorted_Sorted_acc; [rewrite app_nil_r; exact Hnd|constructor].
Qed.

(** *** Rows *)

Lemma main_wrote (a : args) (limit : nat) (files : list source)
      (h : list string) (rows : list (list cell)) :
  main a limit files = Ok (Wrote h rows) ->
  exists st,
    harvest a limit files = Ok st
    /\ values_by_date st <> ∅
    /\ h = header a (values_by_date st)
    /\ build_rows a (values_by_date st)
         (sorted String.ltb (elements (dom (values_by_date st)))) = Ok rows.
Proof.
  unfold main. destruct files as [|f files]; [intros H; discriminate H|].
  destruct (harvest a limit (f :: files)) as [st|e]; [|intros H; discriminate H].
  cbn [rbind]. destruct (bool_decide (values_by_date st = ∅)) eqn:E.
  { intros H. discriminate H. }
  apply bool_decide_eq_false_1 in E.
  destruct (build_rows a (values_by_date st) _) as [rows'|e] eqn:Hr;
    [|intros H; discriminate H].
  cbn [rbind]. intros H. apply Ok_inj in H. injection H as Hh Hrows. subst h rows.
  exists st. split; [reflexivity|]. split; [exact E|]. split; [reflexivity|exact Hr].
Qed.

(** The dates of the rows: those of the table, ascending. *)
Lemma table_dates (a : args) (limit : nat) (files : list source) (st : state) :
  harvest a limit files = Ok st ->
  let dates := sorted String.ltb (elements (dom (values_by_date st))) in
  StronglySorted str_lt dates
  /\ Forall (fun d => is_iso_date_text d = true) dates
  /\ (forall d, d ∈ dates <-> exists m x, x ∈ observed (values_by_date st) d m)
  /\ (values_by_date st <> ∅ -> dates <> []).
Proof.
  intros Hh dates.
  pose proof (harvest_well_keyed a limit files st Hh) as Hwk.
  assert (Hin : forall d, d ∈ dates <-> is_Some (values_by_date st !! d)).
  { intros d. unfold dates. rewrite sorted_perm, elem_of_elements, elem_of_dom. reflexivity. }
  split; [|split; [|split]].
  - apply sorted_ascending. apply NoDup_elements.
  - apply Forall_forall. intros d Hd. apply Hin in Hd as [ms Hms].
    destruct (Hwk d ms Hms) as [Hiso _]. exact Hiso.
  - intros d. rewrite Hin. split.
    + intros [ms Hms]. destruct (Hwk d ms Hms) as (_ & Hnonempty & Hlists).
      destruct (map_choose ms Hnonempty) as (m & l & Hml).
      destruct (Hlists m l Hml) as [_ Hl].
      destruct l as [|x l]; [contradiction|].
      exists m, x. unfold observed. rewrite Hms. cbn [from_option id]. rewrite Hml.
      cbn [from_option id]. left.
    + intros (m & x & Hx). unfold observed in Hx.
      destruct (values_by_date st !! d) as [ms|]; [eauto|].
      cbn [from_option id] in Hx. rewrite lookup_empty in Hx.
      cbn [from_option id] in Hx. inversion Hx.
  - intros Hne Hnil. apply Hne. apply map_empty. intros d.
    destruct (values_by_date st !! d) as [ms|] eqn:E; [|reflexivity].
    exfalso. assert (Hd : d ∈ dates) by (apply Hin; eauto).
    rewrite Hnil in Hd. inversion Hd.
Qed.

(** The value of a key after numbers with distinct names are assigned. *)
Lemma row_lookup_assign (kvs : row) (k : string) :
  NoDup (map fst kvs) ->
  forall r, row_lookup (assign r kvs) k
            = if in_list k (map fst kvs) then Some (Num (row_get kvs k)) else row_lookup r k.
Proof.
  induction kvs as [|[c x] kvs IH]; intros Hnd r; [reflexivity|].
  cbn [map fst] in Hnd. apply NoDup_cons in Hnd as [Hc Hnd].
  rewrite assign_cons, (IH Hnd). cbn [map fst row_get].
  unfold in_list. cbn [existsb]. fold (in_list k (map fst kvs)).
  destruct (in_list k (map fst kvs)) eqn:Ein.
  - rewrite orb_true_r. destruct (String.eqb c k) eqn:E; [|reflexivity].
    apply String.eqb_eq in E. subst c. exfalso. apply Hc.
    unfold in_list in Ein. apply existsb_exists in Ein as (y & Hy & Hky).
    apply String.eqb_eq in Hky. subst y. apply list_elem_of_In. exact Hy.
  - rewrite orb_false_r, row_lookup_set, (String.eqb_sym k c).
    destruct (String.eqb c k); reflexivity.
Qed.

Lemma header_names (a : args) (vbd : gmap string (gmap string (list float))) (k : string) :
  k ∈ header a vbd ->
  k = "date" \/ in_list k (standard_order ++ other_cols vbd) = true
  \/ (derived a = true /\ in_list k DERIVED_COLS = true).
Proof.
  unfold header. intros Hk.
  assert (Hin : forall l, k ∈ l -> in_list k l = true).
  { intros l Hl. unfold in_list. apply existsb_exists. exists k.
    split; [apply list_elem_of_In; exact Hl|apply String.eqb_refl]. }
  apply elem_of_app in Hk as [Hk|Hk].
  { apply list_elem_of_singleton in Hk. left. exact Hk. }
  rewrite app_assoc in Hk. apply elem_of_app in Hk as [Hk|Hk].
  { right. left. apply Hin. exact Hk. }
  right. right. destruct (derived a); [|inversion Hk].
  split; [reflexivity|]. apply Hin. exact Hk.
Qed.

Lemma DERIVED_COLS_NoDup : NoDup DERIVED_COLS.
Proof.
  unfold DERIVED_COLS.
  repeat (apply NoDup_cons; split;
          [rewrite ?elem_of_cons, elem_of_nil; intros H;
           repeat (destruct H as [H|H]; [discriminate H|]); exact H|]).
  apply NoDup_nil. exact I.
Qed.

(** A written row shows, column by column, what [shown] says. *)
Lemma build_row_shown (a : args) (vbd : gmap string (gmap string (list float)))
      (d : string) (r : csv_row) :
  build_row a (other_cols vbd) d (default ∅ (vbd !! d)) = Ok r ->
  written (header a vbd) r = map (shown a vbd d) (header a vbd).
Proof.
  intros H. unfold written. apply map_ext_in. intros k Hk.
  apply list_elem_of_In, header_names in Hk.
  unfold build_row in H. unfold shown.
  set (mm := default ∅ (vbd !! d)) in *.
  set (policy := aggregate_policy a) in *.
  pose proof (reduced_dict_lookup policy (other_cols vbd) d mm k) as Hlook.
  change (observed vbd d k) with (default [] (mm !! k)).
  destruct (derived a) eqn:Hder.
  - rewrite derived_metrics_dict in H.
    pose proof (derived_metrics_reduced policy mm standard_order) as Hdm.
    cbv zeta in Hdm. rewrite Hdm in H |- *. cbn [rbind] in H. apply Ok_inj in H. subst r.
    rewrite row_lookup_assign by (cbn [map fst]; exact DERIVED_COLS_NoDup).
    cbn [andb]. change (map fst _) with DERIVED_COLS.
    destruct (in_list k DERIVED_COLS) eqn:Ed; [reflexivity|].
    rewrite Hlook.
    destruct (in_list k (standard_order ++ other_cols vbd)); [reflexivity|].
    destruct Hk as [->|[Hk|[_ Hk]]]; [reflexivity|discriminate Hk|discriminate Hk].
  - apply Ok_inj in H. subst r. cbn [andb]. rewrite Hlook.
    destruct (in_list k (standard_order ++ other_cols vbd)); [reflexivity|].
    destruct Hk as [->|[Hk|[Hk _]]]; [reflexivity|discriminate Hk|discriminate Hk].
Qed.

Lemma build_rows_shown (a : args) (vbd : gmap string (gmap string (list float)))
      (dates : list string) :
  forall rows, build_rows a vbd dates = Ok rows ->
    rows = map (fun d => map (shown a vbd d) (header a vbd)) dates.
Proof.
  induction dates as [|d rest IH]; intros rows H; cbn [build_rows] in H.
  - apply Ok_inj in H. subst. reflexivity.
  - destruct (build_row a (other_cols vbd) d (default ∅ (vbd !! d))) as [r|e] eqn:Er;
      [|discriminate H].
    cbn [rbind] in H.
    destruct (build_rows a vbd rest) as [rs|e]; [|discriminate H].
    cbn [rbind] in H. apply Ok_inj in H. subst rows. cbn [map].
    rewrite (build_row_shown a vbd d r Er), (IH rs eq_refl). reflexivity.
Qed.

(** *** Columns *)

Lemma elem_of_observed_metrics (vbd : gmap string (gmap string (list float))) (c : string) :
  c ∈ map_fold (fun (_ : string) (metrics : gmap string (list float)) (acc : gset string) =>
                  dom metrics ∪ acc) ∅ vbd
  <-> exists date ms, vbd !! date = Some ms /\ is_Some (ms !! c).
Proof.
  apply (map_fold_weak_ind
           (fun (acc : gset string) (m : gmap string (gmap string (list float))) =>
              c ∈ acc <-> exists date ms, m !! date = Some ms /\ is_Some (ms !! c))).
  - split; [intros H; apply not_elem_of_empty in H; destruct H|].
    intros (date & ms & H & _). rewrite lookup_empty in H. discriminate H.
  - intros i x m r Hi IH. rewrite elem_of_union, elem_of_dom, IH. split.
    + intros [Hx|(date & ms & Hl & Hs)].
      * exists i, x. rewrite lookup_insert_eq. split; [reflexivity|exact Hx].
      * exists date, ms. split; [|exact Hs].
        rewrite lookup_insert_ne; [exact Hl|]. intros ->. rewrite Hi in Hl. discriminate Hl.
    + intros (date & ms & Hl & Hs). destruct (decide (i = date)) as [->|Hne].
      * rewrite lookup_insert_eq in Hl. inversion Hl. subst. left. exact Hs.
      * rewrite lookup_insert_ne in Hl by exact Hne. right. eauto.
Qed.

Lemma in_list_spec (x : string) (l : list string) : in_list x l = true <-> x ∈ l.
Proof.
  unfold in_list. rewrite existsb_exists. split.
  - intros (y & Hy & E). apply String.eqb_eq in E. subst. apply list_elem_of_In. exact Hy.
  - intros H. exists x. split; [apply list_elem_of_In; exact H|apply String.eqb_refl].
Qed.

Lemma other_cols_spec (vbd : gmap string (gmap string (list float))) :
  StronglySorted str_lt (other_cols vbd)
  /\ forall c, c ∈ other_cols vbd <->
       ((c ∉ standard_order) /\ exists date ms, vbd !! date = Some ms /\ is_Some (ms !! c)).
Proof.
  split.
  - unfold other_cols. apply sorted_ascending. apply NoDup_filter, NoDup_elements.
  - intros c. unfold other_cols.
    rewrite sorted_perm, list_elem_of_filter, elem_of_elements.
    unfold all_cols. rewrite elem_of_union, elem_of_observed_metrics, elem_of_list_to_set.
    rewrite <- not_true_iff_false, in_list_spec.
    split.
    + intros [Hns [H|Hs]]; [|contradiction]. split; assumption.
    + intros [Hns H]. split; [exact Hns|left; exact H].
Qed.

Lemma observed_well_keyed (vbd : gmap string (gmap string (list float))) (c : string) :
  well_keyed vbd ->
  (exists date ms, vbd !! date = Some ms /\ is_Some (ms !! c))
  <-> exists date x, x ∈ observed vbd date c.
Proof.
  intros Hwk. split.
  - intros (date & ms & Hl & [l Hml]). destruct (Hwk date ms Hl) as (_ & _ & Hlists).
    destruct (Hlists c l Hml) as [_ Hne]. destruct l as [|x l]; [contradiction|].
    exists date, x. unfold observed. rewrite Hl. cbn [from_option id]. rewrite Hml.
    cbn [from_option id]. left.
  - intros (date & x & Hx). unfold observed in Hx.
    destruct (vbd !! date) as [ms|] eqn:E.
    + cbn [from_option id] in Hx. exists date, ms. split; [exact E|].
      destruct (ms !! c) as [l|]; [eauto|]. cbn [from_option id] in Hx. inversion Hx.
    + cbn [from_option id] in Hx. rewrite lookup_empty in Hx.
      cbn [from_option id] in Hx. inversion Hx.
Qed.

(** X13. The header of a written table is the date, the five standard
    columns, then the other columns, then the derived columns when they are
    asked for.  The other columns are exactly the metric names that have an
    observation on some date and are not standard, each once, in strictly
    ascending order. *)
Theorem header_lists_the_observed_metrics
        (a : args) (limit : nat) (files : list source)
        (h : list string) (rows : list (list cell)) :
  main a limit files = Ok (Wrote h rows) ->
  exists st others,
    harvest a limit files = Ok st
    /\ h = "date" :: standard_order ++ others ++ (if derived a then DERIVED_COLS else [])
    /\ StronglySorted str_lt others
    /\ forall c, c ∈ others <->
         ((c ∉ standard_order) /\ exists date x, x ∈ observed (values_by_date st) date c).
Proof.
  intros H. apply main_wrote in H as (st & Hh & _ & -> & _).
  exists st, (other_cols (values_by_date st)).
  destruct (other_cols_spec (values_by_date st)) as [Hs Hc].
  split; [exact Hh|]. split; [reflexivity|]. split; [exact Hs|].
  intros c. rewrite Hc.
  rewrite (observed_well_keyed _ c (harvest_well_keyed a limit files st Hh)). reflexivity.
Qed.

Lemma header_lists_the_observed_metrics_witness :
  exists h rows st others,
    main default_args 4 [Loaded (JDict record_spend)] = Ok (Wrote h rows)
    /\ harvest default_args 4 [Loaded (JDict record_spend)] = Ok st
    /\ h = "date" :: standard_order ++ others
    /\ StronglySorted str_lt others.
Proof.
  destruct (main default_args 4 [Loaded (JDict record_spend)]) as [[s|h rows]|e] eqn:E.
  - exfalso. vm_compute in E. discriminate E.
  - destruct (header_lists_the_observed_metrics default_args 4 [Loaded (JDict record_spend)]
                h rows E) as (st & others & H1 & H2 & H3 & _).
    exists h, rows, st, others. split; [reflexivity|]. split; [exact H1|].
    split; [|exact H3]. rewrite H2. cbn [derived default_args]. rewrite app_nil_r. reflexivity.
  - exfalso. vm_compute in E. discriminate E.
Defined.

(** *** The rows and their dates *)

Lemma date_is_a_metric (vbd : gmap string (gmap string (list float))) :
  well_keyed vbd ->
  in_list "date" (standard_order ++ other_cols vbd) = true
  <-> exists d x, x ∈ observed vbd d "date".
Proof.
  intros Hwk. destruct (other_cols_spec vbd) as [_ Hc].
  rewrite <- (observed_well_keyed vbd "date" Hwk).
  unfold in_list. rewrite existsb_app, orb_true_iff, !existsb_exists. split.
  - intros [(y & Hy & E)|(y & Hy & E)]; apply String.eqb_eq in E; subst y.
    + exfalso. unfold standard_order in Hy. cbn [In] in Hy.
      repeat (destruct Hy as [Hy|Hy]; [discriminate Hy|]). exact Hy.
    + apply list_elem_of_In, Hc in Hy as [_ Hy]. exact Hy.
  - intros H. right. exists "date". split; [|reflexivity].
    apply list_elem_of_In, Hc. split; [|exact H].
    intros Hin. apply list_elem_of_In in Hin. unfold standard_order in Hin. cbn [In] in Hin.
    repeat (destruct Hin as [Hin|Hin]; [discriminate Hin|]). exact Hin.
Qed.

(** X12. The rows of a written table follow the dates that have an
    observation, one row for each, in strictly ascending order; there is at
    least one, and each of these dates has the form dddd-dd-dd.  The first
    cell of a row is its date, unless some field gave a metric named
    [date] (a key such as [date_cents]): then the first cell of every row
    is a number. *)
Theorem rows_are_the_dates_in_ascending_order
        (a : args) (limit : nat) (files : list source)
        (h : list string) (rows : list (list cell)) :
  main a limit files = Ok (Wrote h rows) ->
  exists st dates,
    harvest a limit files = Ok st
    /\ dates <> []
    /\ StronglySorted str_lt dates
    /\ Forall (fun d => is_iso_date_text d = true) dates
    /\ (forall d, d ∈ dates <-> exists m x, x ∈ observed (values_by_date st) d m)
    /\ length rows = length dates
    /\ ((forall d x, x ∉ observed (values_by_date st) d "date") ->
          map head rows = map (fun d => Some (Text d)) dates)
    /\ ((exists d x, x ∈ observed (values_by_date st) d "date") ->
          Forall (fun line => exists x, head line = Some (Num x)) rows).
Proof.
  intros H. apply main_wrote in H as (st & Hh & Hne & -> & Hr).
  destruct (table_dates a limit files st Hh) as (Hsorted & Hiso & Hin & Hnil).
  pose proof (harvest_well_keyed a limit files st Hh) as Hwk.
  apply build_rows_shown in Hr.
  set (dates := sorted String.ltb (elements (dom (values_by_date st)))) in *.
  exists st, dates.
  split; [exact Hh|]. split; [exact (Hnil Hne)|]. split; [exact Hsorted|].
  split; [exact Hiso|]. split; [exact Hin|].
  assert (Hhead : forall d, head (map (shown a (values_by_date st) d)
                                       (header a (values_by_date st)))
                            = Some (shown a (values_by_date st) d "date")).
  { intros d. reflexivity. }
  assert (Hdate : forall d, shown a (values_by_date st) d "date"
                            = if in_list "date" (standard_order ++ other_cols (values_by_date st))
                              then Num (round6 (reduce_vals (observed (values_by_date st) d "date")
                                                            (aggregate_policy a)))
                              else Text d).
  { intros d. unfold shown.
    change (in_list "date" DERIVED_COLS) with false. rewrite andb_false_r. reflexivity. }
  pose proof (date_is_a_metric (values_by_date st) Hwk) as Hmetric.
  split; [rewrite Hr; apply length_map|]. split.
  - intros Hnone. rewrite Hr, map_map. apply map_ext. intros d.
    rewrite Hhead, Hdate.
    destruct (in_list "date" (standard_order ++ other_cols (values_by_date st))) eqn:E;
      [|reflexivity].
    exfalso. destruct (proj1 Hmetric eq_refl) as (d' & x & Hx). exact (Hnone d' x Hx).
  - intros Hsome. apply Hmetric in Hsome. rewrite Hr. apply Forall_forall.
    intros line Hline. apply list_elem_of_fmap in Hline as (d & -> & _).
    rewrite Hhead, Hdate, Hsome. eauto.
Qed.

Lemma rows_are_the_dates_in_ascending_order_witness :
  exists h rows st dates,
    main default_args 4 [Loaded doc_A; Skipped] = Ok (Wrote h rows)
    /\ harvest default_args 4 [Loaded doc_A; Skipped] = Ok st
    /\ dates <> []
    /\ StronglySorted str_lt dates
    /\ length rows = length dates.
Proof.
  destruct (main default_args 4 [Loaded doc_A; Skipped]) as [[s|h rows]|e] eqn:E.
  - exfalso. vm_compute in E. discriminate E.
  - destruct (rows_are_the_dates_in_ascending_order default_args 4 [Loaded doc_A; Skipped]
                h rows E) as (st & dates & H1 & H2 & H3 & _ & _ & H4 & _).
    exists h, rows, st, dates. split; [reflexivity|]. split; [exact H1|].
    split; [exact H2|]. split; [exact H3|exact H4].
  - exfalso. vm_compute in E. discriminate E.
Defined.

(** *** Cells *)

(** X14. Every cell of a written table, row by row and column by column.
    Under a derived column, when the derived columns are asked for, the
    cell is the ratio computed from the five standard numbers of the date,
    also in a metric column of the same name.  Under any other metric
    column it is the reduction, under the chosen policy, of what was
    observed for the date and the column, rounded to six places, so 0.0
    when nothing was observed; this also holds for a column of a metric
    named [date].  Else it is the date.  (For the policy "median" the
    observations are taken to be without NaN.) *)
Theorem cells_are_rounded_reductions
        (a : args) (limit : nat) (files : list source) (st : state)
        (h : list string) (rows : list (list cell)) :
  main a limit files = Ok (Wrote h rows) ->
  harvest a limit files = Ok st ->
  (aggregate_policy a = "median" ->
   forall d k x, x ∈ observed (values_by_date st) d k -> not_nan x) ->
  exists dates,
    StronglySorted str_lt dates
    /\ (forall d, d ∈ dates <-> exists m x, x ∈ observed (values_by_date st) d m)
    /\ rows = map (fun d => map (shown a (values_by_date st) d) h) dates
    /\ (forall d k, observed (values_by_date st) d k = [] ->
          derived a && in_list k DERIVED_COLS = false ->
          in_list k (standard_order ++ other_cols (values_by_date st)) = true ->
          shown a (values_by_date st) d k = Num fzero).
Proof.
  intros H Hh _. apply main_wrote in H as (st' & Hh' & _ & -> & Hr).
  rewrite Hh in Hh'. apply Ok_inj in Hh'. subst st'.
  destruct (table_dates a limit files st Hh) as (Hsorted & _ & Hin & _).
  exists (sorted String.ltb (elements (dom (values_by_date st)))).
  split; [exact Hsorted|]. split; [exact Hin|].
  split; [exact (build_rows_shown a _ _ rows Hr)|].
  intros d k Hnone Hder Hk. unfold shown. rewrite Hder, Hk, Hnone. reflexivity.
Qed.

Lemma cells_are_rounded_reductions_witness :
  exists h rows st dates,
    main (mkargs true false 0 "sum" false) 4 [Loaded (JDict record_spend)] = Ok (Wrote h rows)
    /\ harvest (mkargs true false 0 "sum" false) 4 [Loaded (JDict record_spend)] = Ok st
    /\ rows = map (fun d => map (shown (mkargs true false 0 "sum" false)
                                       (values_by_date st) d) h) dates.
Proof.
  destruct (main (mkargs true false 0 "sum" false) 4 [Loaded (JDict record_spend)])
    as [[s|h rows]|e] eqn:E;
    [exfalso; vm_compute in E; discriminate E| |exfalso; vm_compute in E; discriminate E].
  destruct (harvest (mkargs true false 0 "sum" false) 4 [Loaded (JDict record_spend)])
    as [st|e] eqn:Eh; [|exfalso; vm_compute in Eh; discriminate Eh].
  destruct (cells_are_rounded_reductions (mkargs true false 0 "sum" false) 4
              [Loaded (JDict record_spend)] st h rows E Eh) as (dates & _ & _ & Hrows & _).
  - intros Hp. discriminate Hp.
  - exists h, rows, st, dates. split; [reflexivity|]. split; [reflexivity|exact Hrows].
Defined.

(** *** How a run ends *)

Lemma build_row_ok (a : args) (others : list string) (d : string)
      (mm : gmap string (list float)) :
  exists r, build_row a others d mm = Ok r.
Proof.
  unfold build_row. destruct (derived a); [|eauto].
  rewrite derived_metrics_dict, derived_metrics_reduced. cbn [rbind]. eauto.
Qed.

Lemma build_rows_ok (a : args) (vbd : gmap string (gmap string (list float)))
      (dates : list string) :
  exists rows, build_rows a vbd dates = Ok rows.
Proof.
  induction dates as [|d rest [rs IH]]; cbn [build_rows]; [eauto|].
  destruct (build_row_ok a (other_cols vbd) d (default ∅ (vbd !! d))) as [r ->].
  cbn [rbind]. rewrite IH. cbn [rbind]. eauto.
Qed.

Lemma well_keyed_empty_iff (vbd : gmap string (gmap string (list float))) :
  well_keyed vbd -> (vbd = ∅ <-> forall date m, observed vbd date m = []).
Proof.
  intros Hwk. split.
  - intros -> date m. unfold observed. rewrite lookup_empty. cbn [from_option id].
    rewrite lookup_empty. reflexivity.
  - intros Hnone. apply map_empty. intros date.
    destruct (vbd !! date) as [ms|] eqn:E; [|reflexivity]. exfalso.
    destruct (Hwk date ms E) as (_ & Hne & Hlists).
    destruct (map_choose ms Hne) as (m & l & Hml).
    destruct (Hlists m l Hml) as [_ Hl]. apply Hl.
    specialize (Hnone date m). unfold observed in Hnone. rewrite E in Hnone.
    cbn [from_option id] in Hnone. rewrite Hml in Hnone. exact Hnone.
Qed.

(** X15. How a run over a non-empty list of files ends.  An exception can
    only come from the loop over the records: building the table raises
    nothing.  The run ends with status 3 exactly when no record gave any
    observation, and with no other status. *)
Theorem run_outcomes (a : args) (limit : nat) (files : list source) :
  files <> [] ->
  (forall e, main a limit files = Raise e <-> harvest a limit files = Raise e)
  /\ (main a limit files = Ok (Exit 3) <->
        exists st, harvest a limit files = Ok st
          /\ forall date m, observed (values_by_date st) date m = [])
  /\ (forall s, main a limit files = Ok (Exit s) -> s = 3).
Proof.
  intros Hne. unfold main. destruct files as [|f files]; [contradiction|].
  destruct (harvest a limit (f :: files)) as [st|e0] eqn:Hh; cbn [rbind].
  - pose proof (well_keyed_empty_iff _ (harvest_well_keyed a limit _ st Hh)) as Hempty.
    destruct (build_rows_ok a (values_by_date st)
                (sorted String.ltb (elements (dom (values_by_date st))))) as [rows Hr].
    destruct (bool_decide (values_by_date st = ∅)) eqn:E.
    + apply bool_decide_eq_true_1 in E. split; [|split].
      * intros e. split; intros H; discriminate H.
      * split; [|reflexivity]. intros _. exists st. split; [reflexivity|].
        apply Hempty. exact E.
      * intros s H. apply Ok_inj in H. injection H as <-. reflexivity.
    + apply bool_decide_eq_false_1 in E. rewrite Hr. cbn [rbind]. split; [|split].
      * intros e. split; intros H; discriminate H.
      * split; [intros H; discriminate H|].
        intros (st' & Hst & Hnone). apply Ok_inj in Hst. subst st'.
        exfalso. apply E. apply Hempty. exact Hnone.
      * intros s H. discriminate H.
  - split; [|split].
    + intros e. split; intros H; injection H as ->; reflexivity.
    + split; [intros H; discriminate H|]. intros (st' & Hst & _). discriminate Hst.
    + intros s H. discriminate H.
Qed.

Lemma run_outcomes_witness :
  let files := [Loaded (JDict record_range_total); Skipped] in
  (forall e, main default_args 4 files = Raise e <-> harvest default_args 4 files = Raise e)
  /\ (main default_args 4 files = Ok (Exit 3) <->
        exists st, harvest default_args 4 files = Ok st
          /\ forall date m, observed (values_by_date st) date m = [])
  /\ (forall s, main default_args 4 files = Ok (Exit s) -> s = 3).
Proof.
  apply (run_outcomes default_args 4 [Loaded (JDict record_range_total); Skipped]).
  intros H. discriminate H.
Defined.

(** *** Skipped files *)

Lemma process_file_parsed (a : args) (limit : nat) (st st' : state) (f : source) :
  process_file a limit st f = Ok st' ->
  parsed st' = ((if is_loaded f then 1 else 0) + parsed st)%nat.
Proof.
  intros H. destruct f as [|data]; cbn [process_file is_loaded] in *.
  - apply Ok_inj in H. subst. reflexivity.
  - revert H.
    apply (for_gen_preserves (fun s => parsed s = S (parsed st))); [|reflexivity].
    intros s x s' Hs Hx. rewrite <- Hs.
    unfold process_record in Hx.
    destruct (negb (include_range_totals a) && looks_like_range_total x).
    { apply Ok_inj in Hx. subst. reflexivity. }
    destruct (norm_date (tz_offset_hours a) (find_date_val x (keys x))) as [date|e] eqn:Hd.
    + destruct (accumulate_record_frame a s s' x date Hd Hx) as (P & _). exact P.
    + unfold accumulate_record in Hx. rewrite Hd in Hx. discriminate Hx.
Qed.

Lemma for_each_skipped (a : args) (limit : nat) (files : list source) :
  forall st, for_each (process_file a limit) files st
             = for_each (process_file a limit) (filter (fun f => is_loaded f = true) files) st.
Proof.
  induction files as [|f files IH]; intros st; [reflexivity|].
  destruct f as [|data].
  - rewrite filter_cons_False by (cbn [is_loaded]; discriminate).
    cbn [for_each process_file rbind]. apply IH.
  - rewrite filter_cons_True by reflexivity.
    cbn [for_each]. destruct (process_file a limit st (Loaded data)); cbn [rbind];
      [apply IH|reflexivity].
Qed.

Lemma for_each_parsed (a : args) (limit : nat) (files : list source) :
  forall st st', for_each (process_file a limit) files st = Ok st' ->
    parsed st' = (length (filter (fun f => is_loaded f = true) files) + parsed st)%nat.
Proof.
  induction files as [|f files IH]; intros st st' H; cbn [for_each] in H.
  - apply Ok_inj in H. subst. reflexivity.
  - destruct (process_file a limit st f) as [s1|e] eqn:E; [|discriminate H].
    cbn [rbind] in H. rewrite (IH s1 st' H), (process_file_parsed _ _ _ _ _ E).
    destruct f as [|data].
    + rewrite filter_cons_False by (cbn [is_loaded]; discriminate). reflexivity.
    + rewrite filter_cons_True by reflexivity. cbn [is_loaded length]. lia.
Qed.

(** X16. A file that is skipped (unreadable, not starting with a brace
    or a bracket, or not valid JSON) leaves no trace: the loop ends in the
    state it ends in without these files, and the count of parsed files is
    the number of files that were not skipped.  When every file is skipped
    the run ends with status 3. *)
Theorem skipped_files_leave_no_trace (a : args) (limit : nat) (files : list source) :
  let loaded := filter (fun f => is_loaded f = true) files in
  harvest a limit files = harvest a limit loaded
  /\ (forall st, harvest a limit files = Ok st -> parsed st = length loaded)
  /\ (files <> [] -> loaded = [] -> main a limit files = Ok (Exit 3)).
Proof.
  intros loaded. split; [apply for_each_skipped|]. split.
  - intros st H. unfold harvest in H. rewrite (for_each_parsed _ _ _ _ _ H).
    cbn [init_state parsed]. apply Nat.add_0_r.
  - intros Hne Hnone. unfold main. destruct files as [|f files]; [contradiction|].
    unfold harvest. rewrite for_each_skipped. fold loaded. rewrite Hnone.
    cbn [for_each rbind]. reflexivity.
Qed.

Lemma skipped_files_leave_no_trace_witness :
  main default_args 0 [Skipped; Skipped] = Ok (Exit 3).
Proof.
  apply (skipped_files_leave_no_trace default_args 0 [Skipped; Skipped]).
  - intros H. discriminate H.
  - reflexivity.
Defined.

(** ** Numbers and reductions *)

(** *** Integers as floats *)

Lemma iter_xO_value (m d : positive) : Zpos (Pos.iter xO m d) = Zpos m * 2 ^ Zpos d.
Proof.
  induction d using Pos.peano_ind.
  - cbn [Pos.iter]. rewrite Pos2Z.inj_xO. change (2 ^ 1) with 2. lia.
  - rewrite Pos.iter_succ, Pos2Z.inj_xO, IHd, Pos2Z.inj_succ, Z.pow_succ_r by lia. lia.
Qed.

Lemma iter_xO_digits (m d : positive) :
  digits2_pos (Pos.iter xO m d) = (digits2_pos m + d)%positive.
Proof.
  induction d using Pos.peano_ind.
  - cbn [Pos.iter digits2_pos]. lia.
  - rewrite Pos.iter_succ. cbn [digits2_pos]. rewrite IHd. lia.
Qed.

(** A mantissa of 53 bits with an exponent in range is its own rounding. *)
Lemma binary_round_aux_normal (s : bool) (m : positive) (e : Z) :
  digits2_pos m = 53%positive -> -1074 <= e <= 971 ->
  binary_round_aux 53 1024 s (Zpos m) e loc_Exact = S754_finite s m e.
Proof.
  intros Hd He. unfold binary_round_aux, shr_fexp, fexp, emin.
  cbn [Zdigits2 shr_record_of_loc]. rewrite Hd.
  replace (Z.max (53 + e - 53) (3 - 1024 - 53) - e) with 0 by lia.
  cbn [shr shr_m loc_of_shr_record round_nearest_even Zdigits2]. rewrite Hd.
  replace (Z.max (53 + e - 53) (3 - 1024 - 53) - e) with 0 by lia.
  cbn [shr shr_m].
  replace (e <=? 1024 - 53) with true by (symmetry; apply Z.leb_le; lia).
  reflexivity.
Qed.

Lemma binary_round_small (s : bool) (p : positive) :
  Zpos p < 2 ^ 53 ->
  exists m e, binary_round 53 1024 s p 0 = S754_finite s m e
              /\ -52 <= e <= 0 /\ Zpos m = Zpos p * 2 ^ (- e).
Proof.
  intros Hp. unfold binary_round, shl_align, fexp, emin.
  pose proof (digits2_lower p) as Hlo.
  assert (Hd : Zpos (digits2_pos p) <= 53).
  { destruct (Z_le_gt_dec (Zpos (digits2_pos p)) 53) as [H|H]; [exact H|exfalso].
    assert (2 ^ 53 <= 2 ^ (Zpos (digits2_pos p) - 1)) by (apply Z.pow_le_mono_r; lia).
    lia. }
  replace (Z.max (Zpos (digits2_pos p) + 0 - 53) (3 - 1024 - 53) - 0)
    with (Zpos (digits2_pos p) - 53) by lia.
  destruct (Zpos (digits2_pos p) - 53) as [|d|d] eqn:E; try lia.
  - exists p, 0. rewrite binary_round_aux_normal by lia.
    split; [reflexivity|]. split; [lia|]. cbn. lia.
  - exists (Pos.iter xO p d), (Zpos (digits2_pos p) + 0 - 53).
    replace (Z.max (Zpos (digits2_pos p) + 0 - 53) (3 - 1024 - 53))
      with (Zpos (digits2_pos p) + 0 - 53) by lia.
    rewrite binary_round_aux_normal.
    + split; [reflexivity|]. split; [lia|].
      rewrite iter_xO_value. f_equal. f_equal. lia.
    + rewrite iter_xO_digits. lia.
    + lia.
Qed.

Lemma int_of_float_of_Z (n : Z) :
  Z.abs n < 2 ^ 53 ->
  exists x, float_of_int n = Ok x /\ int_of_float x = Ok n /\ not_nan x.
Proof.
  intros Hn. unfold float_of_int, of_Z, binary_normalize, prec, emax.
  destruct n as [|p|p].
  - exists (S754_zero false). split; [reflexivity|]. split; [reflexivity|discriminate].
  - destruct (binary_round_small false p) as (m & e & -> & He & Hm); [lia|].
    exists (S754_finite false m e). split; [reflexivity|]. split; [|discriminate].
    unfold int_of_float. destruct (0 <=? e) eqn:E0.
    + apply Z.leb_le in E0. replace e with 0 in * by lia. cbn in Hm. f_equal. lia.
    + rewrite Hm, Z.div_mul by (apply Z.pow_nonzero; lia). reflexivity.
  - destruct (binary_round_small true p) as (m & e & -> & He & Hm); [lia|].
    exists (S754_finite true m e). split; [reflexivity|]. split; [|discriminate].
    unfold int_of_float. destruct (0 <=? e) eqn:E0.
    + apply Z.leb_le in E0. replace e with 0 in * by lia. cbn in Hm. f_equal. lia.
    + rewrite Hm, Z.div_mul by (apply Z.pow_nonzero; lia). reflexivity.
Qed.

(** X17. An integer of magnitude below 2^53 is read without loss: its
    number is a float whose integer value is the integer itself, so
    different integers give different numbers.  The two booleans are read
    as 1 and 0. *)
Theorem small_integers_are_read_exactly (n : Z) :
  Z.abs n < 2 ^ 53 ->
  (exists x, coerce_number (JInt n) = Ok (Some x) /\ int_of_float x = Ok n)
  /\ (forall n', Z.abs n' < 2 ^ 53 ->
        coerce_number (JInt n) = coerce_number (JInt n') -> n = n')
  /\ (forall b, exists x, coerce_number (JBool b) = Ok (Some x)
                          /\ int_of_float x = Ok (if b then 1 else 0)).
Proof.
  intros Hn. destruct (int_of_float_of_Z n Hn) as (x & Hx & Hi & _).
  split; [|split].
  - exists x. cbn [coerce_number]. rewrite Hx. split; [reflexivity|exact Hi].
  - intros n' Hn' Heq. destruct (int_of_float_of_Z n' Hn') as (x' & Hx' & Hi' & _).
    cbn [coerce_number] in Heq. rewrite Hx, Hx' in Heq. cbn [rbind] in Heq.
    injection Heq as ->. rewrite Hi in Hi'. injection Hi' as ->. reflexivity.
  - intros b. exists (of_Z (if b then 1 else 0)). destruct b; split; reflexivity.
Qed.

Lemma small_integers_are_read_exactly_witness :
  exists x, coerce_number (JInt (-9007199254740991)) = Ok (Some x)
            /\ int_of_float x = Ok (-9007199254740991).
Proof.
  apply (small_integers_are_read_exactly (-9007199254740991)). reflexivity.
Defined.

(** *** Integers beyond the range of floats *)

Lemma round_nearest_even_le (m : Z) (l : location) : round_nearest_even m l <= m + 1.
Proof. destruct l as [|[]]; cbn [round_nearest_even]; try lia. destruct (Z.even m); lia. Qed.

Lemma digits2_between (p : positive) (k : Z) :
  2 ^ (k - 1) <= Zpos p < 2 ^ k -> 0 < k -> Zpos (digits2_pos p) = k.
Proof.
  intros [Hlo Hup] Hk.
  pose proof (digits2_lower p) as Hl. pose proof (digits2_upper p) as Hu.
  set (d := Zpos (digits2_pos p)) in *.
  assert (Hd : 0 < d) by (unfold d; lia).
  destruct (Z.lt_trichotomy d k) as [H|[H|H]]; [exfalso| exact H |exfalso].
  - assert (2 ^ d <= 2 ^ (k - 1)) by (apply Z.pow_le_mono_r; lia). lia.
  - assert (2 ^ k <= 2 ^ (d - 1)) by (apply Z.pow_le_mono_r; lia). lia.
Qed.

Lemma binary_round_aux_large (s : bool) (p : positive) :
  54 <= Zpos (digits2_pos p) ->
  exists m e,
    Zpos (digits2_pos p) - 53 <= e <= Zpos (digits2_pos p) - 52
    /\ binary_round_aux 53 1024 s (Zpos p) 0 loc_Exact
       = if e <=? 971 then S754_finite s m e else S754_infinity s.
Proof.
  intros Hd.
  pose proof (digits2_lower p) as Hlo. pose proof (digits2_upper p) as Hup.
  unfold binary_round_aux, shr_fexp, fexp, emin. cbn [Zdigits2].
  set (d := Zpos (digits2_pos p)) in *.
  replace (Z.max (d + 0 - 53) (3 - 1024 - 53) - 0) with (d - 53) by lia.
  destruct (d - 53) as [|sh|sh] eqn:Esh; try lia.
  cbn [shr].
  set (mrs' := @SpecFloat.iter_pos shr_record shr_1 sh (shr_record_of_loc (Zpos p) loc_Exact)).
  assert (Hm' : shr_m mrs' = Zpos p / 2 ^ Zpos sh).
  { unfold mrs'. rewrite iter_shr_m; rewrite shr_record_of_loc_m; [reflexivity|lia]. }
  assert (Hpow : 2 ^ (d - 1) = 2 ^ Zpos sh * 2 ^ 52).
  { rewrite <- Z.pow_add_r by lia. f_equal. lia. }
  assert (Hpow' : 2 ^ d = 2 ^ Zpos sh * 2 ^ 53).
  { rewrite <- Z.pow_add_r by lia. f_equal. lia. }
  assert (Hb : 2 ^ 52 <= shr_m mrs' < 2 ^ 53).
  { rewrite Hm'. split.
    - apply Z.div_le_lower_bound; [apply Z.pow_pos_nonneg; lia|]. lia.
    - apply Z.div_lt_upper_bound; [apply Z.pow_pos_nonneg; lia|]. lia. }
  pose proof (round_nearest_even_ge (shr_m mrs') (loc_of_shr_record mrs')) as Hge.
  pose proof (round_nearest_even_le (shr_m mrs') (loc_of_shr_record mrs')) as Hle.
  set (mr := round_nearest_even (shr_m mrs') (loc_of_shr_record mrs')) in *.
  destruct mr as [|q|q] eqn:Emr; try lia.
  cbn [Zdigits2].
  destruct (Z_lt_le_dec (Zpos q) (2 ^ 53)) as [Hq|Hq].
  - rewrite (digits2_between q 53) by lia.
    replace (Z.max (53 + (0 + Zpos sh) - 53) (3 - 1024 - 53) - (0 + Zpos sh)) with 0 by lia.
    cbn [shr shr_record_of_loc shr_m].
    exists q, (0 + Zpos sh). split; [lia|reflexivity].
  - assert (Hq' : Zpos q = 2 ^ 53) by lia.
    rewrite (digits2_between q 54) by (change (54 - 1) with 53; lia).
    replace (Z.max (54 + (0 + Zpos sh) - 53) (3 - 1024 - 53) - (0 + Zpos sh)) with 1 by lia.
    cbn [shr SpecFloat.iter_pos].
    rewrite shr_1_m by (rewrite shr_record_of_loc_m; lia).
    rewrite shr_record_of_loc_m, Hq'.
    change (2 ^ 53 / 2) with (Zpos 4503599627370496).
    exists 4503599627370496%positive, (0 + Zpos sh + 1). split; [lia|reflexivity].
Qed.

Lemma binary_round_large (s : bool) (p : positive) :
  2 ^ 53 <= Zpos p ->
  (Zpos p < 2 ^ 1023 -> exists m e, binary_round 53 1024 s p 0 = S754_finite s m e)
  /\ (2 ^ 1024 <= Zpos p -> binary_round 53 1024 s p 0 = S754_infinity s).
Proof.
  intros Hp.
  pose proof (digits2_lower p) as Hlo. pose proof (digits2_upper p) as Hup.
  assert (Hd : 54 <= Zpos (digits2_pos p)).
  { destruct (Z_lt_le_dec (Zpos (digits2_pos p)) 54) as [H|H]; [exfalso|exact H].
    assert (2 ^ Zpos (digits2_pos p) <= 2 ^ 53) by (apply Z.pow_le_mono_r; lia). lia. }
  destruct (binary_round_aux_large s p Hd) as (m & e & He & Hr).
  unfold binary_round, shl_align, fexp, emin.
  replace (Z.max (Zpos (digits2_pos p) + 0 - 53) (3 - 1024 - 53) - 0)
    with (Zpos (digits2_pos p) - 53) by lia.
  destruct (Zpos (digits2_pos p) - 53) as [|sh|sh] eqn:Esh; try lia.
  rewrite Hr. split.
  - intros Hlt.
    assert (Zpos (digits2_pos p) <= 1023).
    { destruct (Z_le_gt_dec (Zpos (digits2_pos p)) 1023) as [H|H]; [exact H|exfalso].
      assert (2 ^ 1023 <= 2 ^ (Zpos (digits2_pos p) - 1)) by (apply Z.pow_le_mono_r; lia).
      lia. }
    replace (e <=? 971) with true by (symmetry; apply Z.leb_le; lia). eauto.
  - intros Hge.
    assert (1025 <= Zpos (digits2_pos p)).
    { destruct (Z_lt_le_dec (Zpos (digits2_pos p)) 1025) as [H|H]; [exfalso|exact H].
      assert (2 ^ Zpos (digits2_pos p) <= 2 ^ 1024) by (apply Z.pow_le_mono_r; lia). lia. }
    replace (e <=? 971) with false by (symmetry; apply Z.leb_gt; lia). reflexivity.
Qed.

Lemma float_of_int_range (n : Z) :
  (Z.abs n < 2 ^ 1023 -> exists x, float_of_int n = Ok x /\ not_nan x)
  /\ (2 ^ 1024 <= Z.abs n -> float_of_int n = Raise OverflowError).
Proof.
  split.
  - intros Hn. destruct (Z_lt_le_dec (Z.abs n) (2 ^ 53)) as [Hs|Hs].
    { destruct (int_of_float_of_Z n Hs) as (x & Hx & _ & Hnn). eauto. }
    unfold float_of_int, of_Z, binary_normalize, prec, emax.
    destruct n as [|p|p]; [cbn in Hs; lia| |].
    + destruct (proj1 (binary_round_large false p ltac:(lia)) ltac:(lia)) as (m & e & ->).
      eexists. split; [reflexivity|discriminate].
    + destruct (proj1 (binary_round_large true p ltac:(lia)) ltac:(lia)) as (m & e & ->).
      eexists. split; [reflexivity|discriminate].
  - intros Hn. unfold float_of_int, of_Z, binary_normalize, prec, emax.
    assert (H53 : 2 ^ 53 <= 2 ^ 1024) by (apply Z.pow_le_mono_r; lia).
    destruct n as [|p|p].
    + exfalso. cbn [Z.abs] in Hn. assert (0 < 2 ^ 1024) by (apply Z.pow_pos_nonneg; lia). lia.
    + rewrite (proj2 (binary_round_large false p ltac:(lia)) ltac:(lia)). reflexivity.
    + rewrite (proj2 (binary_round_large true p ltac:(lia)) ltac:(lia)). reflexivity.
Qed.

(** X18. Reading a number raises for nothing but an integer too large
    for a float, and then it is an OverflowError: no integer of magnitude
    below 2^1023 raises, every integer of magnitude 2^1024 or more does.
    Such an integer in a field of a dated record, under any key that is
    not a date key or a skipped key, takes the exception out of the loop
    body. *)
Theorem huge_integers_raise_overflow (n : Z) :
  (forall v e, coerce_number v = Raise e ->
     e = OverflowError /\ exists n', v = JInt n' /\ 2 ^ 1023 <= Z.abs n')
  /\ (2 ^ 1024 <= Z.abs n ->
        coerce_number (JInt n) = Raise OverflowError
        /\ forall a date keyset st k,
             PyStr.lower k ∉ DATE_KEYS -> PyStr.lower k ∉ SKIP_KEYS ->
             process_field a date keyset st (k, JInt n) = Raise OverflowError).
Proof.
  split.
  - intros v e H. destruct v as [|b|n'|x|s|l|d]; cbn [coerce_number] in H;
      try discriminate H.
    + destruct b; discriminate H.
    + destruct (Z_lt_le_dec (Z.abs n') (2 ^ 1023)) as [Hn|Hn].
      * destruct (proj1 (float_of_int_range n') Hn) as (x & Hx & _).
        rewrite Hx in H. discriminate H.
      * unfold float_of_int in H.
        destruct (of_Z n'); try discriminate H. cbn [rbind] in H.
        injection H as <-. split; [reflexivity|]. exists n'. split; [reflexivity|exact Hn].
  - intros Hn.
    assert (Hc : coerce_number (JInt n) = Raise OverflowError).
    { cbn [coerce_number]. rewrite (proj2 (float_of_int_range n) Hn). reflexivity. }
    split; [exact Hc|].
    intros a date keyset st k Hd Hs. unfold process_field.
    rewrite (bool_decide_eq_false_2 _ Hd), (bool_decide_eq_false_2 _ Hs).
    cbn [orb]. rewrite Hc. reflexivity.
Qed.

Lemma huge_integers_raise_overflow_witness :
  coerce_number (JInt (2 ^ 1024)) = Raise OverflowError.
Proof.
  apply (proj2 (huge_integers_raise_overflow (2 ^ 1024))).
  rewrite Z.abs_eq by (apply Z.pow_nonneg; lia). lia.
Defined.

(** *** The order of floats *)

Lemma fle_refl (x : float) : not_nan x -> fle x x = true.
Proof.
  unfold not_nan, fle, SFleb. destruct x as [s|[]| |[] m e]; cbn [SFcompare];
    intros H; try reflexivity; try contradiction;
    rewrite Z.compare_refl, Pos.compare_cont_spec, Pos.compare_refl; reflexivity.
Qed.

Lemma fle_total (x y : float) :
  not_nan x -> not_nan y -> flt y x = false -> fle x y = true.
Proof.
  unfold not_nan, flt, fle, SFltb, SFleb.
  destruct x as [s1|[]| |[] m1 e1], y as [s2|[]| |[] m2 e2]; cbn [SFcompare];
    intros Hx Hy; try contradiction; try reflexivity; try (destruct s1; reflexivity);
    try (destruct s2; reflexivity); try (intros H; discriminate H);
    try (destruct s1; intros H; (reflexivity || discriminate H));
    try (destruct s2; intros H; (reflexivity || discriminate H)).
  - rewrite (Z.compare_antisym e1 e2).
    destruct (e1 ?= e2) eqn:E; cbn [CompOpp]; try reflexivity; try (intros H; discriminate H).
    rewrite !Pos.compare_cont_spec. cbn [Pos.switch_Eq].
    rewrite (Pos.compare_antisym m1 m2).
    destruct (m1 ?= m2)%positive; cbn [CompOpp]; intros H; (reflexivity || discriminate H).
  - rewrite (Z.compare_antisym e1 e2).
    destruct (e1 ?= e2) eqn:E; cbn [CompOpp]; try reflexivity; try (intros H; discriminate H).
    rewrite !Pos.compare_cont_spec. cbn [Pos.switch_Eq].
    rewrite (Pos.compare_antisym m1 m2).
    destruct (m1 ?= m2)%positive; cbn [CompOpp]; intros H; (reflexivity || discriminate H).
Qed.

Lemma fle_trans (x y z : float) :
  fle x y = true -> fle y z = true -> fle x z = true.
Proof.
  unfold fle, SFleb.
  destruct x as [s1|[]| |[] m1 e1], y as [s2|[]| |[] m2 e2], z as [s3|[]| |[] m3 e3];
    cbn [SFcompare];
    try reflexivity; try (intros H; discriminate H); try (intros _ H; discriminate H);
    try (destruct s1; (reflexivity || (intros H; discriminate H)));
    try (destruct s2; (reflexivity || (intros H; discriminate H) || (intros _ H; discriminate H)));
    try (destruct s3; (reflexivity || (intros H; discriminate H) || (intros _ H; discriminate H)));
    rewrite ?Pos.compare_cont_spec; cbn [Pos.switch_Eq];
    destruct (Z.compare_spec e1 e2), (Z.compare_spec e2 e3), (Z.compare_spec e1 e3);
    try lia; try reflexivity; try (intros H; discriminate H); try (intros _ H; discriminate H);
    destruct (Pos.compare_spec m1 m2), (Pos.compare_spec m2 m3), (Pos.compare_spec m1 m3);
    try lia; cbn [Pos.switch_Eq CompOpp]; try reflexivity;
    intros Ha Hb; (discriminate Ha || discriminate Hb).
Qed.

#[local] Instance fle_holds_transitive : Transitive fle_holds.
Proof. intros x y z. apply fle_trans. Qed.

(** *** The least and the greatest *)

Lemma py_min_bound (rest : list float) :
  forall x, not_nan x -> (forall v, v ∈ rest -> not_nan v) ->
  py_min x rest ∈ x :: rest
  /\ forall v, v ∈ x :: rest -> fle (py_min x rest) v = true.
Proof.
  induction rest as [|y rest IH]; intros x Hx Hrest.
  - cbn [py_min fold_left]. split; [left|]. intros v Hv.
    apply list_elem_of_singleton in Hv as ->. apply fle_refl. exact Hx.
  - assert (Hy : not_nan y) by (apply Hrest; left).
    assert (Hrest' : forall v, v ∈ rest -> not_nan v)
      by (intros v Hv; apply Hrest; right; exact Hv).
    unfold py_min. cbn [fold_left].
    destruct (flt y x) eqn:E.
    + destruct (IH y Hy Hrest') as [Hin Hle]. fold (py_min y rest). split.
      * right. exact Hin.
      * intros v Hv. apply elem_of_cons in Hv as [->|Hv]; [|apply Hle, Hv].
        apply fle_trans with y; [apply Hle; left|apply flt_fle; exact E].
    + destruct (IH x Hx Hrest') as [Hin Hle]. fold (py_min x rest). split.
      * apply elem_of_cons in Hin as [Hin|Hin]; [rewrite Hin; left|right; right; exact Hin].
      * intros v Hv. apply elem_of_cons in Hv as [->|Hv]; [apply Hle; left|].
        apply elem_of_cons in Hv as [->|Hv]; [|apply Hle; right; exact Hv].
        apply fle_trans with x; [apply Hle; left|apply fle_total; assumption].
Qed.

Lemma py_max_bound (rest : list float) :
  forall x, not_nan x -> (forall v, v ∈ rest -> not_nan v) ->
  py_max x rest ∈ x :: rest
  /\ forall v, v ∈ x :: rest -> fle v (py_max x rest) = true.
Proof.
  induction rest as [|y rest IH]; intros x Hx Hrest.
  - cbn [py_max fold_left]. split; [left|]. intros v Hv.
    apply list_elem_of_singleton in Hv as ->. apply fle_refl. exact Hx.
  - assert (Hy : not_nan y) by (apply Hrest; left).
    assert (Hrest' : forall v, v ∈ rest -> not_nan v)
      by (intros v Hv; apply Hrest; right; exact Hv).
    unfold py_max. cbn [fold_left].
    destruct (flt x y) eqn:E.
    + destruct (IH y Hy Hrest') as [Hin Hle]. fold (py_max y rest). split.
      * right. exact Hin.
      * intros v Hv. apply elem_of_cons in Hv as [->|Hv]; [|apply Hle, Hv].
        apply fle_trans with y; [apply flt_fle; exact E|apply Hle; left].
    + destruct (IH x Hx Hrest') as [Hin Hle]. fold (py_max x rest). split.
      * apply elem_of_cons in Hin as [Hin|Hin]; [rewrite Hin; left|right; right; exact Hin].
      * intros v Hv. apply elem_of_cons in Hv as [->|Hv]; [apply Hle; left|].
        apply elem_of_cons in Hv as [->|Hv]; [|apply Hle; right; exact Hv].
        apply fle_trans with x; [apply fle_total; assumption|apply Hle; left].
Qed.

(** X19. On values that are all numbers, the policy "min" gives a value
    of the sequence that is below or equal to every value of it, and "max"
    one that is above or equal to every value. *)
Theorem min_and_max_are_extremes (arr : list float) :
  arr <> [] -> (forall v, v ∈ arr -> not_nan v) ->
  (reduce_vals arr "min" ∈ arr
   /\ forall v, v ∈ arr -> fle (reduce_vals arr "min") v = true)
  /\ (reduce_vals arr "max" ∈ arr
      /\ forall v, v ∈ arr -> fle v (reduce_vals arr "max") = true).
Proof.
  intros Hne Hnn. destruct arr as [|x rest]; [contradiction|].
  assert (Hx : not_nan x) by (apply Hnn; left).
  assert (Hrest : forall v, v ∈ rest -> not_nan v)
    by (intros v Hv; apply Hnn; right; exact Hv).
  split.
  - change (reduce_vals (x :: rest) "min") with (py_min x rest).
    apply py_min_bound; assumption.
  - change (reduce_vals (x :: rest) "max") with (py_max x rest).
    apply py_max_bound; assumption.
Qed.

Lemma min_and_max_are_extremes_witness :
  fle (reduce_vals [of_Z 3; of_Z (-7); of_Z 5] "min") (of_Z (-7)) = true
  /\ fle (of_Z 5) (reduce_vals [of_Z 3; of_Z (-7); of_Z 5] "max") = true.
Proof.
  destruct (min_and_max_are_extremes [of_Z 3; of_Z (-7); of_Z 5]) as [[_ Hmin] [_ Hmax]].
  - discriminate.
  - intros v Hv. apply list_elem_of_In in Hv. cbn [In] in Hv.
    destruct Hv as [<-|[<-|[<-|[]]]]; discriminate.
  - split.
    + apply Hmin. right. left.
    + apply Hmax. right. right. left.
Defined.

(** *** The middle value *)

Lemma insert_sorted_fle_hd (x y : float) (l : list float) :
  fle_holds y x -> HdRel fle_holds y l -> HdRel fle_holds y (insert_sorted flt x l).
Proof.
  intros Hyx Hl. destruct l as [|z t]; cbn [insert_sorted].
  - constructor. exact Hyx.
  - destruct (flt x z); constructor; [exact Hyx|].
    inversion Hl. assumption.
Qed.

Lemma insert_sorted_fle (x : float) (l : list float) :
  not_nan x -> (forall v, v ∈ l -> not_nan v) ->
  Sorted fle_holds l -> Sorted fle_holds (insert_sorted flt x l).
Proof.
  intros Hx. induction l as [|y t IH]; intros Hl Hs; cbn [insert_sorted].
  - repeat constructor.
  - destruct (flt x y) eqn:E.
    + constructor; [exact Hs|]. constructor. apply flt_fle. exact E.
    + inversion Hs as [|? ? Hs' Hhd]. subst. constructor.
      * apply IH; [|exact Hs']. intros v Hv. apply Hl. right. exact Hv.
      * apply insert_sorted_fle_hd; [|exact Hhd].
        apply fle_total; [apply Hl; left|exact Hx|exact E].
Qed.

Lemma sorted_fle_acc (l : list float) :
  forall acc, (forall v, v ∈ l ++ acc -> not_nan v) -> Sorted fle_holds acc ->
    Sorted fle_holds (fold_left (fun acc x => insert_sorted flt x acc) l acc).
Proof.
  induction l as [|x l IH]; intros acc Hnn Hs; cbn [fold_left]; [exact Hs|].
  apply IH.
  - intros v Hv. apply elem_of_app in Hv as [Hv|Hv].
    + apply Hnn. right. apply elem_of_app. left. exact Hv.
    + rewrite insert_sorted_perm in Hv. apply elem_of_cons in Hv as [->|Hv].
      * apply Hnn. left.
      * apply Hnn. right. apply elem_of_app. right. exact Hv.
  - apply insert_sorted_fle; [apply Hnn; left| |exact Hs].
    intros v Hv. apply Hnn. right. apply elem_of_app. right. exact Hv.
Qed.

Lemma sorted_fle (arr : list float) :
  (forall v, v ∈ arr -> not_nan v) -> StronglySorted fle_holds (sorted flt arr).
Proof.
  intros Hnn. apply Sorted_StronglySorted; [apply fle_holds_transitive|].
  unfold sorted. apply sorted_fle_acc; [|constructor].
  intros v Hv. rewrite app_nil_r in Hv. apply Hnn. exact Hv.
Qed.

Lemma split_at (s : list float) (i : nat) :
  (i < length s)%nat ->
  s = take i s ++ nth i s fzero :: drop (S i) s.
Proof.
  intros Hi. destruct (lookup_lt_is_Some_2 s i Hi) as [x Hx].
  rewrite nth_lookup, Hx. cbn [from_option id]. symmetry. apply take_drop_middle. exact Hx.
Qed.

(** X20. The policy "median" on values that are all numbers.  For an odd
    count it gives a value of the sequence that splits the others in two
    halves of equal size, one of values below or equal to it and one of
    values above or equal.  For an even count it gives half the sum of the
    two values in the middle. *)
Theorem median_splits_the_values (arr : list float) :
  arr <> [] -> (forall v, v ∈ arr -> not_nan v) ->
  (Nat.odd (length arr) = true ->
     exists lo hi,
       arr ≡ₚ lo ++ reduce_vals arr "median" :: hi
       /\ length lo = length hi
       /\ (forall v, v ∈ lo -> fle v (reduce_vals arr "median") = true)
       /\ (forall v, v ∈ hi -> fle (reduce_vals arr "median") v = true))
  /\ (Nat.even (length arr) = true ->
        exists lo a b hi,
          arr ≡ₚ lo ++ a :: b :: hi
          /\ length lo = length hi
          /\ fle a b = true
          /\ (forall v, v ∈ lo -> fle v a = true)
          /\ (forall v, v ∈ hi -> fle b v = true)
          /\ reduce_vals arr "median" = fdiv (fadd a b) (of_Z 2)).
Proof.
  intros Hne Hnn.
  assert (Hred : reduce_vals arr "median" = median arr).
  { destruct arr as [|x rest]; [contradiction|reflexivity]. }
  rewrite Hred. clear Hred. unfold median.
  pose proof (sorted_perm flt arr) as Hperm.
  pose proof (sorted_fle arr Hnn) as Hsorted.
  set (s := sorted flt arr) in *.
  assert (Hlen : length s = length arr) by (rewrite Hperm; reflexivity).
  assert (Hpos : (0 < length s)%nat).
  { rewrite Hlen. destruct arr; [contradiction|cbn [length]; lia]. }
  pose proof (Nat.div_mod_eq (length s) 2) as Hdm.
  pose proof (Nat.mod_upper_bound (length s) 2 ltac:(lia)) as Hmod.
  split.
  - intros Hodd. rewrite <- Hlen in Hodd.
    assert (Hm : (length s mod 2 = 1)%nat).
    { rewrite Nat.odd_spec in Hodd. destruct Hodd as [k Hk]. rewrite Hk.
      rewrite Nat.add_comm, Nat.mul_comm, Nat.Div0.mod_add. reflexivity. }
    rewrite Hm. cbn [Nat.eqb].
    set (i := (length s / 2)%nat) in *.
    assert (Hi : (i < length s)%nat) by lia.
    pose proof (split_at s i Hi) as Hsplit.
    exists (take i s), (drop (S i) s). split; [|split; [|split]].
    + rewrite <- Hsplit. symmetry. exact Hperm.
    + rewrite length_take, length_drop. lia.
    + intros v Hv. rewrite Hsplit in Hsorted.
      refine (StronglySorted_app_1_elem_of _ _ _ v _ Hsorted Hv _). left.
    + intros v Hv. rewrite Hsplit in Hsorted.
      apply StronglySorted_app_1_r in Hsorted.
      apply StronglySorted_inv in Hsorted as [_ Hall].
      rewrite Forall_forall in Hall. apply Hall. exact Hv.
  - intros Heven. rewrite <- Hlen in Heven.
    assert (Hm : (length s mod 2 = 0)%nat).
    { rewrite Nat.even_spec in Heven. destruct Heven as [k Hk]. rewrite Hk.
      rewrite Nat.mul_comm. apply Nat.Div0.mod_mul. }
    rewrite Hm. cbn [Nat.eqb].
    set (i := (length s / 2)%nat) in *.
    assert (Hi : (i < length s)%nat) by lia.
    assert (Hi1 : (0 < i)%nat) by lia.
    pose proof (split_at s i Hi) as Hsplit.
    assert (Hi' : (i - 1 < length (take i s))%nat) by (rewrite length_take; lia).
    pose proof (split_at (take i s) (i - 1) Hi') as Hsplit'.
    assert (Hnth : nth (i - 1) (take i s) fzero = nth (i - 1) s fzero).
    { rewrite !nth_lookup, lookup_take_lt by lia. reflexivity. }
    rewrite Hnth in Hsplit'.
    assert (Hdrop : drop (S (i - 1)) (take i s) = []).
    { apply nil_length_inv. rewrite length_drop, length_take. lia. }
    rewrite Hdrop, take_take in Hsplit'.
    replace (Nat.min (i - 1) i) with (i - 1)%nat in Hsplit' by lia.
    set (a := nth (i - 1) s fzero) in *. set (b := nth i s fzero) in *.
    assert (Hs : s = take (i - 1) s ++ a :: b :: drop (S i) s).
    { rewrite Hsplit at 1. rewrite Hsplit' at 1. rewrite <- app_assoc. reflexivity. }
    exists (take (i - 1) s), a, b, (drop (S i) s).
    rewrite Hs in Hsorted.
    pose proof (StronglySorted_app_1_r _ _ _ Hsorted) as Hab.
    apply StronglySorted_inv in Hab as [Hb Ha]. rewrite Forall_forall in Ha.
    apply StronglySorted_inv in Hb as [_ Hb]. rewrite Forall_forall in Hb.
    split; [|split; [|split; [|split; [|split]]]].
    + rewrite <- Hs. symmetry. exact Hperm.
    + rewrite length_take, length_drop. lia.
    + apply Ha. left.
    + intros v Hv. refine (StronglySorted_app_1_elem_of _ _ _ v _ Hsorted Hv _). left.
    + intros v Hv. apply Hb. exact Hv.
    + reflexivity.
Qed.

Lemma median_splits_the_values_witness :
  exists lo hi,
    [of_Z 9; of_Z 1; of_Z 4] ≡ₚ lo ++ reduce_vals [of_Z 9; of_Z 1; of_Z 4] "median" :: hi
    /\ length lo = length hi.
Proof.
  destruct (median_splits_the_values [of_Z 9; of_Z 1; of_Z 4]) as [Hodd _].
  - discriminate.
  - intros v Hv. apply list_elem_of_In in Hv. cbn [In] in Hv.
    destruct Hv as [<-|[<-|[<-|[]]]]; discriminate.
  - destruct (Hodd eq_refl) as (lo & hi & H1 & H2 & _). exists lo, hi. split; assumption.
Defined.

(** ** Names of metrics *)

(** *** Suffixes of names *)

Lemma substring_append_right (a b : string) (n : nat) :
  String.substring (String.length a) n (a +:+ b) = String.substring 0 n b.
Proof.
  induction a as [|x a IH]; [reflexivity|].
  rewrite append_cons. cbn [String.length String.substring]. exact IH.
Qed.

Lemma substring_all (b : string) : String.substring 0 (String.length b) b = b.
Proof. induction b as [|x b IH]; [reflexivity|]. cbn [String.length String.substring]. rewrite IH. reflexivity. Qed.

Lemma endswith_append (b suf : string) : PyStr.endswith (b +:+ suf) suf = true.
Proof.
  unfold PyStr.endswith. rewrite length_append.
  replace (String.length b + String.length suf - String.length suf)%nat
    with (String.length b) by lia.
  rewrite substring_append_right, substring_all, String.eqb_refl, andb_true_r.
  apply Nat.leb_le. lia.
Qed.

Lemma drop_last_append (b suf : string) :
  PyStr.drop_last (String.length suf) (b +:+ suf) = b.
Proof.
  unfold PyStr.drop_last. rewrite length_append.
  replace (String.length b + String.length suf - String.length suf)%nat
    with (String.length b) by lia.
  apply substring_append_left.
Qed.

Lemma endswith_micros_not_cents (b : string) :
  PyStr.endswith (b +:+ "_micros") "_cents" = false.
Proof.
  replace (b +:+ "_micros") with ((b +:+ "_") +:+ "micros")
    by (rewrite append_assoc; reflexivity).
  unfold PyStr.endswith. rewrite length_append.
  replace (String.length (b +:+ "_") + String.length "micros" - String.length "_cents")%nat
    with (String.length (b +:+ "_")) by (cbn [String.length]; lia).
  rewrite substring_append_right. rewrite andb_false_r. reflexivity.
Qed.

Lemma scale_suffix (b : string) (num : float) :
  scale (b +:+ "_cents") num = (fdiv num (of_Z 100), b)
  /\ scale (b +:+ "_micros") num = (fdiv num (of_Z 1000000), b).
Proof.
  unfold scale. split.
  - rewrite endswith_append. f_equal. exact (drop_last_append b "_cents").
  - rewrite endswith_micros_not_cents, endswith_append. f_equal.
    exact (drop_last_append b "_micros").
Qed.

(** X21. A key that ends in _cents is read in hundredths and one that
    ends in _micros in millionths, and the value is filed under the name
    before the suffix, passed through the table of standard names: the
    suffix itself never reaches the table, so [cost_cents] is filed under
    [cost] and not under [spend]. *)
Theorem suffixed_keys_are_filed_under_their_base
        (a : args) (date : string) (keyset : gset string) (st : state)
        (k b : string) (v : json) (num : float) :
  coerce_number v = Ok (Some num) ->
  keep_raw a = false ->
  (PyStr.lower k = b +:+ "_cents" ->
   process_field a date keyset st (k, v)
   = Ok (append_value date (default b (REMAP !! b)) (fdiv num (of_Z 100))
           (note_key (PyStr.lower k) st)))
  /\ (PyStr.lower k = b +:+ "_micros" ->
      process_field a date keyset st (k, v)
      = Ok (append_value date (default b (REMAP !! b)) (fdiv num (of_Z 1000000))
              (note_key (PyStr.lower k) st))).
Proof.
  intros Hc Hraw.
  destruct (scale_suffix b num) as [Hcents Hmicros].
  assert (Hkeys : forall suf, suf = "_cents" \/ suf = "_micros" ->
            PyStr.lower k = b +:+ suf ->
            (PyStr.lower k ∉ DATE_KEYS) /\ (PyStr.lower k ∉ SKIP_KEYS)
            /\ bare_suppressed keyset (PyStr.lower k) = false).
  { intros suf Hsuf Hk. rewrite Hk.
    assert (Hne : forall name, PyStr.endswith name suf = false -> b +:+ suf <> name).
    { intros name Hend Heq. rewrite <- Heq, endswith_append in Hend. discriminate Hend. }
    split; [|split].
    - unfold DATE_KEYS. rewrite !elem_of_union, !elem_of_singleton.
      intros [[H|H]|H]; revert H; apply Hne; destruct Hsuf as [-> | ->]; reflexivity.
    - unfold SKIP_KEYS. rewrite !elem_of_union, !elem_of_singleton.
      intros H. repeat (destruct H as [H|H]); revert H; apply Hne;
        destruct Hsuf as [-> | ->]; reflexivity.
    - apply bare_suppressed_other; apply Hne; destruct Hsuf as [-> | ->]; reflexivity. }
  split; intros Hk.
  - destruct (Hkeys "_cents" ltac:(left; reflexivity) Hk) as (Hd & Hs & Hb).
    rewrite (process_field_metric a date keyset st k v num Hd Hs Hc Hb).
    rewrite Hk, Hcents. cbv beta iota zeta. rewrite Hraw. reflexivity.
  - destruct (Hkeys "_micros" ltac:(right; reflexivity) Hk) as (Hd & Hs & Hb).
    rewrite (process_field_metric a date keyset st k v num Hd Hs Hc Hb).
    rewrite Hk, Hmicros. cbv beta iota zeta. rewrite Hraw. reflexivity.
Qed.

Lemma suffixed_keys_are_filed_under_their_base_witness :
  process_field default_args "2024-03-05" ∅ init_state ("Cost_Cents", JInt 250)
  = Ok (append_value "2024-03-05" (default "cost" (REMAP !! "cost"))
          (fdiv (of_Z 250) (of_Z 100)) (note_key (PyStr.lower "Cost_Cents") init_state)).
Proof.
  apply (suffixed_keys_are_filed_under_their_base default_args "2024-03-05" ∅ init_state
           "Cost_Cents" "cost" (JInt 250) (of_Z 250)).
  - reflexivity.
  - reflexivity.
  - reflexivity.
Defined.

(** *** Records without a date *)

Lemma find_date_val_none (d : dict) (ks : list string) :
  (forall k, k ∈ ks -> PyStr.lower k ∉ DATE_KEYS) -> find_date_val d ks = JNull.
Proof.
  induction ks as [|k ks IH]; intros H; cbn [find_date_val]; [reflexivity|].
  rewrite bool_decide_eq_false_2 by (apply H; left).
  apply IH. intros k' Hk'. apply H. right. exact Hk'.
Qed.

(** X22. Only dated records count.  A record none of whose keys is a
    date key, in any letter case, changes nothing; neither does a record
    whose first date key holds null, a list or an object. *)
Theorem undated_records_change_nothing (a : args) (st : state) (d : dict) :
  ((forall k, k ∈ keys d -> PyStr.lower k ∉ DATE_KEYS) -> process_record a st d = Ok st)
  /\ (forall pre post k v,
        d = pre ++ (k, v) :: post ->
        (forall k', k' ∈ keys pre -> PyStr.lower k' ∉ DATE_KEYS) ->
        PyStr.lower k ∈ DATE_KEYS ->
        (v = JNull \/ (exists l, v = JList l) \/ (exists o, v = JDict o)) ->
        process_record a st d = Ok st).
Proof.
  assert (Hskip : forall v, norm_date (tz_offset_hours a) v = Ok None ->
            find_date_val d (keys d) = v -> process_record a st d = Ok st).
  { intros v Hv Hf. unfold process_record, accumulate_record. rewrite Hf, Hv.
    cbn [rbind]. destruct (negb (include_range_totals a) && looks_like_range_total d);
      reflexivity. }
  split.
  - intros H. apply (Hskip JNull); [reflexivity|]. apply find_date_val_none. exact H.
  - intros pre post k v -> Hpre Hk Hv. apply (Hskip v).
    + destruct Hv as [->|[[l ->]|[o ->]]]; reflexivity.
    + apply date_value_of_record; assumption.
Qed.

Lemma undated_records_change_nothing_witness :
  process_record default_args init_state [("clicks", JInt 3); ("Views", JInt 70)]
  = Ok init_state.
Proof.
  apply (proj1 (undated_records_change_nothing default_args init_state
                  [("clicks", JInt 3); ("Views", JInt 70)])).
  intros k Hk. apply list_elem_of_In in Hk. cbn [keys map fst In] in Hk.
  destruct Hk as [<-|[<-|[]]]; apply not_in_by_compute; vm_compute; reflexivity.
Defined.

(** *** The table of standard names *)

Lemma REMAP_values (b v : string) :
  REMAP !! b = Some v -> v ∈ standard_order.
Proof.
  intros H. unfold REMAP in H. apply elem_of_list_to_map_2 in H.
  apply list_elem_of_In in H. cbn [In] in H.
  apply list_elem_of_In. unfold standard_order. cbn [In].
  repeat (destruct H as [H|H]; [injection H as _ <-; tauto|]).
  destruct H.
Qed.

Lemma REMAP_standard (v : string) :
  v ∈ standard_order -> default v (REMAP !! v) = v.
Proof.
  intros H. apply list_elem_of_In in H. unfold standard_order in H. cbn [In] in H.
  destruct H as [<-|[<-|[<-|[<-|[<-|[]]]]]]; vm_compute; reflexivity.
Qed.

(** X23. The table of standard names sends a name to one of the five
    standard columns or leaves it as it is, and a name it has produced is
    left as it is: renaming twice is renaming once. *)
Theorem standard_names_are_fixed (b : string) :
  let std := default b (REMAP !! b) in
  (std ∈ standard_order \/ std = b)
  /\ default std (REMAP !! std) = std.
Proof.
  cbv zeta. destruct (REMAP !! b) as [v|] eqn:E; cbn [from_option id].
  - pose proof (REMAP_values b v E) as Hv. split; [left; exact Hv|].
    apply REMAP_standard. exact Hv.
  - split; [right; reflexivity|]. rewrite E. reflexivity.
Qed.

(** *** Numbers written as text *)

Lemma digit_not_space (c : ascii) : PyStr.is_digit c = true -> PyStr.is_space c = false.
Proof. destruct c as [[] [] [] [] [] [] [] []]; intros H; try discriminate H; reflexivity. Qed.

Lemma comma_not_space (c : ascii) : Ascii.eqb c "," = true -> PyStr.is_space c = false.
Proof. intros H. apply Ascii.eqb_eq in H. subst. reflexivity. Qed.

Lemma rstrip_no_space (P : ascii -> bool) (s : string) :
  (forall c, P c = true -> PyStr.is_space c = false) ->
  all_chars P s = true -> PyStr.rstrip s = s.
Proof.
  intros HP. induction s as [|c r IH]; [reflexivity|].
  cbn [all_chars PyStr.rstrip]. intros H. apply andb_true_iff in H as [Hc Hr].
  rewrite (IH Hr). destruct r; [rewrite (HP c Hc)|]; reflexivity.
Qed.

Lemma strip_no_space (P : ascii -> bool) (s : string) :
  (forall c, P c = true -> PyStr.is_space c = false) ->
  all_chars P s = true -> PyStr.strip s = s.
Proof.
  intros HP H. unfold PyStr.strip.
  assert (Hl : PyStr.lstrip s = s).
  { destruct s as [|c r]; [reflexivity|]. cbn [all_chars] in H.
    apply andb_true_iff in H as [Hc _]. cbn [PyStr.lstrip]. rewrite (HP c Hc). reflexivity. }
  rewrite Hl. apply (rstrip_no_space P); assumption.
Qed.

Lemma remove_commas_digits (s : string) :
  all_chars digit_or_comma s = true ->
  all_chars PyStr.is_digit (PyStr.remove_char "," s) = true
  /\ (has_char PyStr.is_digit s = true -> PyStr.remove_char "," s <> EmptyString).
Proof.
  induction s as [|c r IH]; cbn [all_chars PyStr.remove_char has_char].
  - intros _. split; [reflexivity|]. intros H. discriminate H.
  - intros H. apply andb_true_iff in H as [Hc Hr]. destruct (IH Hr) as [IH1 IH2].
    destruct (Ascii.eqb c ",") eqn:E.
    + split; [exact IH1|]. intros H. apply IH2.
      apply Ascii.eqb_eq in E. subst c. exact H.
    + unfold digit_or_comma in Hc. rewrite E, orb_false_r in Hc.
      split; [cbn [all_chars]; rewrite Hc, IH1; reflexivity|]. intros _ H. discriminate H.
Qed.

Lemma strip_underscores_digits (s : string) :
  all_chars PyStr.is_digit s = true ->
  forall b, PyFloatStr.strip_underscores b s = Some s.
Proof.
  induction s as [|c r IH]; intros H b; [reflexivity|].
  cbn [all_chars] in H. apply andb_true_iff in H as [Hc Hr].
  assert (Hstep : PyFloatStr.strip_underscores b (String c r)
                  = String c <$> PyFloatStr.strip_underscores (PyStr.is_digit c) r).
  { destruct c as [[] [] [] [] [] [] [] []]; try discriminate Hc; reflexivity. }
  rewrite Hstep, (IH Hr). reflexivity.
Qed.

Lemma span_digits_all (s : string) :
  all_chars PyStr.is_digit s = true -> PyFloatStr.span_digits s = (s, EmptyString).
Proof.
  induction s as [|c r IH]; intros H; [reflexivity|].
  cbn [all_chars] in H. apply andb_true_iff in H as [Hc Hr].
  cbn [PyFloatStr.span_digits]. rewrite Hc, (IH Hr). reflexivity.
Qed.

Lemma digit_head (c : ascii) (r : string) :
  PyStr.is_digit c = true ->
  PyFloatStr.take_sign (String c r) = (false, String c r)
  /\ String.eqb (PyStr.lower (String c r)) "inf" = false
  /\ String.eqb (PyStr.lower (String c r)) "infinity" = false
  /\ String.eqb (PyStr.lower (String c r)) "nan" = false.
Proof.
  intros Hc. cbn [PyStr.lower String.eqb].
  destruct c as [[] [] [] [] [] [] [] []]; try discriminate Hc; repeat split; reflexivity.
Qed.

Lemma digit_val_range (c : ascii) : PyStr.is_digit c = true -> 0 <= PyStr.digit_val c <= 9.
Proof.
  destruct c as [[] [] [] [] [] [] [] []]; intros H; try discriminate H;
    vm_compute; split; discriminate.
Qed.

Lemma int_of_digits_nonneg (s : string) :
  all_chars PyStr.is_digit s = true -> 0 <= PyStr.int_of_digits s.
Proof.
  unfold PyStr.int_of_digits.
  assert (Hgen : forall acc, 0 <= acc -> all_chars PyStr.is_digit s = true ->
            0 <= fold_left (fun acc c => 10 * acc + PyStr.digit_val c)
                   (list_ascii_of_string s) acc).
  { induction s as [|c r IH]; intros acc Hacc H; cbn [list_ascii_of_string fold_left];
      [exact Hacc|].
    cbn [all_chars] in H. apply andb_true_iff in H as [Hc Hr].
    apply IH; [|exact Hr]. pose proof (digit_val_range c Hc). lia. }
  apply Hgen. lia.
Qed.

Lemma float_of_digits (s : string) :
  all_chars PyStr.is_digit s = true -> s <> EmptyString ->
  PyFloatStr.float_of_string s = Some (of_Z (PyStr.int_of_digits s)).
Proof.
  intros Hd Hne. unfold PyFloatStr.float_of_string.
  rewrite (strip_no_space PyStr.is_digit s digit_not_space Hd).
  rewrite (strip_underscores_digits s Hd).
  destruct s as [|c r]; [contradiction|].
  pose proof Hd as Hd'. cbn [all_chars] in Hd'. apply andb_true_iff in Hd' as [Hc _].
  destruct (digit_head c r Hc) as (Hsign & Hinf & Hinfinity & Hnan).
  rewrite Hsign, Hinf, Hinfinity, Hnan. cbn [orb].
  rewrite (span_digits_all _ Hd).
  cbn [String.length Nat.add Nat.eqb PyFloatStr.exponent].
  rewrite append_empty_r. cbn [String.length Z.of_nat Z.sub Z.opp].
  pose proof (int_of_digits_nonneg _ Hd) as Hnn.
  unfold PyFloatStr.of_decimal, of_Z.
  destruct (PyStr.int_of_digits (String c r)) as [|p|p]; [reflexivity| |lia].
  cbn [Z.leb Z.compare]. rewrite Z.pow_0_r, Z.mul_1_r. reflexivity.
Qed.

(** X24. A text made of digits and commas, with at least one digit, is
    read as the integer its digits write: the commas are dropped wherever
    they stand, so "1,5" is read as 15.  No text makes the reading of a
    number raise, however long its digits are. *)
Theorem grouped_digits_are_read_as_integers (s : string) :
  (all_chars digit_or_comma s = true -> has_char PyStr.is_digit s = true ->
   coerce_number (JStr s)
   = Ok (Some (of_Z (PyStr.int_of_digits (PyStr.remove_char "," s)))))
  /\ (forall e, coerce_number (JStr s) <> Raise e).
Proof.
  split.
  - intros Hall Hhas. cbn [coerce_number].
    assert (Hns : forall c, digit_or_comma c = true -> PyStr.is_space c = false).
    { intros c Hc. unfold digit_or_comma in Hc. apply orb_true_iff in Hc as [Hc|Hc];
        [apply digit_not_space|apply comma_not_space]; exact Hc. }
    rewrite (strip_no_space digit_or_comma s Hns Hall).
    destruct (remove_commas_digits s Hall) as [Hd Hne].
    rewrite (float_of_digits _ Hd (Hne Hhas)). reflexivity.
  - intros e H. discriminate H.
Qed.

Lemma grouped_digits_are_read_as_integers_witness :
  coerce_number (JStr "1,234,567") = Ok (Some (of_Z 1234567))
  /\ coerce_number (JStr "1,5") = Ok (Some (of_Z 15)).
Proof.
  split.
  - apply (proj1 (grouped_digits_are_read_as_integers "1,234,567")); reflexivity.
  - apply (proj1 (grouped_digits_are_read_as_integers "1,5")); reflexivity.
Defined.

(** ** Range totals when suppression is off *)

Lemma later_fields_extend (a : args) (date : string) (keyset : gset string) (l : dict) :
  forall s s', for_each (process_field a date keyset) l s = Ok s' ->
    extends (values_by_date s) (values_by_date s').
Proof.
  intros s s' H. revert H.
  apply (for_each_preserves (fun s' => extends (values_by_date s) (values_by_date s'))).
  - intros s1 x s2 Hs Hx. eapply extends_trans; [exact Hs|].
    destruct (process_field_frame _ _ _ _ _ _ Hx) as (_ & _ & E & _). exact E.
  - apply extends_refl.
Qed.

(** A field that passes every filter is found among the observations when
    the fields of its record are done. *)
Lemma field_is_observed (a : args) (date : string) (keyset : gset string)
      (pre post : dict) (k : string) (v : json) (num x : float) (base : string)
      (st st' : state) :
  PyStr.lower k ∉ DATE_KEYS -> PyStr.lower k ∉ SKIP_KEYS ->
  bare_suppressed keyset (PyStr.lower k) = false ->
  coerce_number v = Ok (Some num) ->
  scale (PyStr.lower k) num = (x, base) ->
  for_each (process_field a date keyset) (pre ++ (k, v) :: post) st = Ok st' ->
  x ∈ observed (values_by_date st') date (default base (REMAP !! base)).
Proof.
  intros Hd Hs Hb Hc Hscale H. rewrite for_each_app in H.
  destruct (for_each (process_field a date keyset) pre st) as [s1|e]; [|discriminate H].
  cbn [rbind for_each] in H.
  rewrite (process_field_metric a date keyset s1 k v num Hd Hs Hc Hb), Hscale in H.
  cbv beta iota zeta in H. cbn [rbind] in H.
  set (std := default base (REMAP !! base)) in *.
  set (s2 := append_value date std x (note_key (PyStr.lower k) s1)) in *.
  assert (Hx : x ∈ observed (values_by_date s2) date std).
  { unfold s2. rewrite observed_append_same. apply elem_of_app. right. left. }
  assert (Hx' : x ∈ observed (values_by_date
                    (if keep_raw a && negb (String.eqb base std)
                     then append_value date base x s2 else s2)) date std).
  { destruct (keep_raw a && negb (String.eqb base std)) eqn:E; [|exact Hx].
    apply andb_true_iff in E as [_ E]. apply negb_true_iff, String.eqb_neq in E.
    rewrite observed_append_other by congruence. exact Hx. }
  destruct (later_fields_extend a date keyset post _ st' H date std) as [more Hmore].
  rewrite Hmore. apply elem_of_app. left. exact Hx'.
Qed.

(** C2. A record is classified as a range total exactly when one of its
    lowercased keys is a range-indicator name and none is a per-day
    container name.  A record so classified leaves the whole loop state
    untouched when suppression is on (the default).  With suppression off
    the classification plays no part: the date of the record is resolved
    and its fields are accumulated, so that a numeric field of a dated
    record, range total or not, is found among the observations of that
    date. *)
Theorem range_total_classified_and_suppressed (a : args) (st : state) (d : dict) :
  (looks_like_range_total d = true <->
     (exists k, k ∈ keys d /\ PyStr.lower k ∈ RANGE_HINT_KEYS)
     /\ (forall k, k ∈ keys d ->
           PyStr.lower k ∉ ["days"; "daily"; "by_day"; "series"; "data"; "datapoints"]))
  /\ (looks_like_range_total d = true -> include_range_totals a = false ->
        process_record a st d = Ok st)
  /\ (include_range_totals a = true ->
        process_record a st d = accumulate_record a st d
        /\ forall pre post k v date num x base st',
             d = pre ++ (k, v) :: post ->
             norm_date (tz_offset_hours a) (find_date_val d (keys d)) = Ok (Some date) ->
             date <> EmptyString ->
             PyStr.lower k ∉ DATE_KEYS -> PyStr.lower k ∉ SKIP_KEYS ->
             bare_suppressed (lower_keys d) (PyStr.lower k) = false ->
             coerce_number v = Ok (Some num) ->
             scale (PyStr.lower k) num = (x, base) ->
             process_record a st d = Ok st' ->
             x ∈ observed (values_by_date st') date (default base (REMAP !! base))).
Proof.
  split; [apply looks_like_range_total_spec|].
  unfold process_record. split.
  - intros -> ->. reflexivity.
  - intros ->. cbn [negb andb]. split; [reflexivity|].
    intros pre post k v date num x base st' Hd Hdate Hne Hk Hs Hb Hc Hscale H.
    unfold accumulate_record in H. rewrite Hdate in H. cbn [rbind] in H.
    destruct date as [|c r]; [contradiction|].
    rewrite Hd in H at 2.
    exact (field_is_observed a _ _ pre post k v num x base st st' Hk Hs Hb Hc Hscale H).
Qed.

Lemma range_total_classified_and_suppressed_witness :
  process_record default_args init_state record_range_total_dated = Ok init_state
  /\ exists st',
       process_record (mkargs false false 0 "sum" true) init_state record_range_total_dated
       = Ok st'
       /\ of_Z 700 ∈ observed (values_by_date st') "2024-03-07"
                              (default "total_spend" (REMAP !! "total_spend")).
Proof.
  split.
  - apply (proj1 (proj2 (range_total_classified_and_suppressed
                           default_args init_state record_range_total_dated)));
      vm_compute; reflexivity.
  - destruct (process_record (mkargs false false 0 "sum" true) init_state
                record_range_total_dated) as [st'|e] eqn:E;
      [|exfalso; vm_compute in E; discriminate E].
    exists st'. split; [reflexivity|].
    destruct (proj2 (proj2 (range_total_classified_and_suppressed
                              (mkargs false false 0 "sum" true) init_state
                              record_range_total_dated)) eq_refl) as [_ H].
    apply (H [("date", JStr "2024-03-07"); ("start_date", JStr "2024-03-01");
              ("end_date", JStr "2024-03-07")] [] "total_spend" (JInt 700)
             "2024-03-07" (of_Z 700) (of_Z 700) "total_spend" st').
    + reflexivity.
    + vm_compute. reflexivity.
    + discriminate.
    + apply not_in_by_compute. vm_compute. reflexivity.
    + apply not_in_by_compute. vm_compute. reflexivity.
    + vm_compute. reflexivity.
    + reflexivity.
    + vm_compute. reflexivity.
    + exact E.
Defined.

(** ** Documents nested too deep *)

Lemma depth_le_nesting (limit : nat) :
  forall obj, (nesting obj + 1 <= limit)%nat -> (depth obj <= limit)%nat.
Proof.
  induction limit as [|limit IH]; intros obj H; [lia|].
  destruct obj as [| | | | |l|d]; cbn [depth nesting] in *; try lia.
  - apply le_n_S. apply max_fold_le. intros x Hx. apply IH.
    assert (Hm : (fold_right (fun x acc => Nat.max (nesting x) acc) 0 l <= limit - 1)%nat)
      by lia.
    pose proof (proj1 (max_fold_le nesting l (limit - 1)) Hm x Hx). lia.
  - apply le_n_S.
    apply (max_fold_le (fun kv : string * json => let '(_, v) := kv in depth v)).
    intros [k v] Hx. apply IH.
    assert (Hm : (fold_right (fun kv acc => Nat.max (let '(_, v) := kv in nesting v) acc) 0 d
                  <= limit - 1)%nat) by lia.
    pose proof (proj1 (max_fold_le (fun kv : string * json => let '(_, v) := kv in nesting v)
                         d (limit - 1)) Hm (k, v) Hx) as Hv.
    cbn beta iota in Hv. lia.
Qed.

(** What the parser returns, the walker walks to the end. *)
Lemma json_loads_walks (limit : nat) (data x : json) :
  json_loads limit data = Some x ->
  x = data /\ snd (iter_dicts limit data) = None.
Proof.
  unfold json_loads. destruct (nesting data + 4 <=? limit)%nat eqn:E; [|discriminate].
  intros H. injection H as <-. split; [reflexivity|].
  apply Nat.leb_le in E. apply iter_dicts_done_iff. apply depth_le_nesting. lia.
Qed.

Lemma json_loads_too_deep (limit : nat) (doc : json) :
  (limit < depth doc)%nat -> json_loads limit doc = None.
Proof.
  intros H. unfold json_loads.
  destruct (nesting doc + 4 <=? limit)%nat eqn:E; [|reflexivity].
  apply Nat.leb_le in E. exfalso.
  pose proof (depth_le_nesting limit doc ltac:(lia)). lia.
Qed.

Lemma for_each_raises {A S : Type} (P : exn -> Prop) (body : S -> A -> res S) :
  (forall s x e, body s x = Raise e -> P e) ->
  forall l s e, for_each body l s = Raise e -> P e.
Proof.
  intros Hbody l. induction l as [|x l IH]; intros s e H; cbn [for_each] in H;
    [discriminate H|].
  destruct (body s x) as [s1|e1] eqn:E; cbn [rbind] in H.
  - exact (IH s1 e H).
  - injection H as <-. exact (Hbody s x e1 E).
Qed.

Lemma coerce_number_raises (v : json) (e : exn) :
  coerce_number v = Raise e -> e = OverflowError.
Proof.
  assert (Hf : forall n, float_of_int n = Raise e -> e = OverflowError).
  { intros n. unfold float_of_int. destruct (of_Z n); intros H; try discriminate H.
    injection H as <-. reflexivity. }
  destruct v as [|b|n|x|s|l|d]; cbn [coerce_number]; try (intros H; discriminate H).
  - destruct (float_of_int (if b then 1 else 0)) eqn:E; cbn [rbind]; intros H;
      [discriminate H|]. injection H as <-. exact (Hf _ E).
  - destruct (float_of_int n) eqn:E; cbn [rbind]; intros H; [discriminate H|].
    injection H as <-. exact (Hf _ E).
Qed.

Lemma norm_date_raises (tz : Z) (v : json) (e : exn) :
  norm_date tz v = Raise e -> e <> RecursionError.
Proof.
  destruct v as [|b|n|x|s|l|d]; cbn [norm_date]; try (intros H; discriminate H).
  destruct x as [sx|sx| |sx m ex]; cbn [int_of_float rbind]; intros H;
    try discriminate H; injection H as <-; discriminate.
Qed.

Lemma process_record_raises (a : args) (st : state) (d : dict) (e : exn) :
  process_record a st d = Raise e -> e <> RecursionError.
Proof.
  unfold process_record.
  destruct (negb (include_range_totals a) && looks_like_range_total d);
    [intros H; discriminate H|].
  unfold accumulate_record.
  destruct (norm_date (tz_offset_hours a) (find_date_val d (keys d))) as [date|e0] eqn:Hd;
    cbn [rbind].
  - destruct date as [[|c r]|]; try (intros H; discriminate H).
    apply (for_each_raises (fun e => e <> RecursionError)).
    intros s [k v] e1. unfold process_field.
    destruct (bool_decide _ || bool_decide _); [intros H; discriminate H|].
    destruct (coerce_number v) as [[num|]|e2] eqn:Hc; cbn [rbind].
    + destruct (bare_suppressed _ _); [intros H; discriminate H|].
      destruct (scale _ _) as [num' base].
      destruct (keep_raw a && _); intros H; discriminate H.
    + intros H; discriminate H.
    + intros H. injection H as <-. rewrite (coerce_number_raises v e2 Hc). discriminate.
  - intros H. injection H as <-. exact (norm_date_raises _ _ _ Hd).
Qed.

Lemma process_file_raises (a : args) (limit : nat) (st : state) (f : file) (e : exn) :
  process_file a limit st (load limit f) = Raise e -> e <> RecursionError.
Proof.
  destruct f as [|data]; cbn [load process_file]; [intros H; discriminate H|].
  assert (Hparsed : forall x, json_loads limit data = Some x ->
            process_file a limit st (Loaded x) = Raise e -> e <> RecursionError).
  { intros x E. apply json_loads_walks in E as [-> Hwalk].
    cbn [process_file]. unfold for_gen. rewrite Hwalk.
    destruct (for_each (process_record a) (fst (iter_dicts limit data)) _) as [s1|e1] eqn:E1;
      cbn [rbind]; intros H; [discriminate H|].
    injection H as <-.
    exact (for_each_raises (fun e => e <> RecursionError) (process_record a)
             (process_record_raises a) _ _ _ E1). }
  destruct (json_loads limit data) as [x|] eqn:E.
  - destruct data; cbn [process_file]; try (intros H; discriminate H);
      exact (Hparsed x eq_refl).
  - destruct data; cbn [process_file]; intros H; discriminate H.
Qed.

Lemma main_raises (a : args) (limit : nat) (files : list source) (e : exn) :
  main a limit files = Raise e -> harvest a limit files = Raise e.
Proof.
  unfold main. destruct files as [|f files]; [intros H; discriminate H|].
  destruct (harvest a limit (f :: files)) as [st|e0]; cbn [rbind].
  - destruct (bool_decide (values_by_date st = ∅)); [intros H; discriminate H|].
    destruct (build_rows_ok a (values_by_date st)
                (sorted String.ltb (elements (dom (values_by_date st))))) as [rows ->].
    cbn [rbind]. intros H. discriminate H.
  - intros H. injection H as <-. reflexivity.
Qed.

(** C5. A document nested too deep for the walker never reaches it: the
    parser, which draws on the same recursion limit and needs more of it,
    raises first, inside the [try] around [json.loads].  The file is
    skipped like a file that is not JSON and the run goes on with the next
    file.  No run ends in a RecursionError. *)
Theorem too_deep_document_is_skipped (a : args) (limit : nat) (pre post : list file)
        (doc : json) :
  (limit < depth doc)%nat ->
  load limit (Document doc) = Skipped
  /\ (forall st, process_file a limit st (load limit (Document doc)) = Ok st)
  /\ main_of_files a limit (pre ++ Document doc :: post)
     = main_of_files a limit (pre ++ Unusable :: post)
  /\ (forall files, main_of_files a limit files <> Raise RecursionError).
Proof.
  intros Hdeep.
  assert (Hload : load limit (Document doc) = Skipped).
  { cbn [load]. rewrite (json_loads_too_deep limit doc Hdeep). destruct doc; reflexivity. }
  split; [exact Hload|]. split; [intros st; rewrite Hload; reflexivity|]. split.
  - unfold main_of_files. rewrite !map_app. cbn [map]. rewrite Hload. reflexivity.
  - intros files H. unfold main_of_files in H. apply main_raises in H.
    unfold harvest in H.
    assert (Hgen : forall l s e,
               for_each (process_file a limit) (map (load limit) l) s = Raise e ->
               e <> RecursionError).
    { induction l as [|f l IH]; intros s e He; cbn [map for_each] in He; [discriminate He|].
      destruct (process_file a limit s (load limit f)) as [s1|e1] eqn:E; cbn [rbind] in He.
      - exact (IH s1 e He).
      - injection He as <-. exact (process_file_raises a limit s f e1 E). }
    exact (Hgen files init_state RecursionError H eq_refl).
Qed.

Lemma too_deep_document_is_skipped_witness :
  main_of_files default_args 6 ([Document doc_A] ++ Document (nested_lists 6) :: [Document doc_A])
  = main_of_files default_args 6 ([Document doc_A] ++ Unusable :: [Document doc_A]).
Proof.
  apply (too_deep_document_is_skipped default_args 6 [Document doc_A] [Document doc_A]
           (nested_lists 6)).
  vm_compute. lia.
Defined.
